(** * Display lists of libs/hwui: recording, replay and resource lifetime

    A shallow embedding of [libs/hwui/DisplayListRenderer.cpp]:

    - [DisplayListRenderer] (the recorder) appends opcodes and operands to
      an [SkWriter32] stream of 32-bit cells and keeps the tables of the
      resources the stream refers to;
    - [DisplayList] owns a flattened copy of that stream and the tables,
      walks the stream in [replay] (dispatching to a renderer) and in
      [output] (logging), and takes and drops references in the resource
      cache in [initFromDisplayListRenderer] and [clearResources].

    Conventions.  A stream cell is a 32-bit pattern, a [Z] in [0, 2^32).
    A C [int] is a [Z]; it is stored as [u32 v] and read back as [s32 w].
    A [float] is its IEEE-754 binary32 bit pattern; arithmetic and
    comparisons go through [SpecFloat] at precision 24.  A pointer is the
    integer it is cast to when it is written to the stream; the null
    pointer is 0.  A pointer to an array is the list of its elements.

    The renderer that [replay] drives is observed through the list of the
    calls made on it.  The recorder overrides the same methods, so a call
    also names an operation to record; a [text] pointer is [None] when it
    is null.  Debug marks, the log buffer and [DISPLAY_LIST_LOGD]
    are diagnostics and are left out. *)

From Stdlib Require Import ZArith List Bool Lia.
From Stdlib Require Import Floats.SpecFloat.
From stdpp Require Import base list gmap numbers.
From Equations Require Import Equations.

Local Open Scope Z_scope.

(** ** 32-bit integers *)

Definition u32 (v : Z) : Z := v mod 2 ^ 32.
Definition s32 (v : Z) : Z := (v + 2 ^ 31) mod 2 ^ 32 - 2 ^ 31.

(** [(int8_t) v] *)
Definition s8 (v : Z) : Z := (v + 2 ^ 7) mod 2 ^ 8 - 2 ^ 7.

(** ** binary32 floats, as bit patterns *)

Definition float : Type := Z.

Definition float_of_bits (w : Z) : spec_float :=
  let s := Z.testbit w 31 in
  let e := Z.land (Z.shiftr w 23) 255 in
  let m := Z.land w 8388607 in
  if e =? 0 then
    if m =? 0 then S754_zero s else S754_finite s (Z.to_pos m) (-149)
  else if e =? 255 then
    if m =? 0 then S754_infinity s else S754_nan
  else S754_finite s (Z.to_pos (m + 8388608)) (e - 150).

Definition sign_bit (s : bool) : Z := if s then 2147483648 else 0.

Definition bits_of_float (f : spec_float) : Z :=
  match f with
  | S754_zero s => sign_bit s
  | S754_infinity s => sign_bit s + 2139095040
  | S754_nan => 2143289344
  | S754_finite s m e =>
      if Z.pos m <? 8388608 then sign_bit s + Z.pos m
      else sign_bit s + Z.shiftl (e + 150) 23 + (Z.pos m - 8388608)
  end.

Definition fadd (a b : float) : float :=
  bits_of_float (SFadd 24 128 (float_of_bits a) (float_of_bits b)).
Definition fsub (a b : float) : float :=
  bits_of_float (SFsub 24 128 (float_of_bits a) (float_of_bits b)).
Definition feqb (a b : float) : bool :=
  SFeqb (float_of_bits a) (float_of_bits b).
Definition fltb (a b : float) : bool :=
  SFltb (float_of_bits a) (float_of_bits b).
Definition fleb (a b : float) : bool :=
  SFleb (float_of_bits a) (float_of_bits b).

(** [(float) n] for an integer [n] *)
Definition float_of_int (n : Z) : float :=
  bits_of_float (binary_normalize 24 128 n 0 false).

(** [0.0f] *)
Definition fzero : float := 0.

(** ** Opcodes

    The enumeration [DisplayList::Op] is declared in the header; its
    order is the order of [DisplayList::OP_NAMES], which [replay] and
    [output] index by opcode. *)

Inductive Op : Type :=
  | Save | Restore | RestoreToCount | SaveLayer | SaveLayerAlpha
  | Translate | Rotate | Scale | Skew | SetMatrix | ConcatMatrix | ClipRect
  | DrawDisplayList | DrawLayer | DrawBitmap | DrawBitmapMatrix
  | DrawBitmapRect | DrawBitmapMesh | DrawPatch | DrawColor | DrawRect
  | DrawRoundRect | DrawCircle | DrawOval | DrawArc | DrawPath | DrawLines
  | DrawPoints | DrawText | DrawTextOnPath | DrawPosText | ResetShader
  | SetupShader | ResetColorFilter | SetupColorFilter | ResetShadow
  | SetupShadow | ResetPaintFilter | SetupPaintFilter | DrawGLFunction.

Definition OP_NAMES : list Op :=
  [ Save; Restore; RestoreToCount; SaveLayer; SaveLayerAlpha; Translate;
    Rotate; Scale; Skew; SetMatrix; ConcatMatrix; ClipRect;
    DrawDisplayList; DrawLayer; DrawBitmap; DrawBitmapMatrix;
    DrawBitmapRect; DrawBitmapMesh; DrawPatch; DrawColor; DrawRect;
    DrawRoundRect; DrawCircle; DrawOval; DrawArc; DrawPath; DrawLines;
    DrawPoints; DrawText; DrawTextOnPath; DrawPosText; ResetShader;
    SetupShader; ResetColorFilter; SetupColorFilter; ResetShadow;
    SetupShadow; ResetPaintFilter; SetupPaintFilter; DrawGLFunction ].

Definition op_code (o : Op) : Z :=
  match o with
  | Save => 0 | Restore => 1 | RestoreToCount => 2 | SaveLayer => 3
  | SaveLayerAlpha => 4 | Translate => 5 | Rotate => 6 | Scale => 7
  | Skew => 8 | SetMatrix => 9 | ConcatMatrix => 10 | ClipRect => 11
  | DrawDisplayList => 12 | DrawLayer => 13 | DrawBitmap => 14
  | DrawBitmapMatrix => 15 | DrawBitmapRect => 16 | DrawBitmapMesh => 17
  | DrawPatch => 18 | DrawColor => 19 | DrawRect => 20
  | DrawRoundRect => 21 | DrawCircle => 22 | DrawOval => 23
  | DrawArc => 24 | DrawPath => 25 | DrawLines => 26 | DrawPoints => 27
  | DrawText => 28 | DrawTextOnPath => 29 | DrawPosText => 30
  | ResetShader => 31 | SetupShader => 32 | ResetColorFilter => 33
  | SetupColorFilter => 34 | ResetShadow => 35 | SetupShadow => 36
  | ResetPaintFilter => 37 | SetupPaintFilter => 38
  | DrawGLFunction => 39
  end.

(** The [case] label, if any, that a [switch (op)] selects. *)
Definition op_of_code (c : Z) : option Op :=
  match c with
  | 0 => Some Save | 1 => Some Restore | 2 => Some RestoreToCount
  | 3 => Some SaveLayer | 4 => Some SaveLayerAlpha | 5 => Some Translate
  | 6 => Some Rotate | 7 => Some Scale | 8 => Some Skew
  | 9 => Some SetMatrix | 10 => Some ConcatMatrix | 11 => Some ClipRect
  | 12 => Some DrawDisplayList | 13 => Some DrawLayer
  | 14 => Some DrawBitmap | 15 => Some DrawBitmapMatrix
  | 16 => Some DrawBitmapRect | 17 => Some DrawBitmapMesh
  | 18 => Some DrawPatch | 19 => Some DrawColor | 20 => Some DrawRect
  | 21 => Some DrawRoundRect | 22 => Some DrawCircle | 23 => Some DrawOval
  | 24 => Some DrawArc | 25 => Some DrawPath | 26 => Some DrawLines
  | 27 => Some DrawPoints | 28 => Some DrawText
  | 29 => Some DrawTextOnPath | 30 => Some DrawPosText
  | 31 => Some ResetShader | 32 => Some SetupShader
  | 33 => Some ResetColorFilter | 34 => Some SetupColorFilter
  | 35 => Some ResetShadow | 36 => Some SetupShadow
  | 37 => Some ResetPaintFilter | 38 => Some SetupPaintFilter
  | 39 => Some DrawGLFunction
  | _ => None
  end.

(** Modelled from the spec: the constant [OP_MAY_BE_SKIPPED_MASK] of the
    header is missing.  The spec has the skip flag as a bit embedded in
    the 32-bit opcode; it is the top bit, clear of every opcode value. *)
Definition OP_MAY_BE_SKIPPED_MASK : Z := 0x80000000.

(** Modelled from the spec: the enumeration [DisplayList::ReplayFlag] of
    the header is missing.  Culling is enabled for one replay by a flag
    bit of its [flags] argument. *)
Definition kReplayFlag_ClipChildren : Z := 0x1.

(** ** The calls that [replay] makes on the renderer

    One constructor per method of [OpenGLRenderer] that [replay] invokes,
    with the operands it passes ([dirty], an out parameter, is left out). *)

Inductive Call : Type :=
  | renderer_callDrawGLFunction (functor : Z)
  | renderer_save (flags : Z)
  | renderer_restore
  | renderer_restoreToCount (saveCount : Z)
  | renderer_saveLayer (f1 f2 f3 f4 : float) (paint : Z) (flags : Z)
  | renderer_saveLayerAlpha (f1 f2 f3 f4 : float) (alpha : Z) (flags : Z)
  | renderer_translate (f1 f2 : float)
  | renderer_rotate (rotation : float)
  | renderer_scale (sx sy : float)
  | renderer_skew (sx sy : float)
  | renderer_setMatrix (matrix : Z)
  | renderer_concatMatrix (matrix : Z)
  | renderer_clipRect (f1 f2 f3 f4 : float) (regionOp : Z)
  | renderer_drawDisplayList (displayList : Z) (width height : Z)
      (flags : Z) (level : Z)
  | renderer_drawLayer (layer : Z) (x y : float) (paint : Z)
  | renderer_drawBitmap (bitmap : Z) (x y : float) (paint : Z)
  | renderer_drawBitmapMatrix (bitmap : Z) (matrix : Z) (paint : Z)
  | renderer_drawBitmapRect (bitmap : Z) (f1 f2 f3 f4 f5 f6 f7 f8 : float)
      (paint : Z)
  | renderer_drawBitmapMesh (bitmap : Z) (meshWidth meshHeight : Z)
      (vertices : list float) (colors : option (list Z)) (paint : Z)
  | renderer_drawPatch (bitmap : Z) (xDivs yDivs : list Z) (colors : list Z)
      (xDivsCount yDivsCount : Z) (numColors : Z)
      (left top right bottom : float) (paint : Z)
  | renderer_drawColor (color : Z) (xferMode : Z)
  | renderer_drawRect (f1 f2 f3 f4 : float) (paint : Z)
  | renderer_drawRoundRect (f1 f2 f3 f4 f5 f6 : float) (paint : Z)
  | renderer_drawCircle (f1 f2 f3 : float) (paint : Z)
  | renderer_drawOval (f1 f2 f3 f4 : float) (paint : Z)
  | renderer_drawArc (f1 f2 f3 f4 f5 f6 : float) (useCenter : bool)
      (paint : Z)
  | renderer_drawPath (path : Z) (paint : Z)
  | renderer_drawLines (points : list float) (count : Z) (paint : Z)
  | renderer_drawPoints (points : list float) (count : Z) (paint : Z)
  | renderer_drawText (text : option (list Z)) (bytesCount : Z) (count : Z)
      (x y : float) (paint : Z) (length : float)
  | renderer_drawTextOnPath (text : option (list Z)) (bytesCount : Z)
      (count : Z)
      (path : Z) (hOffset vOffset : float) (paint : Z)
  | renderer_drawPosText (text : option (list Z)) (bytesCount : Z)
      (count : Z)
      (positions : list float) (paint : Z)
  | renderer_resetShader
  | renderer_setupShader (shader : Z)
  | renderer_resetColorFilter
  | renderer_setupColorFilter (colorFilter : Z)
  | renderer_resetShadow
  | renderer_setupShadow (radius dx dy : float) (color : Z)
  | renderer_resetPaintFilter
  | renderer_setupPaintFilter (clearBits setBits : Z).

(** ** Reading the stream: [SkReader32]

    The reader is the list of the cells from the cursor to the end of the
    buffer; [eof] holds when it is empty, and the byte offset of the cursor
    in a buffer [base] is [reader_offset base r].  Reading or skipping
    beyond the end is outside the reader's contract: the decoder is then
    undefined, written [None]. *)

Definition SkReader32 : Type := list Z.

Definition reader_offset (base : list Z) (r : SkReader32) : Z :=
  4 * (Z.of_nat (length base) - Z.of_nat (length r)).

Definition Dec (A : Type) : Type := SkReader32 -> option (A * SkReader32).

Definition retD {A} (a : A) : Dec A := fun r => Some (a, r).

Definition bindD {A B} (m : Dec A) (k : A -> Dec B) : Dec B :=
  fun r => match m r with
           | Some (a, r') => k a r'
           | None => None
           end.

Declare Scope dec_scope.
Delimit Scope dec_scope with dec.
Notation "'let*' x := m 'in' k" := (bindD m (fun x => k))
  (at level 10, x name, m at level 100, k at level 200,
   only parsing) : dec_scope.
Notation "'let*' ' p := m 'in' k" :=
  (bindD m (fun x => match x with p => k end))
  (at level 10, p pattern, m at level 100, k at level 200,
   only parsing) : dec_scope.

Module Reader.
Local Open Scope dec_scope.

Definition eof (r : SkReader32) : bool :=
  match r with [] => true | _ => false end.

(** [mReader.readInt()] *)
Definition readInt : Dec Z :=
  fun r => match r with
           | [] => None
           | w :: r' => Some (s32 w, r')
           end.

(** [mReader.readScalar()]: the cell is the float's bit pattern. *)
Definition readScalar : Dec float :=
  fun r => match r with
           | [] => None
           | w :: r' => Some (w, r')
           end.

(** [mReader.skip(size)]: advances by [size] bytes rounded up to a whole
    number of cells and returns the cells passed over. *)
Definition skip (size : Z) : Dec (list Z) :=
  fun r =>
    if decide (0 <= size) then
      let n := Z.to_nat ((size + 3) / 4) in
      if decide (n <= length r)%nat then Some (take n r, drop n r)
      else None
    else None.

(** The four bytes of a cell, lowest address first (little endian). *)
Definition bytes_of_cell (w : Z) : list Z :=
  [ w mod 256; (w / 256) mod 256; (w / 65536) mod 256;
    (w / 16777216) mod 256 ].

(** Modelled from the spec: the typed getters of the header
    ([getInt], [getUInt], [getFloat], [getFloats], [getInts], [getUInts],
    [getText] and the resource getters) are missing.  Per the spec an
    operand is a fixed-size scalar, an array of floats or ints prefixed by
    its count, a resource handle written as an integer, or a blob of text
    bytes prefixed by its length. *)
Definition getInt : Dec Z := readInt.

Definition getUInt : Dec Z := let* w := readInt in retD (u32 w).

Definition getFloat : Dec float := readScalar.

Definition getFloats : Dec (list float * Z) :=
  let* count := getInt in
  let* cells := skip (count * 4) in
  retD (cells, count).

Definition getInts : Dec (list Z * Z) :=
  let* count := getUInt in
  let* cells := skip (count * 4) in
  retD (map s32 cells, count).

Definition getUInts : Dec (list Z * Z) :=
  let* count := getInt in
  let count := s8 count in
  let* cells := skip (count * 4) in
  retD (cells, count).

(** [getText(&text)]: the text and its length in bytes. *)
Definition getText : Dec (list Z * Z) :=
  let* length := getInt in
  let* cells := skip length in
  retD (take (Z.to_nat length) (flat_map bytes_of_cell cells), length).

Definition getPaint : Dec Z := getInt.
Definition getPath : Dec Z := getInt.
Definition getMatrix : Dec Z := getInt.
Definition getBitmap : Dec Z := getInt.
Definition getShader : Dec Z := getInt.
Definition getColorFilter : Dec Z := getInt.
Definition getDisplayList : Dec Z := getInt.

(** Every decoding step leaves the cursor where it was or moves it
    forward; reading a cell moves it forward.  The loops of [replay] and
    [output] consume at least the opcode in each iteration, so they
    terminate on every buffer. *)
Definition steady {A} (m : Dec A) : Prop :=
  forall r a r', m r = Some (a, r') -> (length r' <= length r)%nat.

Definition shrinks {A} (m : Dec A) : Prop :=
  forall r a r', m r = Some (a, r') -> (length r' < length r)%nat.

Lemma steady_retD {A} (a : A) : steady (retD a).
Proof. intros r a' r' [= _ <-]. lia. Qed.

Lemma steady_bindD {A B} (m : Dec A) (k : A -> Dec B) :
  steady m -> (forall a, steady (k a)) -> steady (bindD m k).
Proof.
  intros Hm Hk r b r'. unfold bindD.
  destruct (m r) as [[a r1]|] eqn:E; [|discriminate].
  intros H. apply Hm in E. apply Hk in H. lia.
Qed.

Lemma shrinks_bindD {A B} (m : Dec A) (k : A -> Dec B) :
  shrinks m -> (forall a, steady (k a)) -> shrinks (bindD m k).
Proof.
  intros Hm Hk r b r'. unfold bindD.
  destruct (m r) as [[a r1]|] eqn:E; [|discriminate].
  intros H. apply Hm in E. apply Hk in H. lia.
Qed.

Lemma shrinks_steady {A} (m : Dec A) : shrinks m -> steady m.
Proof. intros H r a r' E. apply H in E. lia. Qed.

Lemma shrinks_readInt : shrinks readInt.
Proof. intros [|w r] a r'; [discriminate|]. intros [= _ <-]. simpl. lia. Qed.

Lemma shrinks_readScalar : shrinks readScalar.
Proof. intros [|w r] a r'; [discriminate|]. intros [= _ <-]. simpl. lia. Qed.

Lemma steady_skip size : steady (skip size).
Proof.
  intros r a r'. unfold skip. repeat case_decide; try discriminate.
  intros [= _ <-]. rewrite length_drop. lia.
Qed.

Ltac steady_step :=
  first
    [ apply steady_retD
    | apply steady_skip
    | apply shrinks_steady; first [ apply shrinks_readInt
                                  | apply shrinks_readScalar ]
    | apply steady_bindD; [ | intros ? ]
    | match goal with
      | |- steady (match ?x with (_, _) => _ end) => destruct x
      | |- steady (if ?d then _ else _) => destruct d
      end ].

Ltac steady_tac := unfold getInt, getUInt, getFloat, getFloats, getInts,
    getUInts, getText, getPaint, getPath, getMatrix, getBitmap, getShader,
    getColorFilter, getDisplayList; repeat steady_step.

Definition inspect {A} (a : A) : {b | a = b} := exist _ a eq_refl.

Lemma inspect_eq {A} (a b : A) (H : a = b) : inspect a = exist _ b H.
Proof. destruct H. reflexivity. Qed.

End Reader.

(** ** [DisplayList::replay] *)

Module Replay.
Import Reader.
Local Open Scope dec_scope.

Section Replay.

(** What the renderer answers to [callDrawGLFunction] and
    [drawDisplayList]: whether another frame is needed. *)
Variable renderer_returns : Call -> bool.

(** The [switch (op)] of [replay]: the calls made for one opcode.
    [saveCount] is [renderer.getSaveCount() - 1] at the start of the
    replay, [level] the nesting depth. *)
Definition replay_case (level saveCount : Z) (op : Z) : Dec (list Call) :=
  match op_of_code op with
  | Some DrawGLFunction =>
      let* functor := getInt in
      retD [renderer_callDrawGLFunction functor]
  | Some Save =>
      let* rendererNum := getInt in
      retD [renderer_save rendererNum]
  | Some Restore =>
      retD [renderer_restore]
  | Some RestoreToCount =>
      let* n := getInt in
      let restoreCount := s32 (saveCount + n) in
      retD [renderer_restoreToCount restoreCount]
  | Some SaveLayer =>
      let* f1 := getFloat in
      let* f2 := getFloat in
      let* f3 := getFloat in
      let* f4 := getFloat in
      let* paint := getPaint in
      let* flags := getInt in
      retD [renderer_saveLayer f1 f2 f3 f4 paint flags]
  | Some SaveLayerAlpha =>
      let* f1 := getFloat in
      let* f2 := getFloat in
      let* f3 := getFloat in
      let* f4 := getFloat in
      let* alpha := getInt in
      let* flags := getInt in
      retD [renderer_saveLayerAlpha f1 f2 f3 f4 alpha flags]
  | Some Translate =>
      let* f1 := getFloat in
      let* f2 := getFloat in
      retD [renderer_translate f1 f2]
  | Some Rotate =>
      let* rotation := getFloat in
      retD [renderer_rotate rotation]
  | Some Scale =>
      let* sx := getFloat in
      let* sy := getFloat in
      retD [renderer_scale sx sy]
  | Some Skew =>
      let* sx := getFloat in
      let* sy := getFloat in
      retD [renderer_skew sx sy]
  | Some SetMatrix =>
      let* matrix := getMatrix in
      retD [renderer_setMatrix matrix]
  | Some ConcatMatrix =>
      let* matrix := getMatrix in
      retD [renderer_concatMatrix matrix]
  | Some ClipRect =>
      let* f1 := getFloat in
      let* f2 := getFloat in
      let* f3 := getFloat in
      let* f4 := getFloat in
      let* regionOp := getInt in
      retD [renderer_clipRect f1 f2 f3 f4 regionOp]
  | Some DrawDisplayList =>
      let* displayList := getDisplayList in
      let* width := getUInt in
      let* height := getUInt in
      let* flags := getInt in
      retD [renderer_drawDisplayList displayList width height flags
              (u32 (level + 1))]
  | Some DrawLayer =>
      let* layer := getInt in
      let* x := getFloat in
      let* y := getFloat in
      let* paint := getPaint in
      retD [renderer_drawLayer layer x y paint]
  | Some DrawBitmap =>
      let* bitmap := getBitmap in
      let* x := getFloat in
      let* y := getFloat in
      let* paint := getPaint in
      retD [renderer_drawBitmap bitmap x y paint]
  | Some DrawBitmapMatrix =>
      let* bitmap := getBitmap in
      let* matrix := getMatrix in
      let* paint := getPaint in
      retD [renderer_drawBitmapMatrix bitmap matrix paint]
  | Some DrawBitmapRect =>
      let* bitmap := getBitmap in
      let* f1 := getFloat in
      let* f2 := getFloat in
      let* f3 := getFloat in
      let* f4 := getFloat in
      let* f5 := getFloat in
      let* f6 := getFloat in
      let* f7 := getFloat in
      let* f8 := getFloat in
      let* paint := getPaint in
      retD [renderer_drawBitmapRect bitmap f1 f2 f3 f4 f5 f6 f7 f8 paint]
  | Some DrawBitmapMesh =>
      let* bitmap := getBitmap in
      let* meshWidth := getInt in
      let meshWidth := u32 meshWidth in
      let* meshHeight := getInt in
      let meshHeight := u32 meshHeight in
      let* '(vertices, verticesCount) := getFloats in
      let* hasColors := getInt in
      let* colors :=
        (if decide (hasColors = 0) then retD None
         else let* '(colors, colorsCount) := getInts in retD (Some colors)) in
      let* paint := getPaint in
      retD [renderer_drawBitmapMesh bitmap (s32 meshWidth) (s32 meshHeight)
              vertices colors paint]
  | Some DrawPatch =>
      let* bitmap := getBitmap in
      let* '(xDivs, xDivsCount) := getInts in
      let* '(yDivs, yDivsCount) := getInts in
      let* '(colors, numColors) := getUInts in
      let* left := getFloat in
      let* top := getFloat in
      let* right := getFloat in
      let* bottom := getFloat in
      let* paint := getPaint in
      retD [renderer_drawPatch bitmap xDivs yDivs colors xDivsCount
              yDivsCount numColors left top right bottom paint]
  | Some DrawColor =>
      let* color := getInt in
      let* xferMode := getInt in
      retD [renderer_drawColor color xferMode]
  | Some DrawRect =>
      let* f1 := getFloat in
      let* f2 := getFloat in
      let* f3 := getFloat in
      let* f4 := getFloat in
      let* paint := getPaint in
      retD [renderer_drawRect f1 f2 f3 f4 paint]
  | Some DrawRoundRect =>
      let* f1 := getFloat in
      let* f2 := getFloat in
      let* f3 := getFloat in
      let* f4 := getFloat in
      let* f5 := getFloat in
      let* f6 := getFloat in
      let* paint := getPaint in
      retD [renderer_drawRoundRect f1 f2 f3 f4 f5 f6 paint]
  | Some DrawCircle =>
      let* f1 := getFloat in
      let* f2 := getFloat in
      let* f3 := getFloat in
      let* paint := getPaint in
      retD [renderer_drawCircle f1 f2 f3 paint]
  | Some DrawOval =>
      let* f1 := getFloat in
      let* f2 := getFloat in
      let* f3 := getFloat in
      let* f4 := getFloat in
      let* paint := getPaint in
      retD [renderer_drawOval f1 f2 f3 f4 paint]
  | Some DrawArc =>
      let* f1 := getFloat in
      let* f2 := getFloat in
      let* f3 := getFloat in
      let* f4 := getFloat in
      let* f5 := getFloat in
      let* f6 := getFloat in
      let* i1 := getInt in
      let* paint := getPaint in
      retD [renderer_drawArc f1 f2 f3 f4 f5 f6 (bool_decide (i1 = 1)) paint]
  | Some DrawPath =>
      let* path := getPath in
      let* paint := getPaint in
      retD [renderer_drawPath path paint]
  | Some DrawLines =>
      let* '(points, count) := getFloats in
      let* paint := getPaint in
      retD [renderer_drawLines points count paint]
  | Some DrawPoints =>
      let* '(points, count) := getFloats in
      let* paint := getPaint in
      retD [renderer_drawPoints points count paint]
  | Some DrawText =>
      let* '(text, length) := getText in
      let* count := getInt in
      let* x := getFloat in
      let* y := getFloat in
      let* paint := getPaint in
      let* len := getFloat in
      retD [renderer_drawText (Some text) length count x y paint len]
  | Some DrawTextOnPath =>
      let* '(text, length) := getText in
      let* count := getInt in
      let* path := getPath in
      let* hOffset := getFloat in
      let* vOffset := getFloat in
      let* paint := getPaint in
      retD [renderer_drawTextOnPath (Some text) length count path hOffset
              vOffset paint]
  | Some DrawPosText =>
      let* '(text, length) := getText in
      let* count := getInt in
      let* '(positions, positionsCount) := getFloats in
      let* paint := getPaint in
      retD [renderer_drawPosText (Some text) length count positions paint]
  | Some ResetShader =>
      retD [renderer_resetShader]
  | Some SetupShader =>
      let* shader := getShader in
      retD [renderer_setupShader shader]
  | Some ResetColorFilter =>
      retD [renderer_resetColorFilter]
  | Some SetupColorFilter =>
      let* colorFilter := getColorFilter in
      retD [renderer_setupColorFilter colorFilter]
  | Some ResetShadow =>
      retD [renderer_resetShadow]
  | Some SetupShadow =>
      let* radius := getFloat in
      let* dx := getFloat in
      let* dy := getFloat in
      let* color := getInt in
      retD [renderer_setupShadow radius dx dy color]
  | Some ResetPaintFilter =>
      retD [renderer_resetPaintFilter]
  | Some SetupPaintFilter =>
      let* clearBits := getInt in
      let* setBits := getInt in
      retD [renderer_setupPaintFilter clearBits setBits]
  | None =>
      (* default: "Display List error: op not handled", then [break] *)
      retD []
  end.

(** One iteration of [while (!mReader.eof())]: the opcode, the skip
    length of a tagged opcode, then either the jump over the operands
    ([continue]) or the [switch]. *)
Definition replay_iteration (flags level saveCount : Z) : Dec (list Call) :=
  let* op := readInt in
  if decide (Z.land op OP_MAY_BE_SKIPPED_MASK <> 0) then
    let* n := readInt in
    let skip_bytes := s32 (n * 4) in
    if decide (Z.land flags kReplayFlag_ClipChildren <> 0) then
      let* skipped := skip skip_bytes in
      retD []
    else
      let op := Z.land op (Z.lxor 0xFFFFFFFF OP_MAY_BE_SKIPPED_MASK) in
      replay_case level saveCount op
  else replay_case level saveCount op.

Lemma steady_replay_case level saveCount op :
  steady (replay_case level saveCount op).
Proof.
  unfold replay_case. destruct (op_of_code op) as [[]|]; steady_tac.
Qed.

Lemma shrinks_replay_iteration flags level saveCount :
  shrinks (replay_iteration flags level saveCount).
Proof.
  unfold replay_iteration. apply shrinks_bindD; [apply shrinks_readInt|].
  intros op. repeat steady_step; apply steady_replay_case.
Qed.

(** [needsInvalidate |= ...] for the calls whose result [replay] uses. *)
Definition needsInvalidate_of (c : Call) : bool :=
  match c with
  | renderer_callDrawGLFunction _ => renderer_returns c
  | renderer_drawDisplayList _ _ _ _ _ => renderer_returns c
  | _ => false
  end.

(** The loop of [replay], from the cursor [r] to the end of the buffer:
    the calls made, in order, and [needsInvalidate]. *)
Equations? replay_loop (flags level saveCount : Z) (r : SkReader32)
  : option (list Call * bool) by wf (length r) lt :=
  replay_loop flags level saveCount [] := Some ([], false);
  replay_loop flags level saveCount (w :: r0)
    with inspect (replay_iteration flags level saveCount (w :: r0)) := {
    | exist _ None _ => None
    | exist _ (Some (calls, r')) E
        with replay_loop flags level saveCount r' := {
        | None => None
        | Some (calls', needsInvalidate) =>
            Some (calls ++ calls',
                  existsb needsInvalidate_of calls || needsInvalidate) } }.
Proof. apply shrinks_replay_iteration in E. exact E. Qed.

(** [DisplayList::replay(renderer, dirty, flags, level)] on the buffer
    [base] of the list ([mReader.rewind()] puts the cursor at its start);
    [getSaveCount] is [renderer.getSaveCount()] at the call. *)
Definition replay (base : list Z) (getSaveCount : Z) (flags level : Z)
  : option (list Call * bool) :=
  let saveCount := s32 (getSaveCount - 1) in
  replay_loop flags level saveCount base.

(** The outcome of a replay that makes the calls [calls] and then goes
    on as [rest]. *)
Definition prepend (calls : list Call) (rest : option (list Call * bool))
  : option (list Call * bool) :=
  match rest with
  | Some (calls', needsInvalidate) =>
      Some (calls ++ calls',
            existsb needsInvalidate_of calls || needsInvalidate)
  | None => None
  end.

(** The cells [cells], wherever they stand in a buffer, make [replay]
    issue the calls [calls] and leave the cursor behind them. *)
Definition decodes (flags level saveCount : Z) (cells : list Z)
    (calls : list Call) : Prop :=
  forall rest,
    replay_loop flags level saveCount (cells ++ rest)
    = prepend calls (replay_loop flags level saveCount rest).

End Replay.
End Replay.

(** ** [DisplayList::output] *)

(** An argument of a log line, by its conversion in the format string. *)
Inductive LogArg : Type :=
  | ArgInt (v : Z)            (* %d, 0x%x *)
  | ArgFloat (f : float)      (* %.2f *)
  | ArgPtr (p : Z)            (* %p *)
  | ArgText (text : list Z).  (* %s *)

(** A line that [output] sends to the log.  [LogOp op args] is a line
    that starts with the name [OP_NAMES[op]]. *)
Inductive LogLine : Type :=
  | LogSkip (skip : Z)
  | LogOp (op : Z) (args : list LogArg)
  | LogDisplayList (displayList level : Z).

Module Output.
Import Reader.
Local Open Scope dec_scope.

(** The statements of [case ResetShader] in [output]. *)
Definition output_ResetShader (op : Z) : Dec (list LogLine) :=
  retD [LogOp op []].

(** The [switch (op)] of [output]. *)
Definition output_case (level saveCount : Z) (op : Z) : Dec (list LogLine) :=
  match op_of_code op with
  | Some DrawGLFunction =>
      let* functor := getInt in
      retD [LogOp op [ArgPtr functor]]
  | Some Save =>
      let* rendererNum := getInt in
      retD [LogOp op [ArgInt rendererNum]]
  | Some Restore =>
      retD [LogOp op []]
  | Some RestoreToCount =>
      let* n := getInt in
      let restoreCount := s32 (saveCount + n) in
      retD [LogOp op [ArgInt restoreCount]]
  | Some SaveLayer =>
      let* f1 := getFloat in
      let* f2 := getFloat in
      let* f3 := getFloat in
      let* f4 := getFloat in
      let* paint := getPaint in
      let* flags := getInt in
      retD [LogOp op [ArgFloat f1; ArgFloat f2; ArgFloat f3; ArgFloat f4;
                      ArgPtr paint; ArgInt flags]]
  | Some SaveLayerAlpha =>
      let* f1 := getFloat in
      let* f2 := getFloat in
      let* f3 := getFloat in
      let* f4 := getFloat in
      let* alpha := getInt in
      let* flags := getInt in
      retD [LogOp op [ArgFloat f1; ArgFloat f2; ArgFloat f3; ArgFloat f4;
                      ArgInt alpha; ArgInt flags]]
  | Some Translate =>
      let* f1 := getFloat in
      let* f2 := getFloat in
      retD [LogOp op [ArgFloat f1; ArgFloat f2]]
  | Some Rotate =>
      let* rotation := getFloat in
      retD [LogOp op [ArgFloat rotation]]
  | Some Scale =>
      let* sx := getFloat in
      let* sy := getFloat in
      retD [LogOp op [ArgFloat sx; ArgFloat sy]]
  | Some Skew =>
      let* sx := getFloat in
      let* sy := getFloat in
      retD [LogOp op [ArgFloat sx; ArgFloat sy]]
  | Some SetMatrix =>
      let* matrix := getMatrix in
      retD [LogOp op [ArgPtr matrix]]
  | Some ConcatMatrix =>
      let* matrix := getMatrix in
      retD [LogOp op [ArgPtr matrix]]
  | Some ClipRect =>
      let* f1 := getFloat in
      let* f2 := getFloat in
      let* f3 := getFloat in
      let* f4 := getFloat in
      let* regionOp := getInt in
      retD [LogOp op [ArgFloat f1; ArgFloat f2; ArgFloat f3; ArgFloat f4;
                      ArgInt regionOp]]
  | Some DrawDisplayList =>
      let* displayList := getDisplayList in
      let* width := getUInt in
      let* height := getUInt in
      let* flags := getInt in
      retD [LogOp op [ArgPtr displayList; ArgInt width; ArgInt height;
                      ArgInt flags; ArgInt (u32 (level + 1))];
            LogDisplayList displayList (u32 (level + 1))]
  | Some DrawLayer =>
      let* layer := getInt in
      let* x := getFloat in
      let* y := getFloat in
      let* paint := getPaint in
      retD [LogOp op [ArgPtr layer; ArgFloat x; ArgFloat y; ArgPtr paint]]
  | Some DrawBitmap =>
      let* bitmap := getBitmap in
      let* x := getFloat in
      let* y := getFloat in
      let* paint := getPaint in
      retD [LogOp op [ArgPtr bitmap; ArgFloat x; ArgFloat y; ArgPtr paint]]
  | Some DrawBitmapMatrix =>
      let* bitmap := getBitmap in
      let* matrix := getMatrix in
      let* paint := getPaint in
      retD [LogOp op [ArgPtr bitmap; ArgPtr matrix; ArgPtr paint]]
  | Some DrawBitmapRect =>
      let* bitmap := getBitmap in
      let* f1 := getFloat in
      let* f2 := getFloat in
      let* f3 := getFloat in
      let* f4 := getFloat in
      let* f5 := getFloat in
      let* f6 := getFloat in
      let* f7 := getFloat in
      let* f8 := getFloat in
      let* paint := getPaint in
      retD [LogOp op [ArgPtr bitmap; ArgFloat f1; ArgFloat f2; ArgFloat f3;
                      ArgFloat f4; ArgFloat f5; ArgFloat f6; ArgFloat f7;
                      ArgFloat f8; ArgPtr paint]]
  | Some DrawBitmapMesh =>
      let* bitmap := getBitmap in
      let* meshWidth := getInt in
      let* meshHeight := getInt in
      let* '(vertices, verticesCount) := getFloats in
      let* hasColors := getInt in
      let* colors :=
        (if decide (hasColors = 0) then retD None
         else let* '(colors, colorsCount) := getInts in retD (Some colors)) in
      let* paint := getPaint in
      retD [LogOp op []]
  | Some DrawPatch =>
      let* bitmap := getBitmap in
      let* '(xDivs, xDivsCount) := getInts in
      let* '(yDivs, yDivsCount) := getInts in
      let* '(colors, numColors) := getUInts in
      let* left := getFloat in
      let* top := getFloat in
      let* right := getFloat in
      let* bottom := getFloat in
      let* paint := getPaint in
      retD [LogOp op [ArgFloat left; ArgFloat top; ArgFloat right;
                      ArgFloat bottom]]
  | Some DrawColor =>
      let* color := getInt in
      let* xferMode := getInt in
      retD [LogOp op [ArgInt color; ArgInt xferMode]]
  | Some DrawRect =>
      let* f1 := getFloat in
      let* f2 := getFloat in
      let* f3 := getFloat in
      let* f4 := getFloat in
      let* paint := getPaint in
      retD [LogOp op [ArgFloat f1; ArgFloat f2; ArgFloat f3; ArgFloat f4;
                      ArgPtr paint]]
  | Some DrawRoundRect =>
      let* f1 := getFloat in
      let* f2 := getFloat in
      let* f3 := getFloat in
      let* f4 := getFloat in
      let* f5 := getFloat in
      let* f6 := getFloat in
      let* paint := getPaint in
      retD [LogOp op [ArgFloat f1; ArgFloat f2; ArgFloat f3; ArgFloat f4;
                      ArgFloat f5; ArgFloat f6; ArgPtr paint]]
  | Some DrawCircle =>
      let* f1 := getFloat in
      let* f2 := getFloat in
      let* f3 := getFloat in
      let* paint := getPaint in
      retD [LogOp op [ArgFloat f1; ArgFloat f2; ArgFloat f3; ArgPtr paint]]
  | Some DrawOval =>
      let* f1 := getFloat in
      let* f2 := getFloat in
      let* f3 := getFloat in
      let* f4 := getFloat in
      let* paint := getPaint in
      retD [LogOp op [ArgFloat f1; ArgFloat f2; ArgFloat f3; ArgFloat f4;
                      ArgPtr paint]]
  | Some DrawArc =>
      let* f1 := getFloat in
      let* f2 := getFloat in
      let* f3 := getFloat in
      let* f4 := getFloat in
      let* f5 := getFloat in
      let* f6 := getFloat in
      let* i1 := getInt in
      let* paint := getPaint in
      retD [LogOp op [ArgFloat f1; ArgFloat f2; ArgFloat f3; ArgFloat f4;
                      ArgFloat f5; ArgFloat f6; ArgInt i1; ArgPtr paint]]
  | Some DrawPath =>
      let* path := getPath in
      let* paint := getPaint in
      retD [LogOp op [ArgPtr path; ArgPtr paint]]
  | Some DrawLines =>
      let* '(points, count) := getFloats in
      let* paint := getPaint in
      retD [LogOp op []]
  | Some DrawPoints =>
      let* '(points, count) := getFloats in
      let* paint := getPaint in
      retD [LogOp op []]
  | Some DrawText =>
      let* '(text, length) := getText in
      let* count := getInt in
      let* x := getFloat in
      let* y := getFloat in
      let* paint := getPaint in
      let* len := getFloat in
      retD [LogOp op [ArgText text; ArgInt length; ArgInt count; ArgFloat x;
                      ArgFloat y; ArgPtr paint; ArgFloat len]]
  | Some DrawTextOnPath =>
      let* '(text, length) := getText in
      let* count := getInt in
      let* path := getPath in
      let* hOffset := getFloat in
      let* vOffset := getFloat in
      let* paint := getPaint in
      retD [LogOp op [ArgText text; ArgInt length; ArgInt count;
                      ArgPtr paint]]
  | Some DrawPosText =>
      let* '(text, length) := getText in
      let* count := getInt in
      let* '(positions, positionsCount) := getFloats in
      let* paint := getPaint in
      let line :=
        LogOp op [ArgText text; ArgInt length; ArgInt count; ArgPtr paint] in
      (* the case has no [break]: control runs on into [case ResetShader] *)
      let* lines := output_ResetShader op in
      retD (line :: lines)
  | Some ResetShader =>
      output_ResetShader op
  | Some SetupShader =>
      let* shader := getShader in
      retD [LogOp op [ArgPtr shader]]
  | Some ResetColorFilter =>
      retD [LogOp op []]
  | Some SetupColorFilter =>
      let* colorFilter := getColorFilter in
      retD [LogOp op [ArgPtr colorFilter]]
  | Some ResetShadow =>
      retD [LogOp op []]
  | Some SetupShadow =>
      let* radius := getFloat in
      let* dx := getFloat in
      let* dy := getFloat in
      let* color := getInt in
      retD [LogOp op [ArgFloat radius; ArgFloat dx; ArgFloat dy;
                      ArgInt color]]
  | Some ResetPaintFilter =>
      retD [LogOp op []]
  | Some SetupPaintFilter =>
      let* clearBits := getInt in
      let* setBits := getInt in
      retD [LogOp op [ArgInt clearBits; ArgInt setBits]]
  | None =>
      (* default: the log line reads [OP_NAMES[op]] outside the table of
         names, which is undefined *)
      fun _ => None
  end.

(** One iteration of the loop of [output]. *)
Definition output_iteration (level saveCount : Z) : Dec (list LogLine) :=
  let* op := readInt in
  if decide (Z.land op OP_MAY_BE_SKIPPED_MASK <> 0) then
    let* skip := readInt in
    let op := Z.land op (Z.lxor 0xFFFFFFFF OP_MAY_BE_SKIPPED_MASK) in
    let* lines := output_case level saveCount op in
    retD (LogSkip skip :: lines)
  else output_case level saveCount op.

Lemma steady_output_case level saveCount op :
  steady (output_case level saveCount op).
Proof.
  unfold output_case, output_ResetShader.
  destruct (op_of_code op) as [[]|]; [steady_tac..|].
  intros r a r' H. discriminate H.
Qed.

Lemma shrinks_output_iteration level saveCount :
  shrinks (output_iteration level saveCount).
Proof.
  unfold output_iteration.
  apply shrinks_bindD; [apply shrinks_readInt|].
  intros op. repeat steady_step; apply steady_output_case.
Qed.

(** The loop of [output]: the lines logged from the cursor [r] on. *)
Equations? output_loop (level saveCount : Z) (r : SkReader32)
  : option (list LogLine) by wf (length r) lt :=
  output_loop level saveCount [] := Some [];
  output_loop level saveCount (w :: r0)
    with inspect (output_iteration level saveCount (w :: r0)) := {
    | exist _ None _ => None
    | exist _ (Some (lines, r')) E
        with output_loop level saveCount r' := {
        | None => None
        | Some lines' => Some (lines ++ lines') } }.
Proof. apply shrinks_output_iteration in E. exact E. Qed.

(** [DisplayList::output(renderer, level)] on the buffer [base]. *)
Definition output (base : list Z) (getSaveCount : Z) (level : Z)
  : option (list LogLine) :=
  let saveCount := s32 (getSaveCount - 1) in
  output_loop level saveCount base.

End Output.

(** ** The objects around the recorder *)

(** [SkPaint], as far as the recorder reads and writes it. *)
Inductive Style : Type := kFill_Style | kStroke_Style | kStrokeAndFill_Style.
Inductive Align : Type := kLeft_Align | kCenter_Align | kRight_Align.

Record SkPaint : Type := {
  getStyle : Style;
  getTextAlign : Align;
  isAntiAlias : bool;
}.

Definition setAntiAlias (aa : bool) (p : SkPaint) : SkPaint :=
  {| getStyle := getStyle p; getTextAlign := getTextAlign p;
     isAntiAlias := aa |}.

(** A rectangle [(left, top, right, bottom)]. *)
Definition Rect : Type := (float * float * float * float)%type.

(** What the recorder asks of Skia and of the shape code of the library:
    text measurement, font metrics, the size of a bitmap, the image of a
    rectangle under a matrix, and [computePathBounds], which yields
    [(left, top, offset, width, height)]. *)
Class Skia : Type := {
  measureText : SkPaint -> list Z -> Z -> float;
  getFontMetrics : SkPaint -> float * float;   (* fTop, fBottom *)
  bitmap_width : Z -> Z;
  bitmap_height : Z -> Z;
  mapRect : Z -> Rect -> Rect;
  computePathBounds : Z -> SkPaint -> float * float * float * Z * Z;
}.

(** The base class [OpenGLRenderer] of the recorder, over the type [S] of
    its state (snapshot stack, transform, clip): the methods that the
    recorder forwards to after recording, [getSaveCount], [quickReject],
    and the statements of [setViewport] and [prepareDirty] on that
    state. *)
Class OpenGLRenderer (S : Type) : Type := {
  gl_getSaveCount : S -> Z;
  gl_save : Z -> S -> Z * S;
  gl_restore : S -> S;
  gl_restoreToCount : Z -> S -> S;
  gl_translate : float -> float -> S -> S;
  gl_rotate : float -> S -> S;
  gl_scale : float -> float -> S -> S;
  gl_skew : float -> float -> S -> S;
  gl_setMatrix : Z -> S -> S;
  gl_concatMatrix : Z -> S -> S;
  gl_clipRect : float -> float -> float -> float -> Z -> S -> bool * S;
  gl_quickReject : float -> float -> float -> float -> S -> bool;
  gl_setViewport : Z -> Z -> S -> S;
  gl_prepareDirty : S -> S;
}.

(** Modelled from the spec: the class [ResourceCache] is missing.  Per the
    spec, retaining a resource increments a process-wide count (from zero
    if the resource is unseen), releasing it decrements the count, and the
    resource is destroyed when the count reaches zero and only then; so a
    request to destroy a resource ([destructor]) takes effect at once only
    if no reference to it is outstanding. *)
Record ResourceCache : Type := {
  refCounts : gmap Z nat;
  destroyed : list Z;
}.

Module ResourceCache.

Definition refcount (resource : Z) (c : ResourceCache) : nat :=
  default 0%nat (refCounts c !! resource).

Definition incrementRefcount (resource : Z) (c : ResourceCache)
  : ResourceCache :=
  {| refCounts := <[resource := S (refcount resource c)]> (refCounts c);
     destroyed := destroyed c |}.

Definition decrementRefcount (resource : Z) (c : ResourceCache)
  : ResourceCache :=
  match refCounts c !! resource with
  | None => c
  | Some n =>
      if decide (n <= 1)%nat then
        {| refCounts := delete resource (refCounts c);
           destroyed := resource :: destroyed c |}
      else
        {| refCounts := <[resource := Nat.pred n]> (refCounts c);
           destroyed := destroyed c |}
  end.

Definition destructor (resource : Z) (c : ResourceCache) : ResourceCache :=
  match refCounts c !! resource with
  | None => {| refCounts := refCounts c;
               destroyed := resource :: destroyed c |}
  | Some _ => c
  end.

End ResourceCache.

(** [Caches::getInstance()]: the resource cache and the path cache (the
    paths that have a cached texture). *)
Record Caches : Type := {
  resourceCache : ResourceCache;
  pathCache : list Z;
}.

(** The C++ heap: the paints that callers hand in, and the objects that
    have been [delete]d. *)
Record Heap : Type := {
  paintAt : Z -> SkPaint;
  deleted : list Z;
}.

(** The resource tables of a recorder. *)
Record Resources : Type := {
  mBitmapResources : list Z;
  mFilterResources : list Z;
  mShaders : list Z;
  mShaderMap : gmap Z Z;
  mPaints : list Z;
  mPaintMap : gmap Z Z;
  mPaths : list Z;
  mPathMap : gmap Z Z;
  mMatrices : list Z;
}.

(** [DisplayListRenderer]: the writer, the pending translation and
    restore, the tables, and the state [gl] of the base class. *)
Record DisplayListRenderer (S : Type) : Type := {
  mWriter : list Z;
  mTranslateX : float;
  mTranslateY : float;
  mHasTranslate : bool;
  mHasDrawOps : bool;
  mRestoreSaveCount : Z;
  resources : Resources;
  gl : S;
}.
Arguments mWriter {S}. Arguments mTranslateX {S}. Arguments mTranslateY {S}.
Arguments mHasTranslate {S}. Arguments mHasDrawOps {S}.
Arguments mRestoreSaveCount {S}. Arguments resources {S}. Arguments gl {S}.

(** [DisplayList]: the buffer of its reader and the tables it owns. *)
Record DisplayList : Type := {
  mReader : list Z;
  mSize : Z;
  mIsRenderable : bool;
  dl_mBitmapResources : list Z;
  dl_mFilterResources : list Z;
  dl_mShaders : list Z;
  dl_mPaints : list Z;
  dl_mPaths : list Z;
  dl_mMatrices : list Z;
}.

(** [writer.size()], in bytes *)
Definition writer_size (w : list Z) : Z := 4 * Z.of_nat (length w).

(** ** [DisplayList]: taking and dropping resources *)

Module DisplayListImpl.
Import ResourceCache.

(** The state outside the list that its methods work on. *)
Definition Process : Type := (Caches * Heap)%type.

Definition delete_all (objects : list Z) (h : Heap) : Heap :=
  {| paintAt := paintAt h; deleted := deleted h ++ objects |}.

(** [DisplayList::clearResources()] *)
Definition clearResources (dl : DisplayList) (p : Process)
  : DisplayList * Process :=
  let '(caches, heap) := p in
  (* sk_free((void* ) mReader.base()) *)
  let rc := resourceCache caches in
  let rc := fold_left (fun c r => decrementRefcount r c)
              (dl_mBitmapResources dl) rc in
  let rc := fold_left (fun c r => decrementRefcount r c)
              (dl_mFilterResources dl) rc in
  let rc := fold_left (fun c r => destructor r (decrementRefcount r c))
              (dl_mShaders dl) rc in
  let heap := delete_all (dl_mPaints dl) heap in
  let pc := fold_left (fun pc path => filter (fun q => q <> path) pc)
              (dl_mPaths dl) (pathCache caches) in
  let heap := delete_all (dl_mPaths dl) heap in
  let heap := delete_all (dl_mMatrices dl) heap in
  ({| mReader := []; mSize := mSize dl; mIsRenderable := mIsRenderable dl;
      dl_mBitmapResources := []; dl_mFilterResources := [];
      dl_mShaders := []; dl_mPaints := []; dl_mPaths := [];
      dl_mMatrices := [] |},
   ({| resourceCache := rc; pathCache := pc |}, heap)).

(** [DisplayList::init()] *)
Definition init (dl : DisplayList) : DisplayList :=
  {| mReader := mReader dl; mSize := 0; mIsRenderable := true;
     dl_mBitmapResources := dl_mBitmapResources dl;
     dl_mFilterResources := dl_mFilterResources dl;
     dl_mShaders := dl_mShaders dl; dl_mPaints := dl_mPaints dl;
     dl_mPaths := dl_mPaths dl; dl_mMatrices := dl_mMatrices dl |}.

(** [DisplayList::initFromDisplayListRenderer(recorder, reusing)] *)
Definition initFromDisplayListRenderer {S} (recorder : DisplayListRenderer S)
    (reusing : bool) (dl : DisplayList) (p : Process)
  : DisplayList * Process :=
  let writer := mWriter recorder in
  let dl := init dl in
  if decide (writer_size writer = 0) then (dl, p)
  else
    let '(dl, p) :=
      if reusing then clearResources dl p else (dl, p) in
    let '(caches, heap) := p in
    let res := resources recorder in
    let rc := resourceCache caches in
    let rc := fold_left (fun c r => incrementRefcount r c)
                (mBitmapResources res) rc in
    let rc := fold_left (fun c r => incrementRefcount r c)
                (mFilterResources res) rc in
    let rc := fold_left (fun c r => incrementRefcount r c)
                (mShaders res) rc in
    ({| mReader := writer; mSize := writer_size writer;
        mIsRenderable := mIsRenderable dl;
        dl_mBitmapResources := dl_mBitmapResources dl ++ mBitmapResources res;
        dl_mFilterResources := dl_mFilterResources dl ++ mFilterResources res;
        dl_mShaders := dl_mShaders dl ++ mShaders res;
        dl_mPaints := dl_mPaints dl ++ mPaints res;
        dl_mPaths := dl_mPaths dl ++ mPaths res;
        dl_mMatrices := dl_mMatrices dl ++ mMatrices res |},
     ({| resourceCache := rc; pathCache := pathCache caches |}, heap)).

(** The object before its constructor has run: an empty reader and empty
    tables. *)
Definition blank : DisplayList :=
  {| mReader := []; mSize := 0; mIsRenderable := true;
     dl_mBitmapResources := []; dl_mFilterResources := [];
     dl_mShaders := []; dl_mPaints := []; dl_mPaths := [];
     dl_mMatrices := [] |}.

(** [DisplayList::DisplayList(recorder)] *)
Definition new {S} (recorder : DisplayListRenderer S) (p : Process)
  : DisplayList * Process :=
  initFromDisplayListRenderer recorder false blank p.

(** [DisplayList::~DisplayList()]: the state left behind *)
Definition destroy (dl : DisplayList) (p : Process) : Process :=
  snd (clearResources dl p).

Definition setRenderable (renderable : bool) (dl : DisplayList)
  : DisplayList :=
  {| mReader := mReader dl; mSize := mSize dl; mIsRenderable := renderable;
     dl_mBitmapResources := dl_mBitmapResources dl;
     dl_mFilterResources := dl_mFilterResources dl;
     dl_mShaders := dl_mShaders dl; dl_mPaints := dl_mPaints dl;
     dl_mPaths := dl_mPaths dl; dl_mMatrices := dl_mMatrices dl |}.

(** *** Counting references *)

(** How often [R] is entered in a table. *)
Definition entries (R : Z) (table : list Z) : nat :=
  count_occ Z.eq_dec table R.

(** The references that a table set holds on [R], over the three shared
    kinds: bitmaps, color filters and shaders. *)
Definition shared_entries (R : Z) (bitmaps filters shaders : list Z) : nat :=
  (entries R bitmaps + entries R filters + entries R shaders)%nat.

Definition recorder_entries {S} (R : Z) (r : DisplayListRenderer S) : nat :=
  shared_entries R (mBitmapResources (resources r))
    (mFilterResources (resources r)) (mShaders (resources r)).

Definition list_entries (R : Z) (dl : DisplayList) : nat :=
  shared_entries R (dl_mBitmapResources dl) (dl_mFilterResources dl)
    (dl_mShaders dl).

Definition refcount_in (R : Z) (p : Process) : nat :=
  refcount R (resourceCache (fst p)).

Definition destroyed_in (p : Process) : list Z :=
  destroyed (resourceCache (fst p)).

End DisplayListImpl.

(** ** The recorder: [DisplayListRenderer] *)

(** What a method of the recorder works on: the recorder itself, the
    caches and the heap. *)
Record World (S : Type) : Type := {
  recorder : DisplayListRenderer S;
  caches : Caches;
  heap : Heap;
}.
Arguments recorder {S}. Arguments caches {S}. Arguments heap {S}.

Definition Rec (S A : Type) : Type := World S -> A * World S.

Definition retR {S A} (a : A) : Rec S A := fun w => (a, w).

Definition bindR {S A B} (m : Rec S A) (k : A -> Rec S B) : Rec S B :=
  fun w => let '(a, w') := m w in k a w'.

Declare Scope rec_scope.
Delimit Scope rec_scope with rec.
Notation "'let*' x := m 'in' k" := (bindR m (fun x => k))
  (at level 10, x name, m at level 100, k at level 200,
   only parsing) : rec_scope.
Notation "'let*' ' p := m 'in' k" :=
  (bindR m (fun x => match x with p => k end))
  (at level 10, p pattern, m at level 100, k at level 200,
   only parsing) : rec_scope.
Notation "m1 ;; m2" := (bindR m1 (fun _ => m2))
  (at level 100, m2 at level 200, right associativity,
   only parsing) : rec_scope.

Module Recorder.
Local Open Scope rec_scope.

Section Recorder.
Context {S : Type} `{GL : OpenGLRenderer S} `{SK : Skia}.

(** *** Access to the fields *)

Definition get {A} (f : DisplayListRenderer S -> A) : Rec S A :=
  fun w => (f (recorder w), w).

Definition modify (f : DisplayListRenderer S -> DisplayListRenderer S)
  : Rec S unit :=
  fun w => (tt, {| recorder := f (recorder w); caches := caches w;
                   heap := heap w |}).

Definition set_mWriter (v : list Z) (r : DisplayListRenderer S) :=
  {| mWriter := v; mTranslateX := mTranslateX r;
     mTranslateY := mTranslateY r; mHasTranslate := mHasTranslate r;
     mHasDrawOps := mHasDrawOps r;
     mRestoreSaveCount := mRestoreSaveCount r; resources := resources r;
     gl := gl r |}.

Definition set_translate (x y : float) (has : bool)
    (r : DisplayListRenderer S) :=
  {| mWriter := mWriter r; mTranslateX := x; mTranslateY := y;
     mHasTranslate := has; mHasDrawOps := mHasDrawOps r;
     mRestoreSaveCount := mRestoreSaveCount r; resources := resources r;
     gl := gl r |}.

Definition set_mHasDrawOps (v : bool) (r : DisplayListRenderer S) :=
  {| mWriter := mWriter r; mTranslateX := mTranslateX r;
     mTranslateY := mTranslateY r; mHasTranslate := mHasTranslate r;
     mHasDrawOps := v; mRestoreSaveCount := mRestoreSaveCount r;
     resources := resources r; gl := gl r |}.

Definition set_mRestoreSaveCount (v : Z) (r : DisplayListRenderer S) :=
  {| mWriter := mWriter r; mTranslateX := mTranslateX r;
     mTranslateY := mTranslateY r; mHasTranslate := mHasTranslate r;
     mHasDrawOps := mHasDrawOps r; mRestoreSaveCount := v;
     resources := resources r; gl := gl r |}.

Definition set_resources (v : Resources) (r : DisplayListRenderer S) :=
  {| mWriter := mWriter r; mTranslateX := mTranslateX r;
     mTranslateY := mTranslateY r; mHasTranslate := mHasTranslate r;
     mHasDrawOps := mHasDrawOps r;
     mRestoreSaveCount := mRestoreSaveCount r; resources := v;
     gl := gl r |}.

Definition set_gl (v : S) (r : DisplayListRenderer S) :=
  {| mWriter := mWriter r; mTranslateX := mTranslateX r;
     mTranslateY := mTranslateY r; mHasTranslate := mHasTranslate r;
     mHasDrawOps := mHasDrawOps r;
     mRestoreSaveCount := mRestoreSaveCount r; resources := resources r;
     gl := v |}.

(** A call of a method of the base class that returns nothing. *)
Definition base (f : S -> S) : Rec S unit :=
  modify (fun r => set_gl (f (gl r)) r).

(** A call of a method of the base class that returns a value. *)
Definition base_ret {A} (f : S -> A * S) : Rec S A :=
  fun w => let '(a, s) := f (gl (recorder w)) in
           (a, {| recorder := set_gl s (recorder w); caches := caches w;
                  heap := heap w |}).

Definition modify_cache (f : ResourceCache -> ResourceCache) : Rec S unit :=
  fun w => (tt, {| recorder := recorder w;
                   caches := {| resourceCache := f (resourceCache (caches w));
                                pathCache := pathCache (caches w) |};
                   heap := heap w |}).

Definition paint_of (paint : Z) : Rec S SkPaint :=
  fun w => (paintAt (heap w) paint, w).

(** [paint->setAntiAlias(true)]: the caller's paint is changed in place. *)
Definition paint_setAntiAlias (paint : Z) (aa : bool) : Rec S unit :=
  fun w => (tt, {| recorder := recorder w; caches := caches w;
                   heap := {| paintAt := fun q =>
                                if decide (q = paint)
                                then setAntiAlias aa (paintAt (heap w) q)
                                else paintAt (heap w) q;
                              deleted := deleted (heap w) |} |}).

(** *** Writing to the stream: [SkWriter32] *)

Definition writeInt (v : Z) : Rec S unit :=
  modify (fun r => set_mWriter (mWriter r ++ [u32 v]) r).

Definition writeScalar (f : float) : Rec S unit :=
  modify (fun r => set_mWriter (mWriter r ++ [f]) r).

(** Four bytes to a cell, lowest address first; the last cell is padded
    with zero bytes. *)
Fixpoint pack_bytes (bytes : list Z) : list Z :=
  match bytes with
  | b0 :: b1 :: b2 :: b3 :: rest =>
      (b0 + 256 * b1 + 65536 * b2 + 16777216 * b3) :: pack_bytes rest
  | [b0; b1; b2] => [b0 + 256 * b1 + 65536 * b2]
  | [b0; b1] => [b0 + 256 * b1]
  | [b0] => [b0]
  | [] => []
  end.

(** [mWriter.writePad(text, size)] *)
Definition writePad (text : list Z) (size : Z) : Rec S unit :=
  modify (fun r =>
    set_mWriter (mWriter r ++ pack_bytes (take (Z.to_nat size) text)) r).

(** *** The inline helpers of the header

    Modelled from the spec: the helpers that [DisplayListRenderer.h]
    defines inline ([insertRestoreToCount], [insertTranlate], [addOp],
    [addSkip] and the [add...] writers of operands) are missing.  Per the
    spec: the recorder flushes what is pending before it emits an opcode;
    a pending translation is the sum of the translate calls since the
    last flush and is emitted as one [Translate]; an opcode that may be
    culled carries the skippable tag and is followed by a slot that is
    patched, once the operands are written, with their exact length; a
    scalar operand is one cell, an array is prefixed by its count, text
    by its length in bytes; a resource is written as an integer handle
    and entered in the table of its kind, once per object, and a shared
    resource is retained in the cache when it is first seen. *)

Definition insertRestoreToCount : Rec S unit :=
  let* n := get mRestoreSaveCount in
  if decide (0 <= n) then
    writeInt (op_code RestoreToCount) ;;
    writeInt n ;;
    modify (set_mRestoreSaveCount (-1))
  else retR tt.

Definition addFloat (value : float) : Rec S unit := writeScalar value.

Definition addPoint (x y : float) : Rec S unit :=
  writeScalar x ;; writeScalar y.

Definition insertTranlate : Rec S unit :=
  let* has := get mHasTranslate in
  if has then
    let* x := get mTranslateX in
    let* y := get mTranslateY in
    writeInt (op_code Translate) ;;
    addPoint x y ;;
    modify (set_translate fzero fzero false)
  else retR tt.

(** [drawOp >= DisplayList::DrawDisplayList] *)
Definition is_draw_op (drawOp : Op) : bool :=
  bool_decide (op_code DrawDisplayList <= op_code drawOp).

Definition addOp (drawOp : Op) : Rec S unit :=
  insertRestoreToCount ;;
  insertTranlate ;;
  writeInt (op_code drawOp) ;;
  modify (fun r => set_mHasDrawOps (mHasDrawOps r || is_draw_op drawOp) r).

(** [addOp(drawOp, reject)]: the location of the slot for the skip
    length, as its index in the stream, or [None] for the null pointer. *)
Definition addOp_reject (drawOp : Op) (reject : bool)
  : Rec S (option nat) :=
  insertRestoreToCount ;;
  insertTranlate ;;
  modify (fun r => set_mHasDrawOps (mHasDrawOps r || is_draw_op drawOp) r) ;;
  if reject then
    writeInt (Z.lor OP_MAY_BE_SKIPPED_MASK (op_code drawOp)) ;;
    let* location := get (fun r => length (mWriter r)) in
    writeInt 0 ;;
    retR (Some location)
  else
    writeInt (op_code drawOp) ;;
    retR None.

(** [addSkip(location)]: the slot receives the length of what was written
    after it.  The length is counted in cells of four bytes: [replay]
    multiplies the value it reads by 4 to get the bytes it jumps over. *)
Definition addSkip (location : option nat) : Rec S unit :=
  match location with
  | Some l =>
      modify (fun r =>
        let cells := Z.of_nat (length (mWriter r)) - Z.of_nat l - 1 in
        set_mWriter (<[l := u32 cells]> (mWriter r)) r)
  | None => retR tt
  end.

Definition addInt (value : Z) : Rec S unit := writeInt value.

Definition addSize (w h : Z) : Rec S unit := writeInt w ;; writeInt h.

Definition addBounds (left top right bottom : float) : Rec S unit :=
  writeScalar left ;; writeScalar top ;;
  writeScalar right ;; writeScalar bottom.

Definition writeCells (cells : list Z) : Rec S unit :=
  modify (fun r => set_mWriter (mWriter r ++ cells) r).

Definition addInts (values : list Z) (count : Z) : Rec S unit :=
  addInt count ;;
  writeCells (map u32 (take (Z.to_nat count) values)).

Definition addUInts (values : list Z) (count : Z) : Rec S unit :=
  addInt count ;;
  writeCells (take (Z.to_nat count) values).

Definition addFloats (values : list float) (count : Z) : Rec S unit :=
  addInt count ;;
  writeCells (take (Z.to_nat count) values).

Definition addText (text : list Z) (byteLength : Z) : Rec S unit :=
  addInt byteLength ;;
  writePad text byteLength.

Definition modify_resources (f : Resources -> Resources) : Rec S unit :=
  modify (fun r => set_resources (f (resources r)) r).

Definition addDisplayList (displayList : Z) : Rec S unit :=
  addInt displayList.

Definition addMatrix (matrix : Z) : Rec S unit :=
  addInt matrix ;;
  let* known := get (fun r => mMatrices (resources r)) in
  if decide (matrix ∈ known) then retR tt
  else modify_resources (fun t =>
    {| mBitmapResources := mBitmapResources t;
       mFilterResources := mFilterResources t;
       mShaders := mShaders t; mShaderMap := mShaderMap t;
       mPaints := mPaints t; mPaintMap := mPaintMap t;
       mPaths := mPaths t; mPathMap := mPathMap t;
       mMatrices := mMatrices t ++ [matrix] |}).

(** A path and a paint are stored once per object; the stored snapshot
    is identified with the object it is taken from. *)
Definition addPath (path : Z) : Rec S unit :=
  if decide (path = 0) then addInt 0
  else
    let* map := get (fun r => mPathMap (resources r)) in
    match map !! path with
    | Some _ => retR tt
    | None =>
        modify_resources (fun t =>
          {| mBitmapResources := mBitmapResources t;
             mFilterResources := mFilterResources t;
             mShaders := mShaders t; mShaderMap := mShaderMap t;
             mPaints := mPaints t; mPaintMap := mPaintMap t;
             mPaths := mPaths t ++ [path];
             mPathMap := <[path := path]> (mPathMap t);
             mMatrices := mMatrices t |})
    end ;;
    addInt path.

Definition addPaint (paint : Z) : Rec S unit :=
  if decide (paint = 0) then addInt 0
  else
    let* map := get (fun r => mPaintMap (resources r)) in
    match map !! paint with
    | Some _ => retR tt
    | None =>
        modify_resources (fun t =>
          {| mBitmapResources := mBitmapResources t;
             mFilterResources := mFilterResources t;
             mShaders := mShaders t; mShaderMap := mShaderMap t;
             mPaints := mPaints t ++ [paint];
             mPaintMap := <[paint := paint]> (mPaintMap t);
             mPaths := mPaths t; mPathMap := mPathMap t;
             mMatrices := mMatrices t |})
    end ;;
    addInt paint.

Definition addBitmap (bitmap : Z) : Rec S unit :=
  addInt bitmap ;;
  let* known := get (fun r => mBitmapResources (resources r)) in
  if decide (bitmap ∈ known) then retR tt
  else
    modify_resources (fun t =>
      {| mBitmapResources := mBitmapResources t ++ [bitmap];
         mFilterResources := mFilterResources t;
         mShaders := mShaders t; mShaderMap := mShaderMap t;
         mPaints := mPaints t; mPaintMap := mPaintMap t;
         mPaths := mPaths t; mPathMap := mPathMap t;
         mMatrices := mMatrices t |}) ;;
    modify_cache (ResourceCache.incrementRefcount bitmap).

Definition addShader (shader : Z) : Rec S unit :=
  if decide (shader = 0) then addInt 0
  else
    let* map := get (fun r => mShaderMap (resources r)) in
    match map !! shader with
    | Some _ => retR tt
    | None =>
        modify_resources (fun t =>
          {| mBitmapResources := mBitmapResources t;
             mFilterResources := mFilterResources t;
             mShaders := mShaders t ++ [shader];
             mShaderMap := <[shader := shader]> (mShaderMap t);
             mPaints := mPaints t; mPaintMap := mPaintMap t;
             mPaths := mPaths t; mPathMap := mPathMap t;
             mMatrices := mMatrices t |}) ;;
        modify_cache (ResourceCache.incrementRefcount shader)
    end ;;
    addInt shader.

Definition addColorFilter (colorFilter : Z) : Rec S unit :=
  addInt colorFilter ;;
  let* known := get (fun r => mFilterResources (resources r)) in
  if decide (colorFilter ∈ known) then retR tt
  else
    modify_resources (fun t =>
      {| mBitmapResources := mBitmapResources t;
         mFilterResources := mFilterResources t ++ [colorFilter];
         mShaders := mShaders t; mShaderMap := mShaderMap t;
         mPaints := mPaints t; mPaintMap := mPaintMap t;
         mPaths := mPaths t; mPathMap := mPathMap t;
         mMatrices := mMatrices t |}) ;;
    modify_cache (ResourceCache.incrementRefcount colorFilter).

(** *** The methods of [DisplayListRenderer.cpp] *)

Definition query {A} (f : S -> A) : Rec S A := get (fun r => f (gl r)).

Definition quickReject (left top right bottom : float) : Rec S bool :=
  query (gl_quickReject left top right bottom).

Definition getSaveCount : Rec S Z := query gl_getSaveCount.

(** The constructor; [mRestoreSaveCount] is left to [prepareDirty], it
    holds [restoreSaveCount] until then. *)
Definition new (gl0 : S) (restoreSaveCount : Z) : DisplayListRenderer S :=
  {| mWriter := []; mTranslateX := fzero; mTranslateY := fzero;
     mHasTranslate := false; mHasDrawOps := false;
     mRestoreSaveCount := restoreSaveCount;
     resources := {| mBitmapResources := []; mFilterResources := [];
                     mShaders := []; mShaderMap := ∅; mPaints := [];
                     mPaintMap := ∅; mPaths := []; mPathMap := ∅;
                     mMatrices := [] |};
     gl := gl0 |}.

Definition reset : Rec S unit :=
  modify (fun r => set_mWriter [] r) ;;
  let* t := get resources in
  modify_cache (fun c =>
    fold_left (fun c r => ResourceCache.decrementRefcount r c)
      (mBitmapResources t) c) ;;
  modify_cache (fun c =>
    fold_left (fun c r => ResourceCache.decrementRefcount r c)
      (mFilterResources t) c) ;;
  modify_cache (fun c =>
    fold_left (fun c r => ResourceCache.decrementRefcount r c)
      (mShaders t) c) ;;
  modify_resources (fun _ =>
    {| mBitmapResources := []; mFilterResources := []; mShaders := [];
       mShaderMap := ∅; mPaints := []; mPaintMap := ∅; mPaths := [];
       mPathMap := ∅; mMatrices := [] |}) ;;
  modify (set_mHasDrawOps false).

(** [getDisplayList(displayList)]; [None] is the null pointer. *)
Definition getDisplayList (displayList : option DisplayList)
  : Rec S DisplayList :=
  fun w =>
    let '(dl, (c, h)) :=
      match displayList with
      | None => DisplayListImpl.new (recorder w) (caches w, heap w)
      | Some dl =>
          DisplayListImpl.initFromDisplayListRenderer (recorder w) true dl
            (caches w, heap w)
      end in
    (DisplayListImpl.setRenderable (mHasDrawOps (recorder w)) dl,
     {| recorder := recorder w; caches := c; heap := h |}).

Definition setViewport (width height : Z) : Rec S unit :=
  base (gl_setViewport width height).

Definition prepareDirty (left top right bottom : float) (opaque : bool)
  : Rec S unit :=
  base gl_prepareDirty ;;
  modify (set_mRestoreSaveCount (-1)).

Definition finish : Rec S unit :=
  insertRestoreToCount ;;
  insertTranlate.

Definition interrupt : Rec S unit := retR tt.

Definition resume : Rec S unit := retR tt.

Definition callDrawGLFunction (functor : Z) : Rec S bool :=
  addOp DrawGLFunction ;;
  addInt functor ;;
  retR false.

Definition save (flags : Z) : Rec S Z :=
  addOp Save ;;
  addInt flags ;;
  base_ret (gl_save flags).

Definition restoreToCount (saveCount : Z) : Rec S unit :=
  modify (set_mRestoreSaveCount saveCount) ;;
  insertTranlate ;;
  base (gl_restoreToCount saveCount).

Definition restore : Rec S unit :=
  let* n := get mRestoreSaveCount in
  if decide (n < 0) then
    let* count := getSaveCount in
    restoreToCount (s32 (count - 1))
  else
    modify (set_mRestoreSaveCount (s32 (n - 1))) ;;
    insertTranlate ;;
    base gl_restore.

Definition saveLayer (left top right bottom : float) (p : Z) (flags : Z)
  : Rec S Z :=
  addOp SaveLayer ;;
  addBounds left top right bottom ;;
  addPaint p ;;
  addInt flags ;;
  base_ret (gl_save flags).

Definition saveLayerAlpha (left top right bottom : float) (alpha : Z)
    (flags : Z) : Rec S Z :=
  addOp SaveLayerAlpha ;;
  addBounds left top right bottom ;;
  addInt alpha ;;
  addInt flags ;;
  base_ret (gl_save flags).

Definition translate (dx dy : float) : Rec S unit :=
  modify (fun r =>
    set_translate (fadd (mTranslateX r) dx) (fadd (mTranslateY r) dy)
      true r) ;;
  insertRestoreToCount ;;
  base (gl_translate dx dy).

Definition rotate (degrees : float) : Rec S unit :=
  addOp Rotate ;;
  addFloat degrees ;;
  base (gl_rotate degrees).

Definition scale (sx sy : float) : Rec S unit :=
  addOp Scale ;;
  addPoint sx sy ;;
  base (gl_scale sx sy).

Definition skew (sx sy : float) : Rec S unit :=
  addOp Skew ;;
  addPoint sx sy ;;
  base (gl_skew sx sy).

Definition setMatrix (matrix : Z) : Rec S unit :=
  addOp SetMatrix ;;
  addMatrix matrix ;;
  base (gl_setMatrix matrix).

Definition concatMatrix (matrix : Z) : Rec S unit :=
  addOp ConcatMatrix ;;
  addMatrix matrix ;;
  base (gl_concatMatrix matrix).

Definition clipRect (left top right bottom : float) (op : Z) : Rec S bool :=
  addOp ClipRect ;;
  addBounds left top right bottom ;;
  addInt op ;;
  base_ret (gl_clipRect left top right bottom op).

Definition drawDisplayList (displayList : Z) (width height : Z)
    (flags : Z) (level : Z) : Rec S bool :=
  let* reject :=
    quickReject fzero fzero (float_of_int width) (float_of_int height) in
  let* location := addOp_reject DrawDisplayList reject in
  addDisplayList displayList ;;
  addSize width height ;;
  addInt flags ;;
  addSkip location ;;
  retR false.

Definition drawLayer (layer : Z) (x y : float) (paint : Z) : Rec S unit :=
  addOp DrawLayer ;;
  addInt layer ;;
  addPoint x y ;;
  addPaint paint.

Definition drawBitmap (bitmap : Z) (left top : float) (paint : Z)
  : Rec S unit :=
  let* reject :=
    quickReject left top
      (fadd left (float_of_int (bitmap_width bitmap)))
      (fadd top (float_of_int (bitmap_height bitmap))) in
  let* location := addOp_reject DrawBitmap reject in
  addBitmap bitmap ;;
  addPoint left top ;;
  addPaint paint ;;
  addSkip location.

Definition drawBitmapMatrix (bitmap : Z) (matrix : Z) (paint : Z)
  : Rec S unit :=
  let r : Rect :=
    (fzero, fzero, float_of_int (bitmap_width bitmap),
     float_of_int (bitmap_height bitmap)) in
  let '(r_left, r_top, r_right, r_bottom) := mapRect matrix r in
  let* reject := quickReject r_left r_top r_right r_bottom in
  let* location := addOp_reject DrawBitmapMatrix reject in
  addBitmap bitmap ;;
  addMatrix matrix ;;
  addPaint paint ;;
  addSkip location.

Definition drawBitmapRect (bitmap : Z)
    (srcLeft srcTop srcRight srcBottom : float)
    (dstLeft dstTop dstRight dstBottom : float) (paint : Z) : Rec S unit :=
  let* reject := quickReject dstLeft dstTop dstRight dstBottom in
  let* location := addOp_reject DrawBitmapRect reject in
  addBitmap bitmap ;;
  addBounds srcLeft srcTop srcRight srcBottom ;;
  addBounds dstLeft dstTop dstRight dstBottom ;;
  addPaint paint ;;
  addSkip location.

Definition drawBitmapMesh (bitmap : Z) (meshWidth meshHeight : Z)
    (vertices : list float) (colors : option (list Z)) (paint : Z)
  : Rec S unit :=
  addOp DrawBitmapMesh ;;
  addBitmap bitmap ;;
  addInt meshWidth ;;
  addInt meshHeight ;;
  addFloats vertices (s32 ((meshWidth + 1) * (meshHeight + 1) * 2)) ;;
  match colors with
  | Some colors =>
      addInt 1 ;;
      addInts colors (s32 ((meshWidth + 1) * (meshHeight + 1)))
  | None => addInt 0
  end ;;
  addPaint paint.

Definition drawPatch (bitmap : Z) (xDivs yDivs : list Z) (colors : list Z)
    (width height : Z) (numColors : Z) (left top right bottom : float)
    (paint : Z) : Rec S unit :=
  let* reject := quickReject left top right bottom in
  let* location := addOp_reject DrawPatch reject in
  addBitmap bitmap ;;
  addInts xDivs width ;;
  addInts yDivs height ;;
  addUInts colors numColors ;;
  addBounds left top right bottom ;;
  addPaint paint ;;
  addSkip location.

Definition drawColor (color : Z) (mode : Z) : Rec S unit :=
  addOp DrawColor ;;
  addInt color ;;
  addInt mode.

Definition drawRect (left top right bottom : float) (paint : Z)
  : Rec S unit :=
  let* p := paint_of paint in
  let* reject :=
    match getStyle p with
    | kFill_Style => quickReject left top right bottom
    | _ => retR false
    end in
  let* location := addOp_reject DrawRect reject in
  addBounds left top right bottom ;;
  addPaint paint ;;
  addSkip location.

Definition drawRoundRect (left top right bottom : float) (rx ry : float)
    (paint : Z) : Rec S unit :=
  let* p := paint_of paint in
  let* reject :=
    match getStyle p with
    | kFill_Style => quickReject left top right bottom
    | _ => retR false
    end in
  let* location := addOp_reject DrawRoundRect reject in
  addBounds left top right bottom ;;
  addPoint rx ry ;;
  addPaint paint ;;
  addSkip location.

Definition drawCircle (x y radius : float) (paint : Z) : Rec S unit :=
  addOp DrawCircle ;;
  addPoint x y ;;
  addFloat radius ;;
  addPaint paint.

Definition drawOval (left top right bottom : float) (paint : Z)
  : Rec S unit :=
  addOp DrawOval ;;
  addBounds left top right bottom ;;
  addPaint paint.

Definition drawArc (left top right bottom : float)
    (startAngle sweepAngle : float) (useCenter : bool) (paint : Z)
  : Rec S unit :=
  addOp DrawArc ;;
  addBounds left top right bottom ;;
  addPoint startAngle sweepAngle ;;
  addInt (if useCenter then 1 else 0) ;;
  addPaint paint.

Definition drawPath (path : Z) (paint : Z) : Rec S unit :=
  let* p := paint_of paint in
  let '(left_, top_, offset, width, height) := computePathBounds path p in
  let* reject :=
    quickReject (fsub left_ offset) (fsub top_ offset)
      (float_of_int width) (float_of_int height) in
  let* location := addOp_reject DrawPath reject in
  addPath path ;;
  addPaint paint ;;
  addSkip location.

Definition drawLines (points : list float) (count : Z) (paint : Z)
  : Rec S unit :=
  addOp DrawLines ;;
  addFloats points count ;;
  addPaint paint.

Definition drawPoints (points : list float) (count : Z) (paint : Z)
  : Rec S unit :=
  addOp DrawPoints ;;
  addFloats points count ;;
  addPaint paint.

(** [text] is [None] for the null pointer. *)
Definition drawText (text : option (list Z)) (bytesCount : Z) (count : Z)
    (x y : float) (paint : Z) (length : float) : Rec S unit :=
  match text with
  | None => retR tt
  | Some text =>
      if decide (count <= 0) then retR tt
      else
        paint_setAntiAlias paint true ;;
        let* p := paint_of paint in
        let length :=
          if fltb length fzero then measureText p text bytesCount
          else length in
        let* reject :=
          match getTextAlign p with
          | kLeft_Align =>
              let '(fTop, fBottom) := getFontMetrics p in
              quickReject x (fadd y fTop) (fadd x length) (fadd y fBottom)
          | _ => retR false
          end in
        let* location := addOp_reject DrawText reject in
        addText text bytesCount ;;
        addInt count ;;
        addPoint x y ;;
        addPaint paint ;;
        addFloat length ;;
        addSkip location
  end.

Definition drawTextOnPath (text : option (list Z)) (bytesCount : Z)
    (count : Z) (path : Z) (hOffset vOffset : float) (paint : Z)
  : Rec S unit :=
  match text with
  | None => retR tt
  | Some text =>
      if decide (count <= 0) then retR tt
      else
        addOp DrawTextOnPath ;;
        addText text bytesCount ;;
        addInt count ;;
        addPath path ;;
        addFloat hOffset ;;
        addFloat vOffset ;;
        paint_setAntiAlias paint true ;;
        addPaint paint
  end.

Definition drawPosText (text : option (list Z)) (bytesCount : Z)
    (count : Z) (positions : list float) (paint : Z) : Rec S unit :=
  match text with
  | None => retR tt
  | Some text =>
      if decide (count <= 0) then retR tt
      else
        addOp DrawPosText ;;
        addText text bytesCount ;;
        addInt count ;;
        addFloats positions (s32 (count * 2)) ;;
        paint_setAntiAlias paint true ;;
        addPaint paint
  end.

Definition resetShader : Rec S unit := addOp ResetShader.

Definition setupShader (shader : Z) : Rec S unit :=
  addOp SetupShader ;;
  addShader shader.

Definition resetColorFilter : Rec S unit := addOp ResetColorFilter.

Definition setupColorFilter (filter : Z) : Rec S unit :=
  addOp SetupColorFilter ;;
  addColorFilter filter.

Definition resetShadow : Rec S unit := addOp ResetShadow.

Definition setupShadow (radius dx dy : float) (color : Z) : Rec S unit :=
  addOp SetupShadow ;;
  addFloat radius ;;
  addPoint dx dy ;;
  addInt color.

Definition resetPaintFilter : Rec S unit := addOp ResetPaintFilter.

Definition setupPaintFilter (clearBits setBits : Z) : Rec S unit :=
  addOp SetupPaintFilter ;;
  addInt clearBits ;;
  addInt setBits.

End Recorder.
End Recorder.

(** ** Recording a sequence of operations *)

Module Session.
Import Recorder.
Local Open Scope rec_scope.

Section Session.
Context {S : Type} `{GL : OpenGLRenderer S} `{SK : Skia}.

Definition discard {A} (m : Rec S A) : Rec S unit := m ;; retR tt.

(** The method of the recorder that a call of the renderer interface
    lands in. *)
Definition record (c : Call) : Rec S unit :=
  match c with
  | renderer_callDrawGLFunction functor =>
      discard (callDrawGLFunction functor)
  | renderer_save flags => discard (save flags)
  | renderer_restore => restore
  | renderer_restoreToCount saveCount => restoreToCount saveCount
  | renderer_saveLayer f1 f2 f3 f4 paint flags =>
      discard (saveLayer f1 f2 f3 f4 paint flags)
  | renderer_saveLayerAlpha f1 f2 f3 f4 alpha flags =>
      discard (saveLayerAlpha f1 f2 f3 f4 alpha flags)
  | renderer_translate f1 f2 => translate f1 f2
  | renderer_rotate rotation => rotate rotation
  | renderer_scale sx sy => scale sx sy
  | renderer_skew sx sy => skew sx sy
  | renderer_setMatrix matrix => setMatrix matrix
  | renderer_concatMatrix matrix => concatMatrix matrix
  | renderer_clipRect f1 f2 f3 f4 regionOp =>
      discard (clipRect f1 f2 f3 f4 regionOp)
  | renderer_drawDisplayList displayList width height flags level =>
      discard (drawDisplayList displayList width height flags level)
  | renderer_drawLayer layer x y paint => drawLayer layer x y paint
  | renderer_drawBitmap bitmap x y paint => drawBitmap bitmap x y paint
  | renderer_drawBitmapMatrix bitmap matrix paint =>
      drawBitmapMatrix bitmap matrix paint
  | renderer_drawBitmapRect bitmap f1 f2 f3 f4 f5 f6 f7 f8 paint =>
      drawBitmapRect bitmap f1 f2 f3 f4 f5 f6 f7 f8 paint
  | renderer_drawBitmapMesh bitmap meshWidth meshHeight vertices colors
      paint =>
      drawBitmapMesh bitmap meshWidth meshHeight vertices colors paint
  | renderer_drawPatch bitmap xDivs yDivs colors xDivsCount yDivsCount
      numColors l t r b paint =>
      drawPatch bitmap xDivs yDivs colors xDivsCount yDivsCount numColors
        l t r b paint
  | renderer_drawColor color xferMode => drawColor color xferMode
  | renderer_drawRect f1 f2 f3 f4 paint => drawRect f1 f2 f3 f4 paint
  | renderer_drawRoundRect f1 f2 f3 f4 f5 f6 paint =>
      drawRoundRect f1 f2 f3 f4 f5 f6 paint
  | renderer_drawCircle f1 f2 f3 paint => drawCircle f1 f2 f3 paint
  | renderer_drawOval f1 f2 f3 f4 paint => drawOval f1 f2 f3 f4 paint
  | renderer_drawArc f1 f2 f3 f4 f5 f6 useCenter paint =>
      drawArc f1 f2 f3 f4 f5 f6 useCenter paint
  | renderer_drawPath path paint => drawPath path paint
  | renderer_drawLines points count paint => drawLines points count paint
  | renderer_drawPoints points count paint => drawPoints points count paint
  | renderer_drawText text bytesCount count x y paint length =>
      drawText text bytesCount count x y paint length
  | renderer_drawTextOnPath text bytesCount count path hOffset vOffset
      paint =>
      drawTextOnPath text bytesCount count path hOffset vOffset paint
  | renderer_drawPosText text bytesCount count positions paint =>
      drawPosText text bytesCount count positions paint
  | renderer_resetShader => resetShader
  | renderer_setupShader shader => setupShader shader
  | renderer_resetColorFilter => resetColorFilter
  | renderer_setupColorFilter colorFilter => setupColorFilter colorFilter
  | renderer_resetShadow => resetShadow
  | renderer_setupShadow radius dx dy color =>
      setupShadow radius dx dy color
  | renderer_resetPaintFilter => resetPaintFilter
  | renderer_setupPaintFilter clearBits setBits =>
      setupPaintFilter clearBits setBits
  end.

(** The world after the operations [cs], in order. *)
Definition record_all (cs : list Call) (w : World S) : World S :=
  fold_left (fun w c => snd (record c w)) cs w.

(** The encoded stream of a world. *)
Definition stream (w : World S) : list Z := mWriter (recorder w).

End Session.
End Session.

(** ** A renderer state for worked examples

    Modelled from the spec: [OpenGLRenderer.cpp] is missing.  Per the
    spec the recorder mirrors a save/restore stack to know the current
    transform and clip, and the quick-reject test holds when the bound of
    an operation, under the current transform, lies entirely outside the
    clip.  This state tracks translations exactly; under any other
    transform it rejects nothing, and it clips by intersection only. *)

Record Snapshot : Type := {
  tx : float;
  ty : float;
  translation_only : bool;
  clip : Rect;
}.

Record SimpleGL : Type := {
  mSaveCount : Z;
  mSnapshot : Snapshot;
  previous : list Snapshot;
  mWidth : Z;
  mHeight : Z;
}.

Module SimpleGL.

Definition with_snapshot (f : Snapshot -> Snapshot) (s : SimpleGL)
  : SimpleGL :=
  {| mSaveCount := mSaveCount s; mSnapshot := f (mSnapshot s);
     previous := previous s; mWidth := mWidth s; mHeight := mHeight s |}.

Definition save (flags : Z) (s : SimpleGL) : Z * SimpleGL :=
  (mSaveCount s,
   {| mSaveCount := mSaveCount s + 1; mSnapshot := mSnapshot s;
      previous := mSnapshot s :: previous s;
      mWidth := mWidth s; mHeight := mHeight s |}).

Definition restoreSnapshot (s : SimpleGL) : SimpleGL :=
  match previous s with
  | [] => s
  | p :: ps =>
      {| mSaveCount := mSaveCount s - 1; mSnapshot := p; previous := ps;
         mWidth := mWidth s; mHeight := mHeight s |}
  end.

Definition restore (s : SimpleGL) : SimpleGL :=
  if decide (1 < mSaveCount s) then restoreSnapshot s else s.

Definition restoreToCount (saveCount : Z) (s : SimpleGL) : SimpleGL :=
  let saveCount := Z.max saveCount 1 in
  Nat.iter (Z.to_nat (mSaveCount s - saveCount)) restoreSnapshot s.

Definition translate (dx dy : float) : SimpleGL -> SimpleGL :=
  with_snapshot (fun n =>
    {| tx := fadd (tx n) dx; ty := fadd (ty n) dy;
       translation_only := translation_only n; clip := clip n |}).

Definition other_transform : SimpleGL -> SimpleGL :=
  with_snapshot (fun n =>
    {| tx := tx n; ty := ty n; translation_only := false;
       clip := clip n |}).

(** The rectangle in device space. *)
Definition device (n : Snapshot) (r : Rect) : Rect :=
  let '(l, t, r, b) := r in
  (fadd l (tx n), fadd t (ty n), fadd r (tx n), fadd b (ty n)).

Definition fmax (a b : float) : float := if fltb a b then b else a.
Definition fmin (a b : float) : float := if fltb b a then b else a.

Definition intersect (a b : Rect) : Rect :=
  let '(al, at_, ar, ab) := a in
  let '(bl, bt, br, bb) := b in
  (fmax al bl, fmax at_ bt, fmin ar br, fmin ab bb).

Definition is_empty (r : Rect) : bool :=
  let '(l, t, r, b) := r in fleb r l || fleb b t.

(** [r] lies entirely outside [c]. *)
Definition outside (c r : Rect) : bool :=
  let '(cl, ct, cr, cb) := c in
  let '(l, t, r, b) := r in
  fleb r cl || fleb cr l || fleb b ct || fleb cb t.

Definition clipRect (left top right bottom : float) (op : Z)
    (s : SimpleGL) : bool * SimpleGL :=
  let n := mSnapshot s in
  if translation_only n && bool_decide (op = 1) then
    let c := intersect (clip n) (device n (left, top, right, bottom)) in
    (negb (is_empty c),
     with_snapshot (fun n =>
       {| tx := tx n; ty := ty n;
          translation_only := translation_only n; clip := c |}) s)
  else (negb (is_empty (clip n)), s).

Definition quickReject (left top right bottom : float) (s : SimpleGL)
  : bool :=
  let n := mSnapshot s in
  translation_only n
  && outside (clip n) (device n (left, top, right, bottom)).

Definition setViewport (width height : Z) (s : SimpleGL) : SimpleGL :=
  {| mSaveCount := mSaveCount s; mSnapshot := mSnapshot s;
     previous := previous s; mWidth := width; mHeight := height |}.

Definition prepareDirty (s : SimpleGL) : SimpleGL :=
  {| mSaveCount := 1;
     mSnapshot := {| tx := fzero; ty := fzero; translation_only := true;
                     clip := (fzero, fzero, float_of_int (mWidth s),
                              float_of_int (mHeight s)) |};
     previous := []; mWidth := mWidth s; mHeight := mHeight s |}.

Definition initial : SimpleGL :=
  {| mSaveCount := 1;
     mSnapshot := {| tx := fzero; ty := fzero; translation_only := true;
                     clip := (fzero, fzero, fzero, fzero) |};
     previous := []; mWidth := 0; mHeight := 0 |}.

End SimpleGL.

#[export] Instance SimpleGL_renderer : OpenGLRenderer SimpleGL := {
  gl_getSaveCount := mSaveCount;
  gl_save := SimpleGL.save;
  gl_restore := SimpleGL.restore;
  gl_restoreToCount := SimpleGL.restoreToCount;
  gl_translate := SimpleGL.translate;
  gl_rotate := fun _ => SimpleGL.other_transform;
  gl_scale := fun _ _ => SimpleGL.other_transform;
  gl_skew := fun _ _ => SimpleGL.other_transform;
  gl_setMatrix := fun _ => SimpleGL.other_transform;
  gl_concatMatrix := fun _ => SimpleGL.other_transform;
  gl_clipRect := SimpleGL.clipRect;
  gl_quickReject := SimpleGL.quickReject;
  gl_setViewport := SimpleGL.setViewport;
  gl_prepareDirty := SimpleGL.prepareDirty;
}.

(** Paints, bitmaps and paths for worked examples: every paint is a
    left-aligned fill paint, text has no extent, a bitmap is [w] by [h],
    matrices are the identity, and every path has the bounds [bounds]. *)
Definition example_paint : SkPaint :=
  {| getStyle := kFill_Style; getTextAlign := kLeft_Align;
     isAntiAlias := false |}.

Definition example_skia (w h : Z) (bounds : float * float * float * Z * Z)
  : Skia :=
  {| measureText := fun _ _ _ => fzero;
     getFontMetrics := fun _ => (fzero, fzero);
     bitmap_width := fun _ => w;
     bitmap_height := fun _ => h;
     mapRect := fun _ r => r;
     computePathBounds := fun _ _ => bounds |}.

Definition example_caches : Caches :=
  {| resourceCache := {| refCounts := ∅; destroyed := [] |};
     pathCache := [] |}.

Definition example_heap : Heap :=
  {| paintAt := fun _ => example_paint; deleted := [] |}.

(** A fresh recorder on a [width] by [height] viewport, after
    [setViewport] and [prepareDirty]. *)
Definition example_world `{SK : Skia} (width height : Z) : World SimpleGL :=
  let w0 :=
    {| recorder := Recorder.new SimpleGL.initial 0;
       caches := example_caches; heap := example_heap |} in
  let w1 := snd (Recorder.setViewport width height w0) in
  snd (Recorder.prepareDirty fzero fzero fzero fzero false w1).

(** ** The layout of the stream, stated once

    The cells that an operation occupies in the stream, and the calls that
    a replay of them makes.  These definitions state the format; the
    theorems below relate them to the recorder and to [replay]. *)

Module Layout.
Import Recorder Session.

Definition int32 (v : Z) : Prop := -2 ^ 31 <= v < 2 ^ 31.
Definition uint32 (v : Z) : Prop := 0 <= v < 2 ^ 32.
Definition byte (v : Z) : Prop := 0 <= v < 256.

(** The opcode of the method that a call names. *)
Definition op_of_call (c : Call) : Op :=
  match c with
  | renderer_callDrawGLFunction _ => DrawGLFunction
  | renderer_save _ => Save
  | renderer_restore => Restore
  | renderer_restoreToCount _ => RestoreToCount
  | renderer_saveLayer _ _ _ _ _ _ => SaveLayer
  | renderer_saveLayerAlpha _ _ _ _ _ _ => SaveLayerAlpha
  | renderer_translate _ _ => Translate
  | renderer_rotate _ => Rotate
  | renderer_scale _ _ => Scale
  | renderer_skew _ _ => Skew
  | renderer_setMatrix _ => SetMatrix
  | renderer_concatMatrix _ => ConcatMatrix
  | renderer_clipRect _ _ _ _ _ => ClipRect
  | renderer_drawDisplayList _ _ _ _ _ => DrawDisplayList
  | renderer_drawLayer _ _ _ _ => DrawLayer
  | renderer_drawBitmap _ _ _ _ => DrawBitmap
  | renderer_drawBitmapMatrix _ _ _ => DrawBitmapMatrix
  | renderer_drawBitmapRect _ _ _ _ _ _ _ _ _ _ => DrawBitmapRect
  | renderer_drawBitmapMesh _ _ _ _ _ _ => DrawBitmapMesh
  | renderer_drawPatch _ _ _ _ _ _ _ _ _ _ _ _ => DrawPatch
  | renderer_drawColor _ _ => DrawColor
  | renderer_drawRect _ _ _ _ _ => DrawRect
  | renderer_drawRoundRect _ _ _ _ _ _ _ => DrawRoundRect
  | renderer_drawCircle _ _ _ _ => DrawCircle
  | renderer_drawOval _ _ _ _ _ => DrawOval
  | renderer_drawArc _ _ _ _ _ _ _ _ => DrawArc
  | renderer_drawPath _ _ => DrawPath
  | renderer_drawLines _ _ _ => DrawLines
  | renderer_drawPoints _ _ _ => DrawPoints
  | renderer_drawText _ _ _ _ _ _ _ => DrawText
  | renderer_drawTextOnPath _ _ _ _ _ _ _ => DrawTextOnPath
  | renderer_drawPosText _ _ _ _ _ => DrawPosText
  | renderer_resetShader => ResetShader
  | renderer_setupShader _ => SetupShader
  | renderer_resetColorFilter => ResetColorFilter
  | renderer_setupColorFilter _ => SetupColorFilter
  | renderer_resetShadow => ResetShadow
  | renderer_setupShadow _ _ _ _ => SetupShadow
  | renderer_resetPaintFilter => ResetPaintFilter
  | renderer_setupPaintFilter _ _ => SetupPaintFilter
  end.

Definition text_cells (text : option (list Z)) (bytesCount : Z) : list Z :=
  u32 bytesCount :: pack_bytes (take (Z.to_nat bytesCount) (default [] text)).

Definition array_cells (values : list Z) (count : Z) : list Z :=
  u32 count :: take (Z.to_nat count) values.

(** The operand cells of an operation, in stream order. *)
Definition operands (c : Call) : list Z :=
  match c with
  | renderer_callDrawGLFunction functor => [u32 functor]
  | renderer_save flags => [u32 flags]
  | renderer_restore => []
  | renderer_restoreToCount saveCount => [u32 saveCount]
  | renderer_saveLayer f1 f2 f3 f4 paint flags =>
      [f1; f2; f3; f4; u32 paint; u32 flags]
  | renderer_saveLayerAlpha f1 f2 f3 f4 alpha flags =>
      [f1; f2; f3; f4; u32 alpha; u32 flags]
  | renderer_translate f1 f2 => [f1; f2]
  | renderer_rotate rotation => [rotation]
  | renderer_scale sx sy => [sx; sy]
  | renderer_skew sx sy => [sx; sy]
  | renderer_setMatrix matrix => [u32 matrix]
  | renderer_concatMatrix matrix => [u32 matrix]
  | renderer_clipRect f1 f2 f3 f4 regionOp => [f1; f2; f3; f4; u32 regionOp]
  | renderer_drawDisplayList displayList width height flags _ =>
      [u32 displayList; u32 width; u32 height; u32 flags]
  | renderer_drawLayer layer x y paint => [u32 layer; x; y; u32 paint]
  | renderer_drawBitmap bitmap x y paint => [u32 bitmap; x; y; u32 paint]
  | renderer_drawBitmapMatrix bitmap matrix paint =>
      [u32 bitmap; u32 matrix; u32 paint]
  | renderer_drawBitmapRect bitmap f1 f2 f3 f4 f5 f6 f7 f8 paint =>
      [u32 bitmap; f1; f2; f3; f4; f5; f6; f7; f8; u32 paint]
  | renderer_drawBitmapMesh bitmap meshWidth meshHeight vertices colors
      paint =>
      [u32 bitmap; u32 meshWidth; u32 meshHeight]
      ++ array_cells vertices (s32 ((meshWidth + 1) * (meshHeight + 1) * 2))
      ++ match colors with
         | Some colors =>
             u32 1 :: array_cells (map u32 colors)
                        (s32 ((meshWidth + 1) * (meshHeight + 1)))
         | None => [u32 0]
         end
      ++ [u32 paint]
  | renderer_drawPatch bitmap xDivs yDivs colors xDivsCount yDivsCount
      numColors l t r b paint =>
      [u32 bitmap]
      ++ array_cells (map u32 xDivs) xDivsCount
      ++ array_cells (map u32 yDivs) yDivsCount
      ++ array_cells colors numColors
      ++ [l; t; r; b; u32 paint]
  | renderer_drawColor color xferMode => [u32 color; u32 xferMode]
  | renderer_drawRect f1 f2 f3 f4 paint => [f1; f2; f3; f4; u32 paint]
  | renderer_drawRoundRect f1 f2 f3 f4 f5 f6 paint =>
      [f1; f2; f3; f4; f5; f6; u32 paint]
  | renderer_drawCircle f1 f2 f3 paint => [f1; f2; f3; u32 paint]
  | renderer_drawOval f1 f2 f3 f4 paint => [f1; f2; f3; f4; u32 paint]
  | renderer_drawArc f1 f2 f3 f4 f5 f6 useCenter paint =>
      [f1; f2; f3; f4; f5; f6; u32 (if useCenter then 1 else 0); u32 paint]
  | renderer_drawPath path paint => [u32 path; u32 paint]
  | renderer_drawLines points count paint =>
      array_cells points count ++ [u32 paint]
  | renderer_drawPoints points count paint =>
      array_cells points count ++ [u32 paint]
  | renderer_drawText text bytesCount count x y paint length =>
      text_cells text bytesCount ++ [u32 count; x; y; u32 paint; length]
  | renderer_drawTextOnPath text bytesCount count path hOffset vOffset
      paint =>
      text_cells text bytesCount
      ++ [u32 count; u32 path; hOffset; vOffset; u32 paint]
  | renderer_drawPosText text bytesCount count positions paint =>
      text_cells text bytesCount
      ++ u32 count :: array_cells positions (s32 (count * 2))
      ++ [u32 paint]
  | renderer_resetShader => []
  | renderer_setupShader shader => [u32 shader]
  | renderer_resetColorFilter => []
  | renderer_setupColorFilter colorFilter => [u32 colorFilter]
  | renderer_resetShadow => []
  | renderer_setupShadow radius dx dy color => [radius; dx; dy; u32 color]
  | renderer_resetPaintFilter => []
  | renderer_setupPaintFilter clearBits setBits =>
      [u32 clearBits; u32 setBits]
  end.

(** An encoded operation: the opcode, then the operands; when the
    operation is tagged skippable, the opcode carries the tag and the
    operands are preceded by the number of cells they occupy. *)
Definition encode_op (tagged : bool) (op : Op) (operand_cells : list Z)
  : list Z :=
  if tagged then
    u32 (Z.lor OP_MAY_BE_SKIPPED_MASK (op_code op))
    :: u32 (Z.of_nat (length operand_cells)) :: operand_cells
  else u32 (op_code op) :: operand_cells.

Definition encode (tagged : bool) (c : Call) : list Z :=
  encode_op tagged (op_of_call c) (operands c).

Section Layout.
Context {S : Type} `{GL : OpenGLRenderer S} `{SK : Skia}.

(** The cells that flushing the pending restore and the pending
    translation of [w] writes. *)
Definition flushR_cells (w : World S) : list Z :=
  let n := mRestoreSaveCount (recorder w) in
  if decide (0 <= n) then [u32 (op_code RestoreToCount); u32 n] else [].

Definition flushT_cells (w : World S) : list Z :=
  if mHasTranslate (recorder w) then
    [u32 (op_code Translate); mTranslateX (recorder w);
     mTranslateY (recorder w)]
  else [].

(** The operation as the recorder writes it, if it writes one: a
    translation or a restore stays pending, a text operation without
    text or with no glyph is dropped, and [drawText] measures the text
    when it is handed a negative length. *)
Definition recorded (c : Call) (w : World S) : option Call :=
  match c with
  | renderer_translate _ _ | renderer_restore
  | renderer_restoreToCount _ => None
  | renderer_drawText None _ _ _ _ _ _
  | renderer_drawTextOnPath None _ _ _ _ _ _
  | renderer_drawPosText None _ _ _ _ => None
  | renderer_drawText (Some text) bytesCount count x y paint length =>
      if decide (count <= 0) then None
      else
        let p := setAntiAlias true (paintAt (heap w) paint) in
        let length :=
          if fltb length fzero then measureText p text bytesCount
          else length in
        Some (renderer_drawText (Some text) bytesCount count x y paint
                length)
  | renderer_drawTextOnPath (Some _) _ count _ _ _ _
  | renderer_drawPosText (Some _) _ count _ _ =>
      if decide (count <= 0) then None else Some c
  | _ => Some c
  end.

(** Whether the recorder tags the operation skippable: the outcome of
    its quick-reject test in [w]. *)
Definition tagged (c : Call) (w : World S) : bool :=
  let s := gl (recorder w) in
  match c with
  | renderer_drawDisplayList _ width height _ _ =>
      gl_quickReject fzero fzero (float_of_int width) (float_of_int height) s
  | renderer_drawBitmap bitmap left_ top_ _ =>
      gl_quickReject left_ top_
        (fadd left_ (float_of_int (bitmap_width bitmap)))
        (fadd top_ (float_of_int (bitmap_height bitmap))) s
  | renderer_drawBitmapMatrix bitmap matrix _ =>
      let '(l, t, r, b) :=
        mapRect matrix
          (fzero, fzero, float_of_int (bitmap_width bitmap),
           float_of_int (bitmap_height bitmap)) in
      gl_quickReject l t r b s
  | renderer_drawBitmapRect _ _ _ _ _ dstLeft dstTop dstRight dstBottom _ =>
      gl_quickReject dstLeft dstTop dstRight dstBottom s
  | renderer_drawPatch _ _ _ _ _ _ _ l t r b _ =>
      gl_quickReject l t r b s
  | renderer_drawRect l t r b paint
  | renderer_drawRoundRect l t r b _ _ paint =>
      match getStyle (paintAt (heap w) paint) with
      | kFill_Style => gl_quickReject l t r b s
      | _ => false
      end
  | renderer_drawPath path paint =>
      let '(left_, top_, offset, width, height) :=
        computePathBounds path (paintAt (heap w) paint) in
      gl_quickReject (fsub left_ offset) (fsub top_ offset)
        (float_of_int width) (float_of_int height) s
  | renderer_drawText (Some text) bytesCount _ x y paint length =>
      let p := setAntiAlias true (paintAt (heap w) paint) in
      let length :=
        if fltb length fzero then measureText p text bytesCount
        else length in
      match getTextAlign p with
      | kLeft_Align =>
          let '(fTop, fBottom) := getFontMetrics p in
          gl_quickReject x (fadd y fTop) (fadd x length) (fadd y fBottom) s
      | _ => false
      end
  | _ => false
  end.

(** The cells that recording [c] in [w] appends to the stream. *)
Definition cells_of (c : Call) (w : World S) : list Z :=
  match c with
  | renderer_translate _ _ => flushR_cells w
  | renderer_restore | renderer_restoreToCount _ => flushT_cells w
  | _ =>
      match recorded c w with
      | Some c' =>
          flushR_cells w ++ flushT_cells w ++ encode (tagged c w) c'
      | None => []
      end
  end.

(** The call that [replay] makes for an encoded operation, at nesting
    depth [level] and with [saveCount] the save count at its start less
    one. *)
Definition replayed (saveCount level : Z) (c : Call) : Call :=
  match c with
  | renderer_restoreToCount n =>
      renderer_restoreToCount (s32 (saveCount + n))
  | renderer_drawDisplayList displayList width height flags _ =>
      renderer_drawDisplayList displayList width height flags
        (u32 (level + 1))
  | _ => c
  end.

End Layout.


(** [0.0f + x1 + ... + xk], as the recorder accumulates it. *)
Definition sum_floats (xs : list float) : float := fold_left fadd xs fzero.

(** The operands of a call lie in their C types, and an array has the
    length that is passed along with it. *)
Definition array_ok (values : list Z) (count : Z) : Prop :=
  0 <= count /\ Z.of_nat (length values) = count.

Definition text_ok (text : option (list Z)) (bytesCount : Z) : Prop :=
  match text with
  | Some text =>
      int32 bytesCount /\ Z.of_nat (length text) = bytesCount
      /\ Forall byte text
  | None => True
  end.

(** A text operation comes with its text. *)
Definition has_text (c : Call) : Prop :=
  match c with
  | renderer_drawText None _ _ _ _ _ _
  | renderer_drawTextOnPath None _ _ _ _ _ _
  | renderer_drawPosText None _ _ _ _ => False
  | _ => True
  end.

Definition wf_call (c : Call) : Prop :=
  match c with
  | renderer_callDrawGLFunction functor => int32 functor
  | renderer_save flags => int32 flags
  | renderer_restore => True
  | renderer_restoreToCount saveCount => int32 saveCount
  | renderer_saveLayer _ _ _ _ paint flags => int32 paint /\ int32 flags
  | renderer_saveLayerAlpha _ _ _ _ alpha flags => int32 alpha /\ int32 flags
  | renderer_translate _ _ | renderer_rotate _ | renderer_scale _ _
  | renderer_skew _ _ => True
  | renderer_setMatrix matrix | renderer_concatMatrix matrix => int32 matrix
  | renderer_clipRect _ _ _ _ regionOp => int32 regionOp
  | renderer_drawDisplayList displayList width height flags _ =>
      int32 displayList /\ uint32 width /\ uint32 height /\ int32 flags
  | renderer_drawLayer layer _ _ paint => int32 layer /\ int32 paint
  | renderer_drawBitmap bitmap _ _ paint => int32 bitmap /\ int32 paint
  | renderer_drawBitmapMatrix bitmap matrix paint =>
      int32 bitmap /\ int32 matrix /\ int32 paint
  | renderer_drawBitmapRect bitmap _ _ _ _ _ _ _ _ paint =>
      int32 bitmap /\ int32 paint
  | renderer_drawBitmapMesh bitmap meshWidth meshHeight vertices colors
      paint =>
      int32 bitmap /\ int32 meshWidth /\ int32 meshHeight /\ int32 paint
      /\ array_ok vertices (s32 ((meshWidth + 1) * (meshHeight + 1) * 2))
      /\ match colors with
         | Some colors =>
             array_ok colors (s32 ((meshWidth + 1) * (meshHeight + 1)))
             /\ Forall int32 colors
         | None => True
         end
  | renderer_drawPatch bitmap xDivs yDivs colors xDivsCount yDivsCount
      numColors _ _ _ _ paint =>
      int32 bitmap /\ int32 paint
      /\ array_ok xDivs xDivsCount /\ Forall int32 xDivs
      /\ array_ok yDivs yDivsCount /\ Forall int32 yDivs
      /\ uint32 xDivsCount /\ uint32 yDivsCount
      /\ array_ok colors numColors /\ numColors < 128
  | renderer_drawColor color xferMode => int32 color /\ int32 xferMode
  | renderer_drawRect _ _ _ _ paint | renderer_drawRoundRect _ _ _ _ _ _ paint
  | renderer_drawCircle _ _ _ paint | renderer_drawOval _ _ _ _ paint
  | renderer_drawArc _ _ _ _ _ _ _ paint => int32 paint
  | renderer_drawPath path paint => int32 path /\ int32 paint
  | renderer_drawLines points count paint
  | renderer_drawPoints points count paint =>
      int32 count /\ array_ok points count /\ int32 paint
  | renderer_drawText text bytesCount count _ _ paint _ =>
      text_ok text bytesCount /\ int32 count /\ int32 paint
  | renderer_drawTextOnPath text bytesCount count path _ _ paint =>
      text_ok text bytesCount /\ int32 count /\ int32 path /\ int32 paint
  | renderer_drawPosText text bytesCount count positions paint =>
      text_ok text bytesCount /\ int32 count /\ int32 paint
      /\ array_ok positions (s32 (count * 2))
  | renderer_resetShader | renderer_resetColorFilter | renderer_resetShadow
  | renderer_resetPaintFilter => True
  | renderer_setupShader shader => int32 shader
  | renderer_setupColorFilter colorFilter => int32 colorFilter
  | renderer_setupShadow _ _ _ color => int32 color
  | renderer_setupPaintFilter clearBits setBits =>
      int32 clearBits /\ int32 setBits
  end.

End Layout.

(** ** Decoding steps and the cells behind the cursor *)

Module Frame.

(** A decoding step is local when it depends on no cell beyond those it
    consumes: with more cells behind the buffer it yields the same value
    and leaves the same cells unread, followed by the new ones. *)
Definition local {A} (m : Dec A) : Prop :=
  forall r a r' rest,
    m r = Some (a, r') -> m (r ++ rest) = Some (a, r' ++ rest).

(** The cursor that a decoding step leaves behind, if it returns. *)
Definition cursor_after {A} (m : Dec A) (r : SkReader32)
  : option SkReader32 :=
  option_map snd (m r).

End Frame.

(** ** What a replay of a session is to deliver

    The calls that a replay of a recorded session makes, told from the
    calls made on the recorder alone.  Nothing here looks at the
    recorder: [Pending] holds what the calls so far leave behind, the
    state of the base class and the caller's paints among it, and
    [deliver] says call by call what reaches the renderer at replay. *)

Module Expected.
Import Layout.

(** What the calls made so far leave behind: the state of the base
    class, the caller's paints, the sum of the translations that were not
    delivered yet, and the save count of a restore that was not. *)
Record Pending (S : Type) : Type := {
  state : S;
  paints : Z -> SkPaint;
  translation : option (float * float);
  restore_to : option Z;
}.
Arguments state {S}. Arguments paints {S}. Arguments translation {S}.
Arguments restore_to {S}.

Section Expected.
Context {S : Type} `{GL : OpenGLRenderer S} `{SK : Skia}.

(** Nothing pending. *)
Definition start (s : S) (pa : Z -> SkPaint) : Pending S :=
  {| state := s; paints := pa; translation := None; restore_to := None |}.

(** A restore to a negative count is no restore. *)
Definition pend (saveCount : Z) : option Z :=
  if decide (0 <= saveCount) then Some saveCount else None.

(** The pending restore, delivered: a [restoreToCount] to the pending
    count over the save count [saveCount] at which the replay starts. *)
Definition due_restore (saveCount : Z) (p : Pending S) : list Call :=
  match restore_to p with
  | Some n => [renderer_restoreToCount (s32 (saveCount + n))]
  | None => []
  end.

(** The pending translation, delivered: one [translate] of the sums. *)
Definition due_translate (p : Pending S) : list Call :=
  match translation p with
  | Some (x, y) => [renderer_translate x y]
  | None => []
  end.

(** The paint, anti-aliased as the text operations leave it. *)
Definition antialiased (paint : Z) (pa : Z -> SkPaint) : Z -> SkPaint :=
  fun q => if decide (q = paint) then setAntiAlias true (pa q) else pa q.

(** The state of the base class after the call: a layer is not created
    while recording, only saved for; a restore with none pending is a
    restore to the save count less one. *)
Definition forward (c : Call) (p : Pending S) : S :=
  let s := state p in
  match c with
  | renderer_save flags | renderer_saveLayer _ _ _ _ _ flags
  | renderer_saveLayerAlpha _ _ _ _ _ flags => snd (gl_save flags s)
  | renderer_restore =>
      match restore_to p with
      | Some _ => gl_restore s
      | None => gl_restoreToCount (s32 (gl_getSaveCount s - 1)) s
      end
  | renderer_restoreToCount saveCount => gl_restoreToCount saveCount s
  | renderer_translate dx dy => gl_translate dx dy s
  | renderer_rotate degrees => gl_rotate degrees s
  | renderer_scale sx sy => gl_scale sx sy s
  | renderer_skew sx sy => gl_skew sx sy s
  | renderer_setMatrix matrix => gl_setMatrix matrix s
  | renderer_concatMatrix matrix => gl_concatMatrix matrix s
  | renderer_clipRect l t r b op => snd (gl_clipRect l t r b op s)
  | _ => s
  end.

(** The paints after the call: a text operation that is recorded turns
    on the anti-aliasing of its paint. *)
Definition paints_after (c : Call) (p : Pending S) : Z -> SkPaint :=
  match c with
  | renderer_drawText _ _ _ _ _ paint _
  | renderer_drawTextOnPath _ _ _ _ _ _ paint
  | renderer_drawPosText _ _ _ _ paint => antialiased paint (paints p)
  | _ => paints p
  end.

(** The operation that is delivered for the call, if one is: a call
    with a null text or without glyphs delivers none, and a [drawText]
    that is handed a negative length delivers the length measured with
    the anti-aliased paint. *)
Definition operation (c : Call) (p : Pending S) : option Call :=
  match c with
  | renderer_translate _ _ | renderer_restore
  | renderer_restoreToCount _ => None
  | renderer_drawText None _ _ _ _ _ _
  | renderer_drawTextOnPath None _ _ _ _ _ _
  | renderer_drawPosText None _ _ _ _ => None
  | renderer_drawText (Some text) bytesCount count x y paint length =>
      if decide (count <= 0) then None
      else
        let pt := setAntiAlias true (paints p paint) in
        let length :=
          if fltb length fzero then measureText pt text bytesCount
          else length in
        Some (renderer_drawText (Some text) bytesCount count x y paint
                length)
  | renderer_drawTextOnPath (Some _) _ count _ _ _ _
  | renderer_drawPosText (Some _) _ count _ _ =>
      if decide (count <= 0) then None else Some c
  | _ => Some c
  end.

(** Whether the operation is culled: the quick-reject test of the
    method that records it, on the bound that the method hands it. *)
Definition rejected (c : Call) (p : Pending S) : bool :=
  let s := state p in
  match c with
  | renderer_drawDisplayList _ width height _ _ =>
      gl_quickReject fzero fzero (float_of_int width) (float_of_int height) s
  | renderer_drawBitmap bitmap left_ top_ _ =>
      gl_quickReject left_ top_
        (fadd left_ (float_of_int (bitmap_width bitmap)))
        (fadd top_ (float_of_int (bitmap_height bitmap))) s
  | renderer_drawBitmapMatrix bitmap matrix _ =>
      let '(l, t, r, b) :=
        mapRect matrix
          (fzero, fzero, float_of_int (bitmap_width bitmap),
           float_of_int (bitmap_height bitmap)) in
      gl_quickReject l t r b s
  | renderer_drawBitmapRect _ _ _ _ _ dstLeft dstTop dstRight dstBottom _ =>
      gl_quickReject dstLeft dstTop dstRight dstBottom s
  | renderer_drawPatch _ _ _ _ _ _ _ l t r b _ =>
      gl_quickReject l t r b s
  | renderer_drawRect l t r b paint
  | renderer_drawRoundRect l t r b _ _ paint =>
      match getStyle (paints p paint) with
      | kFill_Style => gl_quickReject l t r b s
      | _ => false
      end
  | renderer_drawPath path paint =>
      let '(left_, top_, offset, width, height) :=
        computePathBounds path (paints p paint) in
      gl_quickReject (fsub left_ offset) (fsub top_ offset)
        (float_of_int width) (float_of_int height) s
  | renderer_drawText (Some text) bytesCount _ x y paint length =>
      let pt := setAntiAlias true (paints p paint) in
      let length :=
        if fltb length fzero then measureText pt text bytesCount
        else length in
      match getTextAlign pt with
      | kLeft_Align =>
          let '(fTop, fBottom) := getFontMetrics pt in
          gl_quickReject x (fadd y fTop) (fadd x length) (fadd y fBottom) s
      | _ => false
      end
  | _ => false
  end.

(** One call on the recorder: the calls that a replay makes for it, and
    what is pending after it.  With [cull] the replay passes over the
    operations that were rejected.

    A [translate] adds to the pending translation and is not delivered
    by itself; a pending restore is delivered ahead of it.  A [restore]
    or [restoreToCount] stays pending, as a restore to a count; the
    pending translation is delivered ahead of it.  Every other operation
    is delivered, after the pending restore and the pending
    translation. *)
Definition deliver (cull : bool) (saveCount level : Z) (c : Call)
    (p : Pending S) : list Call * Pending S :=
  match c with
  | renderer_translate dx dy =>
      let '(x, y) := default (fzero, fzero) (translation p) in
      (due_restore saveCount p,
       {| state := forward c p; paints := paints p;
          translation := Some (fadd x dx, fadd y dy);
          restore_to := None |})
  | renderer_restore =>
      (due_translate p,
       {| state := forward c p; paints := paints p;
          translation := None;
          restore_to :=
            match restore_to p with
            | Some n => pend (n - 1)
            | None => pend (s32 (gl_getSaveCount (state p) - 1))
            end |})
  | renderer_restoreToCount saveCount' =>
      (due_translate p,
       {| state := forward c p; paints := paints p;
          translation := None; restore_to := pend saveCount' |})
  | _ =>
      match operation c p with
      | Some c' =>
          (due_restore saveCount p ++ due_translate p
           ++ (if cull && rejected c p then []
               else [replayed saveCount level c']),
           start (forward c p) (paints_after c p))
      | None => ([], p)
      end
  end.

(** A session: the calls [cs], then [finish], which delivers what is
    still pending. *)
Fixpoint run (cull : bool) (saveCount level : Z) (cs : list Call)
    (p : Pending S) : list Call :=
  match cs with
  | [] => due_restore saveCount p ++ due_translate p
  | c :: cs =>
      fst (deliver cull saveCount level c p)
      ++ run cull saveCount level cs (snd (deliver cull saveCount level c p))
  end.

(** *** The recorder, seen from here *)

(** What is pending in the recorder of [w]. *)
Definition pending_of (w : World S) : Pending S :=
  {| state := gl (recorder w);
     paints := paintAt (heap w);
     translation :=
       if mHasTranslate (recorder w)
       then Some (mTranslateX (recorder w), mTranslateY (recorder w))
       else None;
     restore_to := pend (mRestoreSaveCount (recorder w)) |}.

(** The fields of [w] that [pending_of] is made of. *)
Definition pending_fields (w : World S)
  : S * (Z -> SkPaint) * bool * float * float * Z :=
  (gl (recorder w), paintAt (heap w), mHasTranslate (recorder w),
   mTranslateX (recorder w), mTranslateY (recorder w),
   mRestoreSaveCount (recorder w)).

(** The sums of the recorder stand at zero when no translation is
    pending, and its restore count is an [int]. *)
Definition consistent (w : World S) : Prop :=
  (mHasTranslate (recorder w) = false ->
   mTranslateX (recorder w) = fzero /\ mTranslateY (recorder w) = fzero)
  /\ int32 (mRestoreSaveCount (recorder w)).

(** The calls that do not bring the pending translation into the
    stream: [translate] itself, and a text operation that is handed no
    text or no glyph. *)
Definition quiet (c : Call) : bool :=
  match c with
  | renderer_translate _ _ => true
  | renderer_drawText None _ _ _ _ _ _
  | renderer_drawTextOnPath None _ _ _ _ _ _
  | renderer_drawPosText None _ _ _ _ => true
  | renderer_drawText (Some _) _ count _ _ _ _
  | renderer_drawTextOnPath (Some _) _ count _ _ _ _
  | renderer_drawPosText (Some _) _ count _ _ => bool_decide (count <= 0)
  | _ => false
  end.

(** The calls that the recorder keeps pending instead of writing
    them: [translate], [restore] and [restoreToCount]. *)
Definition deferred (c : Call) : bool :=
  match c with
  | renderer_translate _ _ | renderer_restore
  | renderer_restoreToCount _ => true
  | _ => false
  end.

(** The offsets of the [translate] calls among [cs], in order. *)
Definition offsets (cs : list Call) : list (float * float) :=
  omap (fun c => match c with
                 | renderer_translate dx dy => Some (dx, dy)
                 | _ => None
                 end) cs.

(** The worlds that the methods of the recorder lead to, from its
    construction on; [restoreSaveCount] is what the field that the
    constructor leaves alone holds. *)
Inductive reachable : World S -> Prop :=
  | reach_new gl0 restoreSaveCount c h :
      int32 restoreSaveCount ->
      reachable {| recorder := Recorder.new gl0 restoreSaveCount;
                   caches := c; heap := h |}
  | reach_record c w :
      wf_call c -> reachable w -> reachable (snd (Session.record c w))
  | reach_finish w : reachable w -> reachable (snd (Recorder.finish w))
  | reach_reset w : reachable w -> reachable (snd (Recorder.reset w))
  | reach_setViewport width height w :
      reachable w -> reachable (snd (Recorder.setViewport width height w))
  | reach_prepareDirty l t r b opaque w :
      reachable w ->
      reachable (snd (Recorder.prepareDirty l t r b opaque w))
  | reach_getDisplayList displayList w :
      reachable w ->
      reachable (snd (Recorder.getDisplayList displayList w)).

(** The worlds in which the code has just brought the pending
    translation into the stream, or never had one: a new recorder, and
    the world after [finish] or after a call that is not [quiet]; the
    methods that record nothing do not take a world out of them. *)
Inductive settled : World S -> Prop :=
  | settled_new gl0 restoreSaveCount c h :
      settled {| recorder := Recorder.new gl0 restoreSaveCount;
                 caches := c; heap := h |}
  | settled_finish w : reachable w -> settled (snd (Recorder.finish w))
  | settled_record c w :
      reachable w -> quiet c = false ->
      settled (snd (Session.record c w))
  | settled_reset w : settled w -> settled (snd (Recorder.reset w))
  | settled_setViewport width height w :
      settled w -> settled (snd (Recorder.setViewport width height w))
  | settled_prepareDirty l t r b opaque w :
      settled w ->
      settled (snd (Recorder.prepareDirty l t r b opaque w))
  | settled_getDisplayList displayList w :
      settled w ->
      settled (snd (Recorder.getDisplayList displayList w)).

End Expected.

(** The operands of the call take less than 2 GiB, so that their length
    in bytes is an [int32_t], as [replay] computes it. *)
Definition small_call (c : Call) : Prop :=
  4 * Z.of_nat (length (operands c)) < 2 ^ 31.

End Expected.

(** ** What recording leaves as it is *)

Module Effects.
Import Recorder Session.

(** The method [m] leaves the observation [f] of the world unchanged. *)
Definition keeps {S A B} (f : World S -> A) (m : Rec S B) : Prop :=
  forall w, f (snd (m w)) = f w.

(** The calls that the recorder passes on to [OpenGLRenderer], where
    they move its save stack, its transform or its clip. *)
Definition changes_state (c : Call) : bool :=
  match c with
  | renderer_save _ | renderer_restore | renderer_restoreToCount _
  | renderer_saveLayer _ _ _ _ _ _ | renderer_saveLayerAlpha _ _ _ _ _ _
  | renderer_translate _ _ | renderer_rotate _ | renderer_scale _ _
  | renderer_skew _ _ | renderer_setMatrix _ | renderer_concatMatrix _
  | renderer_clipRect _ _ _ _ _ => true
  | _ => false
  end.

(** The references on [R] in the cache that are not accounted for by the
    tables of the recorder: those of display lists and of other owners. *)
Definition held_elsewhere {S} (R : Z) (w : World S) : Z :=
  Z.of_nat (ResourceCache.refcount R (resourceCache (caches w)))
  - Z.of_nat (DisplayListImpl.recorder_entries R (recorder w)).

End Effects.

(** ** [Caches]: the mesh buffers ([Caches.cpp])

    The calls that [Caches.cpp] makes on the GL are kept in a log, latest
    last; what the driver answers (a buffer name, a limit) and what
    [new] returns are arguments of the method that asks. *)

Module MeshCaches.

Inductive Target : Type := GL_ARRAY_BUFFER | GL_ELEMENT_ARRAY_BUFFER.

Inductive Pname : Type :=
  | GL_MAX_COMBINED_TEXTURE_IMAGE_UNITS
  | GL_MAX_TEXTURE_SIZE.

Inductive GLCall : Type :=
  | glGetIntegerv (pname : Pname)
  | glGenBuffers (name : Z)
  | glBindBuffer (target : Target) (buffer : Z)
  | glBufferData (target : Target) (size : Z) (data : list Z).

Inductive LogCall : Type :=
  | LOGW_texture_units (required : Z).

Definition GL_ZERO : Z := 0.

(** The fields of [Caches] that [Caches.cpp] reads and writes;
    [currentProgram] and [mRegionMesh] are [None] for the null
    pointer. *)
Record Caches : Type := {
  blend : bool;
  lastSrcMode : Z;
  lastDstMode : Z;
  currentProgram : option Z;
  meshBuffer : Z;
  maxTextureSize : Z;
  mCurrentBuffer : Z;
  mRegionMesh : option Z;
  mRegionMeshIndices : Z;
  gl_calls : list GLCall;
  warnings : list LogCall;
}.

Definition call (g : list GLCall) (c : Caches) : Caches :=
  {| blend := blend c; lastSrcMode := lastSrcMode c;
     lastDstMode := lastDstMode c; currentProgram := currentProgram c;
     meshBuffer := meshBuffer c; maxTextureSize := maxTextureSize c;
     mCurrentBuffer := mCurrentBuffer c; mRegionMesh := mRegionMesh c;
     mRegionMeshIndices := mRegionMeshIndices c;
     gl_calls := gl_calls c ++ g; warnings := warnings c |}.

Definition set_mCurrentBuffer (buffer : Z) (c : Caches) : Caches :=
  {| blend := blend c; lastSrcMode := lastSrcMode c;
     lastDstMode := lastDstMode c; currentProgram := currentProgram c;
     meshBuffer := meshBuffer c; maxTextureSize := maxTextureSize c;
     mCurrentBuffer := buffer; mRegionMesh := mRegionMesh c;
     mRegionMeshIndices := mRegionMeshIndices c;
     gl_calls := gl_calls c; warnings := warnings c |}.

Definition set_mRegionMesh (mesh : Z) (indices : Z) (c : Caches) : Caches :=
  {| blend := blend c; lastSrcMode := lastSrcMode c;
     lastDstMode := lastDstMode c; currentProgram := currentProgram c;
     meshBuffer := meshBuffer c; maxTextureSize := maxTextureSize c;
     mCurrentBuffer := mCurrentBuffer c; mRegionMesh := Some mesh;
     mRegionMeshIndices := indices;
     gl_calls := gl_calls c; warnings := warnings c |}.

(** [Caches::Caches()].  [REQUIRED_TEXTURE_UNITS_COUNT] and
    [gMeshVertices] with its size come from the header;
    [maxTextureUnits], [name] and [maxTextureSize_] are what the driver
    answers; [mRegionMeshIndices] is not initialised and holds
    [indeterminate]. *)
Definition new (REQUIRED_TEXTURE_UNITS_COUNT sizeof_gMeshVertices : Z)
    (gMeshVertices : list Z)
    (maxTextureUnits name maxTextureSize_ indeterminate : Z) : Caches :=
  {| blend := false; lastSrcMode := GL_ZERO; lastDstMode := GL_ZERO;
     currentProgram := None;
     meshBuffer := name;
     maxTextureSize := maxTextureSize_;
     mCurrentBuffer := name;
     mRegionMesh := None;
     mRegionMeshIndices := indeterminate;
     gl_calls :=
       [glGetIntegerv GL_MAX_COMBINED_TEXTURE_IMAGE_UNITS;
        glGenBuffers name; glBindBuffer GL_ARRAY_BUFFER name;
        glBufferData GL_ARRAY_BUFFER sizeof_gMeshVertices gMeshVertices;
        glGetIntegerv GL_MAX_TEXTURE_SIZE];
     warnings :=
       if decide (maxTextureUnits < REQUIRED_TEXTURE_UNITS_COUNT)
       then [LOGW_texture_units REQUIRED_TEXTURE_UNITS_COUNT] else [] |}.

(** [Caches::~Caches()]: the array that [delete[]] is handed. *)
Definition destroy (c : Caches) : option Z := mRegionMesh c.

(** [Caches::bindMeshBuffer(buffer)] *)
Definition bindMeshBuffer_buffer (buffer : Z) (c : Caches) : Caches :=
  if decide (mCurrentBuffer c <> buffer) then
    set_mCurrentBuffer buffer (call [glBindBuffer GL_ARRAY_BUFFER buffer] c)
  else c.

(** [Caches::bindMeshBuffer()] *)
Definition bindMeshBuffer (c : Caches) : Caches :=
  bindMeshBuffer_buffer (meshBuffer c) c.

(** [Caches::unbindMeshBuffer()] *)
Definition unbindMeshBuffer (c : Caches) : Caches :=
  if decide (mCurrentBuffer c <> 0) then
    set_mCurrentBuffer 0 (call [glBindBuffer GL_ARRAY_BUFFER 0] c)
  else c.

Definition u16 (v : Z) : Z := v mod 65536.

(** One turn of the loop of [getRegionMesh]: the six indices of the
    quad [i], stored at [i * 6] and the five places after it. *)
Definition set_quad (regionIndices : list Z) (i : nat) : list Z :=
  let quad := u16 (Z.of_nat i * 4) in
  let index := (i * 6)%nat in
  let a := <[index := quad]> regionIndices in            (* top-left *)
  let a := <[(index + 1)%nat := u16 (quad + 1)]> a in    (* top-right *)
  let a := <[(index + 2)%nat := u16 (quad + 2)]> a in    (* bottom-left *)
  let a := <[(index + 3)%nat := u16 (quad + 2)]> a in    (* bottom-left *)
  let a := <[(index + 4)%nat := u16 (quad + 1)]> a in    (* top-right *)
  <[(index + 5)%nat := u16 (quad + 3)]> a.               (* bottom-right *)

(** The index array after the loop; [fresh] is the content of the array
    as [new uint16_t[REGION_MESH_QUAD_COUNT * 6]] hands it out. *)
Definition regionIndices (REGION_MESH_QUAD_COUNT : nat) (fresh : list Z)
  : list Z :=
  fold_left set_quad (seq 0 REGION_MESH_QUAD_COUNT) fresh.

(** [Caches::getRegionMesh()].  [REGION_MESH_QUAD_COUNT] comes from the
    header; [array] is the mesh that [new TextureVertex[...]] returns,
    [fresh] the index array as allocated, [name] the buffer name that
    [glGenBuffers] yields; they are used on the first call only. *)
Definition getRegionMesh (REGION_MESH_QUAD_COUNT : nat)
    (array : Z) (fresh : list Z) (name : Z) (c : Caches) : Z * Caches :=
  match mRegionMesh c with
  | None =>
      let indices := regionIndices REGION_MESH_QUAD_COUNT fresh in
      (array,
       call [glGenBuffers name; glBindBuffer GL_ELEMENT_ARRAY_BUFFER name;
             glBufferData GL_ELEMENT_ARRAY_BUFFER
               (Z.of_nat REGION_MESH_QUAD_COUNT * 6 * 2) indices]
         (set_mRegionMesh array name c))
  | Some mesh =>
      (mesh,
       call [glBindBuffer GL_ELEMENT_ARRAY_BUFFER (mRegionMeshIndices c)] c)
  end.

(** A use of the buffers by the rest of the library. *)
Inductive Request : Type :=
  | request_bindMeshBuffer_buffer (buffer : Z)
  | request_bindMeshBuffer
  | request_unbindMeshBuffer
  | request_getRegionMesh (array : Z) (fresh : list Z) (name : Z).

Definition serve (REGION_MESH_QUAD_COUNT : nat) (c : Caches) (q : Request)
  : Caches :=
  match q with
  | request_bindMeshBuffer_buffer buffer => bindMeshBuffer_buffer buffer c
  | request_bindMeshBuffer => bindMeshBuffer c
  | request_unbindMeshBuffer => unbindMeshBuffer c
  | request_getRegionMesh array fresh name =>
      snd (getRegionMesh REGION_MESH_QUAD_COUNT array fresh name c)
  end.

Definition serve_all (REGION_MESH_QUAD_COUNT : nat) (qs : list Request)
    (c : Caches) : Caches :=
  fold_left (serve REGION_MESH_QUAD_COUNT) qs c.

(** The buffers that the calls [g] bind to [GL_ARRAY_BUFFER], in
    order. *)
Definition array_binds (g : list GLCall) : list Z :=
  omap (fun x => match x with
                 | glBindBuffer GL_ARRAY_BUFFER buffer => Some buffer
                 | _ => None
                 end) g.

(** The buffer bound to [GL_ARRAY_BUFFER] after the calls [g], when
    [before] was bound before them. *)
Definition array_buffer_binding (before : Z) (g : list GLCall) : Z :=
  List.last (array_binds g) before.

(** No element of the list is followed by an equal one. *)
Fixpoint changes (l : list Z) : Prop :=
  match l with
  | x :: (y :: _) as l' => x <> y /\ changes l'
  | _ => True
  end.

(** The corner of its quad that the [t]-th of the six indices names. *)
Definition corner (t : nat) : Z :=
  match t with
  | 0%nat => 0 | 1%nat => 1 | 2%nat => 2 | 3%nat => 2 | 4%nat => 1 | _ => 3
  end.

End MeshCaches.


(** * Theorems *)

(** ** 32-bit arithmetic *)

Section Arith.
Import Layout.

Lemma s32_int32 v : int32 v -> s32 v = v.
Proof.
  unfold int32, s32. change (2 ^ 31) with 2147483648.
  change (2 ^ 32) with 4294967296. intros H.
  rewrite Z.mod_small by lia. lia.
Qed.

Lemma u32_uint32 v : uint32 v -> u32 v = v.
Proof.
  unfold uint32, u32. change (2 ^ 32) with 4294967296. intros H.
  apply Z.mod_small. lia.
Qed.

Lemma s32_u32 v : s32 (u32 v) = s32 v.
Proof.
  unfold s32, u32. change (2 ^ 31) with 2147483648.
  change (2 ^ 32) with 4294967296.
  rewrite Zplus_mod_idemp_l. reflexivity.
Qed.

Lemma u32_s32 v : u32 (s32 v) = u32 v.
Proof.
  unfold s32, u32. change (2 ^ 31) with 2147483648.
  change (2 ^ 32) with 4294967296.
  rewrite Zminus_mod_idemp_l. f_equal. lia.
Qed.

Lemma s32_range v : int32 (s32 v).
Proof.
  unfold int32, s32. change (2 ^ 31) with 2147483648.
  change (2 ^ 32) with 4294967296.
  pose proof (Z.mod_pos_bound (v + 2147483648) 4294967296). lia.
Qed.

Lemma u32_range v : uint32 (u32 v).
Proof.
  unfold uint32, u32. change (2 ^ 32) with 4294967296.
  apply Z.mod_pos_bound. lia.
Qed.

Lemma s8_small v : -128 <= v < 128 -> s8 (s32 (u32 v)) = v.
Proof.
  intros H. rewrite s32_u32, s32_int32.
  - unfold s8. change (2 ^ 7) with 128. change (2 ^ 8) with 256.
    rewrite Z.mod_small by lia. lia.
  - unfold int32. change (2 ^ 31) with 2147483648. lia.
Qed.

End Arith.

(** ** The loops of [replay] and [output], one iteration at a time *)

Section Loops.
Import Reader Replay Output.
Variable renderer_returns : Call -> bool.
Local Abbreviation prepend := (prepend renderer_returns).

Lemma replay_loop_step flags level saveCount r calls r' :
  replay_iteration flags level saveCount r = Some (calls, r') ->
  replay_loop renderer_returns flags level saveCount r
  = prepend calls (replay_loop renderer_returns flags level saveCount r').
Proof.
  destruct r as [|w r]; [discriminate|]. intros H.
  rewrite replay_loop_equation_2, (inspect_eq _ _ H).
  simpl. unfold prepend.
  destruct (replay_loop renderer_returns flags level saveCount r')
    as [[calls' b]|]; reflexivity.
Qed.

Lemma replay_loop_stuck flags level saveCount r :
  r <> [] ->
  replay_iteration flags level saveCount r = None ->
  replay_loop renderer_returns flags level saveCount r = None.
Proof.
  destruct r as [|w r]; [congruence|]. intros _ H.
  rewrite replay_loop_equation_2, (inspect_eq _ _ H). reflexivity.
Qed.

Lemma prepend_nil rest : prepend [] rest = rest.
Proof. destruct rest as [[calls b]|]; reflexivity. Qed.

Lemma prepend_app calls1 calls2 rest :
  prepend (calls1 ++ calls2) rest = prepend calls1 (prepend calls2 rest).
Proof.
  destruct rest as [[calls b]|]; [|reflexivity]. simpl.
  rewrite existsb_app, <- app_assoc, orb_assoc. reflexivity.
Qed.

Lemma output_loop_step level saveCount r lines r' :
  output_iteration level saveCount r = Some (lines, r') ->
  output_loop level saveCount r
  = match output_loop level saveCount r' with
    | Some lines' => Some (lines ++ lines')
    | None => None
    end.
Proof.
  destruct r as [|w r]; [discriminate|]. intros H.
  rewrite output_loop_equation_2, (inspect_eq _ _ H). simpl.
  destruct (output_loop level saveCount r'); reflexivity.
Qed.

End Loops.

(** ** Culling and unknown opcodes in [replay] *)

Section Replay_facts.
Import Reader Replay.
Variable renderer_returns : Call -> bool.

Lemma skip_app (operands rest : list Z) :
  skip (4 * Z.of_nat (length operands)) (operands ++ rest)
  = Some (operands, rest).
Proof.
  unfold skip. rewrite decide_True by lia.
  replace ((4 * Z.of_nat (length operands) + 3) / 4)
    with (Z.of_nat (length operands))
    by (apply Z.div_unique with (r := 3); lia).
  rewrite Nat2Z.id, decide_True by (rewrite length_app; lia).
  rewrite take_app_length, drop_app_length. reflexivity.
Qed.

Lemma replay_iteration_skip flags level saveCount w n operands rest :
  Z.land (s32 w) OP_MAY_BE_SKIPPED_MASK <> 0 ->
  Z.land flags kReplayFlag_ClipChildren <> 0 ->
  s32 n = Z.of_nat (length operands) ->
  4 * Z.of_nat (length operands) < 2 ^ 31 ->
  replay_iteration flags level saveCount (w :: n :: operands ++ rest)
  = Some ([], rest).
Proof.
  intros Htag Hclip Hn Hsmall.
  unfold replay_iteration, bindD, readInt, retD. cbv beta iota.
  rewrite decide_True by assumption. rewrite decide_True by assumption.
  rewrite Hn, s32_int32, Z.mul_comm.
  - rewrite skip_app. reflexivity.
  - unfold Layout.int32. change (2 ^ 31) with 2147483648 in *. lia.
Qed.

(** C2.  An operation whose opcode carries the skippable tag, replayed
    with culling enabled: the skip length is read, no call is made on the
    renderer (so no nested list is entered), and the cursor lands on the
    cell that follows the operands, [8 + 4 * n] bytes further, where the
    replay goes on with the next opcode. *)
Theorem tagged_operation_is_skipped
    flags level saveCount base w n operands rest :
  Z.land (s32 w) OP_MAY_BE_SKIPPED_MASK <> 0 ->
  Z.land flags kReplayFlag_ClipChildren <> 0 ->
  s32 n = Z.of_nat (length operands) ->
  4 * Z.of_nat (length operands) < 2 ^ 31 ->
  replay_iteration flags level saveCount (w :: n :: operands ++ rest)
  = Some ([], rest)
  /\ reader_offset base rest
     = reader_offset base (w :: n :: operands ++ rest) + 8 + 4 * s32 n
  /\ replay_loop renderer_returns flags level saveCount
       (w :: n :: operands ++ rest)
     = replay_loop renderer_returns flags level saveCount rest.
Proof.
  intros Htag Hclip Hn Hsmall.
  pose proof (replay_iteration_skip flags level saveCount w n operands rest
                Htag Hclip Hn Hsmall) as Hit.
  split; [exact Hit|]. split.
  - unfold reader_offset. rewrite Hn. simpl length. rewrite length_app. lia.
  - rewrite (replay_loop_step _ _ _ _ _ _ _ Hit). apply prepend_nil.
Qed.

Lemma replay_iteration_unknown flags level saveCount w rest :
  Z.land (s32 w) OP_MAY_BE_SKIPPED_MASK = 0 ->
  op_of_code (s32 w) = None ->
  replay_iteration flags level saveCount (w :: rest) = Some ([], rest).
Proof.
  intros Htag Hop. unfold replay_iteration, bindD, readInt. cbv beta iota.
  rewrite decide_False by (intros H; apply H; assumption).
  unfold replay_case. rewrite Hop. reflexivity.
Qed.

Lemma replay_iteration_unknown_tagged flags level saveCount w n rest :
  Z.land (s32 w) OP_MAY_BE_SKIPPED_MASK <> 0 ->
  Z.land flags kReplayFlag_ClipChildren = 0 ->
  op_of_code (Z.land (s32 w) (Z.lxor 0xFFFFFFFF OP_MAY_BE_SKIPPED_MASK))
  = None ->
  replay_iteration flags level saveCount (w :: n :: rest) = Some ([], rest).
Proof.
  intros Htag Hclip Hop.
  unfold replay_iteration, bindD, readInt. cbv beta iota.
  rewrite decide_True by assumption.
  rewrite decide_False by (intros H; apply H; assumption).
  unfold replay_case. rewrite Hop. reflexivity.
Qed.

(** C3, as the code has it.  An opcode outside the known set selects the
    [default] case: no call is made on the renderer for it and no other
    case runs, the pass is not aborted and reports nothing, and the
    replay goes on with the next cell as the next opcode.  The same holds
    for a tagged opcode when culling is off, once the skip length is
    read. *)
Theorem unknown_opcode_is_passed_over flags level saveCount w n rest :
  (Z.land (s32 w) OP_MAY_BE_SKIPPED_MASK = 0 ->
   op_of_code (s32 w) = None ->
   replay_iteration flags level saveCount (w :: rest) = Some ([], rest)
   /\ replay_loop renderer_returns flags level saveCount (w :: rest)
      = replay_loop renderer_returns flags level saveCount rest)
  /\ (Z.land (s32 w) OP_MAY_BE_SKIPPED_MASK <> 0 ->
      Z.land flags kReplayFlag_ClipChildren = 0 ->
      op_of_code (Z.land (s32 w) (Z.lxor 0xFFFFFFFF OP_MAY_BE_SKIPPED_MASK))
      = None ->
      replay_iteration flags level saveCount (w :: n :: rest)
      = Some ([], rest)
      /\ replay_loop renderer_returns flags level saveCount (w :: n :: rest)
         = replay_loop renderer_returns flags level saveCount rest).
Proof.
  split.
  - intros Htag Hop.
    pose proof (replay_iteration_unknown flags level saveCount w rest
                  Htag Hop) as Hit.
    split; [exact Hit|].
    rewrite (replay_loop_step _ _ _ _ _ _ _ Hit). apply prepend_nil.
  - intros Htag Hclip Hop.
    pose proof (replay_iteration_unknown_tagged flags level saveCount w n
                  rest Htag Hclip Hop) as Hit.
    split; [exact Hit|].
    rewrite (replay_loop_step _ _ _ _ _ _ _ Hit). apply prepend_nil.
Qed.

End Replay_facts.

(** C3 fails as stated: after the unknown opcode 99 the replay is not
    aborted; it dispatches the [Restore] that follows and returns
    normally. *)
Lemma unknown_opcode_does_not_abort :
  Replay.replay (fun _ => false) [99; op_code Restore] 1 0 0
  = Some ([renderer_restore], false).
Proof. vm_compute. reflexivity. Qed.

Lemma unknown_opcode_is_passed_over_witness :
  Replay.replay_loop (fun _ => false) 0 0 0 [99; 1]
  = Replay.replay_loop (fun _ => false) 0 0 0 [1]
  /\ Replay.replay_loop (fun _ => false) 0 0 0 [0x80000063; 0; 1]
     = Replay.replay_loop (fun _ => false) 0 0 0 [1].
Proof.
  split.
  - apply (proj1 (unknown_opcode_is_passed_over (fun _ => false)
                    0 0 0 99 0 [1])); reflexivity.
  - apply (proj2 (unknown_opcode_is_passed_over (fun _ => false)
                    0 0 0 0x80000063 0 [1])); [vm_compute; discriminate
                                                |reflexivity..].
Defined.

Lemma tagged_operation_is_skipped_witness :
  Replay.replay_loop (fun _ => false) 1 0 0
    [0x80000014; 5; 0; 0; 1084227584; 1084227584; 77; 1]
  = Replay.replay_loop (fun _ => false) 1 0 0 [1].
Proof.
  apply (tagged_operation_is_skipped (fun _ => false) 1 0 0 []
           0x80000014 5 [0; 0; 1084227584; 1084227584; 77] [1]);
    [vm_compute; discriminate | vm_compute; discriminate
    | reflexivity | reflexivity].
Defined.

(** ** Text operations without text *)

Section Text_guard.
Context {S : Type} `{GL : OpenGLRenderer S} `{SK : Skia}.

(** C10.  [drawText], [drawTextOnPath] and [drawPosText] with a null
    text pointer or with [count <= 0] return at once: the stream, the
    tables, the pending state, the caches and the caller's paint are all
    as they were. *)
Theorem text_guard_records_nothing
    (w : World S) (text : option (list Z)) (bytesCount count : Z)
    (x y length hOffset vOffset : float) (positions : list float)
    (path paint : Z) :
  text = None \/ count <= 0 ->
  Recorder.drawText text bytesCount count x y paint length w = (tt, w)
  /\ Recorder.drawTextOnPath text bytesCount count path hOffset vOffset
       paint w = (tt, w)
  /\ Recorder.drawPosText text bytesCount count positions paint w = (tt, w).
Proof.
  intros H.
  unfold Recorder.drawText, Recorder.drawTextOnPath, Recorder.drawPosText.
  destruct text as [text|]; [|repeat split].
  destruct H as [H|H]; [discriminate|].
  rewrite !decide_True by assumption. repeat split.
Qed.

End Text_guard.

Lemma text_guard_records_nothing_witness :
  let SK := example_skia 0 0 (0, 0, 0, 0, 0) in
  let w := example_world 100 100 in
  Recorder.drawText (Some [65]) 1 0 0 0 77 0 w = (tt, w)
  /\ Recorder.drawTextOnPath (Some [65]) 1 0 55 0 0 77 w = (tt, w)
  /\ Recorder.drawPosText (Some [65]) 1 0 [] 77 w = (tt, w).
Proof.
  intros SK w.
  apply (text_guard_records_nothing w (Some [65]) 1 0 0 0 0 0 0 [] 55 77).
  right. lia.
Defined.

(** ** [output] against [replay] *)

(** C4 fails on the code.  A list that holds one [DrawPosText] (the text
    "A", one glyph, its position, a paint): [replay] makes the one call,
    while [output] logs the operation and then, the case having no
    [break], runs the statements of [case ResetShader], which log a
    second line. *)
Theorem output_DrawPosText_runs_into_ResetShader :
  let buffer := [op_code DrawPosText; 1; 65; 1; 2; 0; 0; 77] in
  Replay.replay (fun _ => false) buffer 1 0 0
  = Some ([renderer_drawPosText (Some [65]) 1 1 [0; 0] 77], false)
  /\ Output.output buffer 1 0
     = Some [LogOp (op_code DrawPosText)
               [ArgText [65]; ArgInt 1; ArgInt 1; ArgPtr 77];
             LogOp (op_code DrawPosText) []]
  /\ Output.output_ResetShader (op_code DrawPosText) []
     = Some ([LogOp (op_code DrawPosText) []], []).
Proof. vm_compute. repeat split. Qed.

(** ** Re-initialising a display list *)

Section Reinit.
Import DisplayListImpl.

Lemma reinit_from_empty_stream {S} (r : DisplayListRenderer S)
    (dl : DisplayList) (p : Process) :
  mWriter r = [] ->
  initFromDisplayListRenderer r true dl p = (init dl, p).
Proof.
  intros H. unfold initFromDisplayListRenderer. rewrite H.
  reflexivity.
Qed.

End Reinit.

(** C9 fails on the code.  A list that holds the bitmap 7 from a first
    session is re-initialised from a second session that recorded
    nothing: [initFromDisplayListRenderer] returns before
    [clearResources], so the list still holds the bitmap and the paint of
    the first session and still reads its old buffer, and the reference
    that it took on the bitmap is not released. *)
Theorem reinit_from_empty_session_keeps_old_resources :
  let SK := example_skia 10 10 (0, 0, 0, 0, 0) in
  let session1 :=
    snd (Recorder.finish
           (snd (Recorder.drawBitmap 7 0 0 77 (example_world 100 100)))) in
  let first := Recorder.getDisplayList None session1 in
  let session2 :=
    snd (Recorder.finish
           (snd (Recorder.prepareDirty 0 0 0 0 false
                   (snd (Recorder.reset (snd first)))))) in
  let second := Recorder.getDisplayList (Some (fst first)) session2 in
  Session.stream session2 = []
  /\ ResourceCache.refcount 7 (resourceCache (caches session2)) = 1%nat
  /\ dl_mBitmapResources (fst second) = [7]
  /\ dl_mPaints (fst second) = [77]
  /\ mReader (fst second) = [op_code DrawBitmap; 7; 0; 0; 77]
  /\ ResourceCache.refcount 7 (resourceCache (caches (snd second))) = 1%nat.
Proof. vm_compute. repeat split. Qed.

(** ** Reference counts of shared resources *)

Section Refcounts.
Import ResourceCache DisplayListImpl.

Lemma refcount_increment_eq r c :
  refcount r (incrementRefcount r c) = Datatypes.S (refcount r c).
Proof. unfold refcount, incrementRefcount. simpl. by rewrite lookup_insert_eq. Qed.

Lemma refcount_increment_ne r r' c :
  r <> r' -> refcount r' (incrementRefcount r c) = refcount r' c.
Proof.
  intros H. unfold refcount, incrementRefcount. simpl.
  by rewrite lookup_insert_ne.
Qed.

Lemma refcount_decrement_eq r c :
  refcount r (decrementRefcount r c) = Nat.pred (refcount r c).
Proof.
  unfold refcount, decrementRefcount.
  destruct (refCounts c !! r) as [n|] eqn:E; simpl.
  - case_decide; simpl.
    + rewrite lookup_delete_eq. simpl. lia.
    + by rewrite lookup_insert_eq.
  - by rewrite E.
Qed.

Lemma refcount_decrement_ne r r' c :
  r <> r' -> refcount r' (decrementRefcount r c) = refcount r' c.
Proof.
  intros H. unfold refcount, decrementRefcount.
  destruct (refCounts c !! r) as [n|]; [|reflexivity].
  case_decide; simpl.
  - by rewrite lookup_delete_ne.
  - by rewrite lookup_insert_ne.
Qed.

Lemma refcount_destructor r r' c :
  refcount r' (destructor r c) = refcount r' c.
Proof.
  unfold refcount, destructor. by destruct (refCounts c !! r).
Qed.

Lemma destroyed_decrement r R c :
  R ∈ destroyed (decrementRefcount r c) ->
  R ∈ destroyed c \/ (r = R /\ (refcount R c <= 1)%nat).
Proof.
  unfold decrementRefcount, refcount.
  destruct (refCounts c !! r) as [n|] eqn:E; [|by left].
  case_decide; simpl; [|by left].
  intros [->|H']%elem_of_cons; [|by left].
  right. rewrite E. simpl. split; [reflexivity|lia].
Qed.

Lemma destroyed_destructor r R c :
  R ∈ destroyed (destructor r c) ->
  R ∈ destroyed c \/ (r = R /\ refcount R c = 0%nat).
Proof.
  unfold destructor, refcount.
  destruct (refCounts c !! r) as [n|] eqn:E; [by left|]. simpl.
  intros [->|H']%elem_of_cons; [|by left].
  right. by rewrite E.
Qed.

Lemma refcount_retain_all R table c :
  refcount R (fold_left (fun c r => incrementRefcount r c) table c)
  = (refcount R c + entries R table)%nat.
Proof.
  revert c. induction table as [|r table IH]; intros c; simpl.
  - unfold entries. simpl. lia.
  - rewrite IH. unfold entries. simpl. destruct (Z.eq_dec r R) as [->|Hne].
    + rewrite refcount_increment_eq. lia.
    + rewrite refcount_increment_ne by assumption. lia.
Qed.

Lemma refcount_release_all R table c :
  refcount R (fold_left (fun c r => decrementRefcount r c) table c)
  = (refcount R c - entries R table)%nat.
Proof.
  revert c. induction table as [|r table IH]; intros c; simpl.
  - unfold entries. simpl. lia.
  - rewrite IH. unfold entries. simpl. destruct (Z.eq_dec r R) as [->|Hne].
    + rewrite refcount_decrement_eq. lia.
    + rewrite refcount_decrement_ne by assumption. lia.
Qed.

Lemma refcount_release_destroy_all R table c :
  refcount R
    (fold_left (fun c r => destructor r (decrementRefcount r c)) table c)
  = (refcount R c - entries R table)%nat.
Proof.
  revert c. induction table as [|r table IH]; intros c; simpl.
  - unfold entries. simpl. lia.
  - rewrite IH, refcount_destructor. unfold entries. simpl.
    destruct (Z.eq_dec r R) as [->|Hne].
    + rewrite refcount_decrement_eq. lia.
    + rewrite refcount_decrement_ne by assumption. lia.
Qed.

Lemma release_all_spares R table c :
  R ∉ destroyed c -> (entries R table < refcount R c)%nat ->
  R ∉ destroyed (fold_left (fun c r => decrementRefcount r c) table c).
Proof.
  revert c. induction table as [|r table IH]; intros c Hd Hn; simpl.
  - assumption.
  - unfold entries in Hn. simpl in Hn. apply IH.
    + intros [H|[-> H]]%destroyed_decrement; [by apply Hd|].
      destruct (Z.eq_dec R R); [|congruence]. lia.
    + unfold entries. destruct (Z.eq_dec r R) as [->|Hne].
      * rewrite refcount_decrement_eq. lia.
      * rewrite refcount_decrement_ne by assumption. lia.
Qed.

Lemma release_destroy_all_spares R table c :
  R ∉ destroyed c -> (entries R table < refcount R c)%nat ->
  R ∉ destroyed
        (fold_left (fun c r => destructor r (decrementRefcount r c))
           table c).
Proof.
  revert c. induction table as [|r table IH]; intros c Hd Hn; simpl.
  - assumption.
  - unfold entries in Hn. simpl in Hn. apply IH.
    + intros [H|[-> H]]%destroyed_destructor.
      * apply destroyed_decrement in H as [H|[-> H]]; [by apply Hd|].
        destruct (Z.eq_dec R R); [|congruence]. lia.
      * rewrite refcount_decrement_eq in H.
        destruct (Z.eq_dec R R); [|congruence]. lia.
    + rewrite refcount_destructor. unfold entries.
      destruct (Z.eq_dec r R) as [->|Hne].
      * rewrite refcount_decrement_eq. lia.
      * rewrite refcount_decrement_ne by assumption. lia.
Qed.

Lemma new_entries {S} (r : DisplayListRenderer S) p R :
  mWriter r <> [] ->
  list_entries R (fst (new r p)) = recorder_entries R r
  /\ refcount_in R (snd (new r p))
     = (refcount_in R p + recorder_entries R r)%nat
  /\ destroyed_in (snd (new r p)) = destroyed_in p.
Proof.
  intros Hw. unfold new, initFromDisplayListRenderer.
  rewrite decide_False
    by (unfold writer_size; destruct (mWriter r); [congruence|simpl; lia]).
  destruct p as [c h]. simpl. split; [reflexivity|]. split.
  - unfold refcount_in, recorder_entries, shared_entries. simpl.
    rewrite !refcount_retain_all. lia.
  - unfold destroyed_in. simpl.
    generalize (resourceCache c).
    assert (forall table c0,
      destroyed (fold_left (fun c r => incrementRefcount r c) table c0)
      = destroyed c0) as Hkeep.
    { induction table as [|x table IH]; intros c0; simpl; [done|].
      by rewrite IH. }
    intros c0. by rewrite !Hkeep.
Qed.

Lemma destroy_entries (dl : DisplayList) p R :
  refcount_in R (destroy dl p)
  = (refcount_in R p - list_entries R dl)%nat
  /\ (R ∉ destroyed_in p -> (list_entries R dl < refcount_in R p)%nat ->
      R ∉ destroyed_in (destroy dl p)).
Proof.
  destruct p as [c h]. unfold destroy, clearResources, refcount_in,
    destroyed_in, list_entries, shared_entries. simpl. split.
  - rewrite refcount_release_destroy_all, !refcount_release_all. lia.
  - intros Hd Hn. apply release_destroy_all_spares.
    + apply release_all_spares; [apply release_all_spares; [done|lia]|].
      rewrite refcount_release_all. lia.
    + rewrite !refcount_release_all. lia.
Qed.

(** C7.  Finalizing a recording into a list retains every shared
    resource once per entry of the tables; destroying the list releases
    each by the same amount.  So when two lists each hold one entry for
    [R] and one of them is destroyed, the count of [R] is one above what
    it was before the two lists existed (1 if it was 0), and [R] is not
    destroyed. *)
Theorem list_retains_and_releases_per_entry
    {S} (r1 r2 : DisplayListRenderer S) (p0 : Process) (R : Z) :
  mWriter r1 <> [] -> mWriter r2 <> [] ->
  let dl1 := fst (new r1 p0) in
  let p1 := snd (new r1 p0) in
  let p2 := snd (new r2 p1) in
  refcount_in R p1 = (refcount_in R p0 + recorder_entries R r1)%nat
  /\ refcount_in R (destroy dl1 p1) = refcount_in R p0
  /\ (recorder_entries R r1 = 1%nat -> recorder_entries R r2 = 1%nat ->
      refcount_in R p2 = (refcount_in R p0 + 2)%nat
      /\ refcount_in R (destroy dl1 p2) = (refcount_in R p0 + 1)%nat
      /\ (R ∉ destroyed_in p0 -> R ∉ destroyed_in (destroy dl1 p2))).
Proof.
  intros Hw1 Hw2 dl1 p1 p2.
  destruct (new_entries r1 p0 R Hw1) as (Hl1 & Hc1 & Hd1).
  destruct (new_entries r2 p1 R Hw2) as (Hl2 & Hc2 & Hd2).
  fold dl1 in Hl1. fold p1 in Hc1, Hd1, Hc2, Hd2. fold p2 in Hc2, Hd2.
  split; [exact Hc1|]. split.
  - rewrite (proj1 (destroy_entries dl1 p1 R)), Hc1, Hl1. lia.
  - intros H1 H2. split; [lia|]. split.
    + rewrite (proj1 (destroy_entries dl1 p2 R)), Hc2, Hc1, Hl1. lia.
    + intros Hd. apply (proj2 (destroy_entries dl1 p2 R)).
      * by rewrite Hd2, Hd1.
      * rewrite Hc2, Hc1, Hl1. lia.
Qed.

End Refcounts.

Lemma list_retains_and_releases_per_entry_witness :
  let SK := example_skia 10 10 (0, 0, 0, 0, 0) in
  let r := recorder (snd (Recorder.drawBitmap 7 0 0 77
                            (example_world 100 100))) in
  let p0 := (example_caches, example_heap) in
  let dl1 := fst (DisplayListImpl.new r p0) in
  let p2 := snd (DisplayListImpl.new r (snd (DisplayListImpl.new r p0))) in
  DisplayListImpl.refcount_in 7 (DisplayListImpl.destroy dl1 p2) = 1%nat
  /\ 7 ∉ DisplayListImpl.destroyed_in (DisplayListImpl.destroy dl1 p2).
Proof.
  intros SK r p0 dl1 p2.
  assert (mWriter r <> []) as Hw by (vm_compute; discriminate).
  destruct (list_retains_and_releases_per_entry r r p0 7 Hw Hw)
    as (_ & _ & H).
  destruct H as (_ & H1 & H2); [reflexivity | reflexivity |].
  split; [exact H1|]. apply H2. vm_compute. apply not_elem_of_nil.
Defined.

(** ** Quick rejection of paths *)

(** C5 fails on the code.  On a 500 by 500 viewport clipped to
    [100, 400] in both directions, a path whose bound, stroke offset
    included, is the square from 60 to 110 reaches into the clip.
    [drawPath] hands [quickReject] the width and the height of the bound
    (50 and 50) where the right and the bottom edge belong: a rectangle
    between 50 and 60, left of and above the clip, whichever way round
    its edges are read.  The test holds, the operation is tagged
    skippable, and a replay with culling draws nothing.  [drawBitmap],
    for a bitmap at the same place, passes [left + width] and
    [top + height] and is not tagged. *)
Theorem drawPath_culls_a_visible_path :
  let F := float_of_int in
  let SK := example_skia 50 50 (F 62, F 62, F 2, 50, 50) in
  let w0 := example_world 500 500 in
  let w1 := snd (Recorder.clipRect (F 100) (F 100) (F 400) (F 400) 1 w0) in
  let w2 := snd (Recorder.finish (snd (Recorder.drawPath 55 77 w1))) in
  clip (mSnapshot (gl (recorder w1))) = (F 100, F 100, F 400, F 400)
  /\ SimpleGL.quickReject (F 60) (F 60) (F 110) (F 110) (gl (recorder w1))
     = false
  /\ Layout.tagged (renderer_drawPath 55 77) w1 = true
  /\ Session.stream w2
     = Session.stream w1
       ++ [Z.lor OP_MAY_BE_SKIPPED_MASK (op_code DrawPath); 2; 55; 77]
  /\ Replay.replay (fun _ => false) (Session.stream w2) 1
       kReplayFlag_ClipChildren 0
     = Some ([renderer_clipRect (F 100) (F 100) (F 400) (F 400) 1], false)
  /\ Layout.tagged (renderer_drawBitmap 7 (F 60) (F 60) 77) w1 = false.
Proof. vm_compute. repeat split. Qed.

(** ** What each method of the recorder appends to the stream *)

Section Streams.
Import Recorder Session Layout.
Context {S : Type} `{GL : OpenGLRenderer S} `{SK : Skia}.
Implicit Types w : World S.

Lemma bindR_eq {A B} (m : Rec S A) (k : A -> Rec S B) w :
  bindR m k w = k (fst (m w)) (snd (m w)).
Proof. unfold bindR. destruct (m w). reflexivity. Qed.

Lemma stream_modify (f : DisplayListRenderer S -> DisplayListRenderer S) w :
  stream (snd (modify f w)) = mWriter (f (recorder w)).
Proof. reflexivity. Qed.

Lemma stream_modify_resources f w :
  stream (snd (modify_resources f w)) = stream w.
Proof. reflexivity. Qed.

Lemma stream_modify_cache f w : stream (snd (modify_cache f w)) = stream w.
Proof. reflexivity. Qed.

Lemma stream_base f w : stream (snd (base f w)) = stream w.
Proof. reflexivity. Qed.

Lemma stream_base_ret {A} (f : S -> A * S) w :
  stream (snd (base_ret f w)) = stream w.
Proof. unfold base_ret. destruct (f (gl (recorder w))). reflexivity. Qed.

Lemma stream_paint_setAntiAlias paint aa w :
  stream (snd (paint_setAntiAlias paint aa w)) = stream w.
Proof. reflexivity. Qed.

Lemma stream_retR {A} (a : A) w : stream (snd (retR a w)) = stream w.
Proof. reflexivity. Qed.

Lemma stream_writeInt v w : stream (snd (writeInt v w)) = stream w ++ [u32 v].
Proof. reflexivity. Qed.

Lemma stream_writeScalar f w :
  stream (snd (writeScalar f w)) = stream w ++ [f].
Proof. reflexivity. Qed.

Lemma stream_writeCells cells w :
  stream (snd (writeCells cells w)) = stream w ++ cells.
Proof. reflexivity. Qed.

Lemma stream_addInt v w : stream (snd (addInt v w)) = stream w ++ [u32 v].
Proof. reflexivity. Qed.

Lemma stream_addFloat f w : stream (snd (addFloat f w)) = stream w ++ [f].
Proof. reflexivity. Qed.

Lemma stream_addPoint x y w :
  stream (snd (addPoint x y w)) = stream w ++ [x; y].
Proof. unfold stream. simpl. by rewrite <- app_assoc. Qed.

Lemma stream_addBounds l t r b w :
  stream (snd (addBounds l t r b w)) = stream w ++ [l; t; r; b].
Proof. unfold stream. simpl. by rewrite <- !app_assoc. Qed.

Lemma stream_addSize a b w :
  stream (snd (addSize a b w)) = stream w ++ [u32 a; u32 b].
Proof. unfold stream. simpl. by rewrite <- app_assoc. Qed.

Lemma stream_addInts values count w :
  stream (snd (addInts values count w))
  = stream w ++ array_cells (map u32 values) count.
Proof.
  unfold stream, array_cells. simpl. rewrite <- app_assoc.
  by rewrite firstn_map.
Qed.

Lemma stream_addUInts values count w :
  stream (snd (addUInts values count w)) = stream w ++ array_cells values count.
Proof. unfold stream, array_cells. simpl. by rewrite <- app_assoc. Qed.

Lemma stream_addFloats values count w :
  stream (snd (addFloats values count w)) = stream w ++ array_cells values count.
Proof. unfold stream, array_cells. simpl. by rewrite <- app_assoc. Qed.

Lemma stream_addText text byteLength w :
  stream (snd (addText text byteLength w))
  = stream w ++ text_cells (Some text) byteLength.
Proof. unfold stream, text_cells. simpl. by rewrite <- app_assoc. Qed.

Lemma stream_addDisplayList dl w :
  stream (snd (addDisplayList dl w)) = stream w ++ [u32 dl].
Proof. reflexivity. Qed.

Lemma stream_addMatrix m w : stream (snd (addMatrix m w)) = stream w ++ [u32 m].
Proof.
  unfold addMatrix. rewrite !bindR_eq. cbn [fst snd get].
  case_decide; reflexivity.
Qed.

Lemma stream_addBitmap b w : stream (snd (addBitmap b w)) = stream w ++ [u32 b].
Proof.
  unfold addBitmap. rewrite !bindR_eq. cbn [fst snd get].
  case_decide; [reflexivity|]. rewrite bindR_eq. reflexivity.
Qed.

Lemma stream_addColorFilter f w :
  stream (snd (addColorFilter f w)) = stream w ++ [u32 f].
Proof.
  unfold addColorFilter. rewrite !bindR_eq. cbn [fst snd get].
  case_decide; [reflexivity|]. rewrite bindR_eq. reflexivity.
Qed.

Lemma stream_addPath p w : stream (snd (addPath p w)) = stream w ++ [u32 p].
Proof.
  unfold addPath. case_decide as H; [by rewrite H|].
  rewrite !bindR_eq. cbn [fst snd get].
  destruct (mPathMap (resources (recorder w)) !! p); reflexivity.
Qed.

Lemma stream_addPaint p w : stream (snd (addPaint p w)) = stream w ++ [u32 p].
Proof.
  unfold addPaint. case_decide as H; [by rewrite H|].
  rewrite !bindR_eq. cbn [fst snd get].
  destruct (mPaintMap (resources (recorder w)) !! p); reflexivity.
Qed.

Lemma stream_addShader p w : stream (snd (addShader p w)) = stream w ++ [u32 p].
Proof.
  unfold addShader. case_decide as H; [by rewrite H|].
  rewrite !bindR_eq. cbn [fst snd get].
  destruct (mShaderMap (resources (recorder w)) !! p);
    [reflexivity|]. rewrite bindR_eq. reflexivity.
Qed.

Lemma stream_insertRestoreToCount w :
  stream (snd (insertRestoreToCount w)) = stream w ++ flushR_cells w.
Proof.
  unfold insertRestoreToCount, flushR_cells. rewrite bindR_eq.
  cbn [fst snd get]. case_decide.
  - rewrite !bindR_eq. unfold stream. simpl. by rewrite <- app_assoc.
  - simpl. by rewrite app_nil_r.
Qed.

Lemma stream_insertTranlate w :
  stream (snd (insertTranlate w)) = stream w ++ flushT_cells w.
Proof.
  unfold insertTranlate, flushT_cells. rewrite bindR_eq. cbn [fst snd get].
  destruct (mHasTranslate (recorder w)).
  - rewrite !bindR_eq. unfold stream. simpl. by rewrite <- !app_assoc.
  - simpl. by rewrite app_nil_r.
Qed.

Lemma flushT_insertRestoreToCount w :
  flushT_cells (snd (insertRestoreToCount w)) = flushT_cells w.
Proof.
  unfold insertRestoreToCount, flushT_cells. rewrite bindR_eq.
  cbn [fst snd get]. case_decide; [rewrite !bindR_eq|]; reflexivity.
Qed.

Lemma stream_finish w :
  stream (snd (finish w)) = stream w ++ flushR_cells w ++ flushT_cells w.
Proof.
  unfold finish. rewrite bindR_eq, stream_insertTranlate,
    stream_insertRestoreToCount, flushT_insertRestoreToCount.
  by rewrite <- app_assoc.
Qed.

Lemma stream_addOp op w :
  stream (snd (addOp op w))
  = stream w ++ flushR_cells w ++ flushT_cells w ++ [u32 (op_code op)].
Proof.
  unfold addOp. rewrite !bindR_eq. rewrite stream_modify.
  cbn [set_mHasDrawOps mWriter]. fold (stream (snd (writeInt (op_code op)
    (snd (insertTranlate (snd (insertRestoreToCount w))))))).
  rewrite stream_writeInt, stream_insertTranlate,
    stream_insertRestoreToCount, flushT_insertRestoreToCount.
  by rewrite <- !app_assoc.
Qed.

Lemma patch_slot (pre : list Z) (tag : Z) (cells : list Z) :
  <[length (pre ++ [tag]) :=
      u32 (Z.of_nat (length (((pre ++ [tag]) ++ [u32 0]) ++ cells))
           - Z.of_nat (length (pre ++ [tag])) - 1)]>
    (((pre ++ [tag]) ++ [u32 0]) ++ cells)
  = pre ++ tag :: u32 (Z.of_nat (length cells)) :: cells.
Proof.
  rewrite <- !app_assoc. simpl. rewrite !length_app. simpl.
  rewrite insert_app_r_alt by lia.
  replace (length pre + 1 - length pre)%nat with 1%nat by lia. simpl.
  f_equal. f_equal. f_equal. f_equal. lia.
Qed.

(** A culled operation: the slot that [addOp] reserved receives, in
    [addSkip], the number of cells written after it. *)
Lemma stream_addSkip op reject w w' cells :
  stream w' = stream (snd (addOp_reject op reject w)) ++ cells ->
  stream (snd (addSkip (fst (addOp_reject op reject w)) w'))
  = stream w ++ flushR_cells w ++ flushT_cells w ++ encode_op reject op cells.
Proof.
  unfold addOp_reject. rewrite !bindR_eq.
  set (w1 := snd (modify _ (snd (insertTranlate
                                    (snd (insertRestoreToCount w)))))).
  assert (stream w1 = stream w ++ flushR_cells w ++ flushT_cells w) as H1.
  { unfold w1. rewrite stream_modify. cbn [set_mHasDrawOps mWriter].
    fold (stream (snd (insertTranlate (snd (insertRestoreToCount w))))).
    rewrite stream_insertTranlate, stream_insertRestoreToCount,
      flushT_insertRestoreToCount. by rewrite <- app_assoc. }
  destruct reject.
  - rewrite !bindR_eq. cbn [fst snd retR get]. intros Hw'.
    unfold addSkip. rewrite stream_modify. cbn [set_mWriter mWriter].
    fold (stream w'). rewrite Hw'.
    change (mWriter (recorder ?x)) with (stream x).
    rewrite !stream_writeInt, H1, patch_slot. unfold encode_op.
    by rewrite <- !app_assoc.
  - rewrite !bindR_eq. cbn [fst snd retR addSkip]. intros Hw'.
    rewrite Hw', stream_writeInt, H1. unfold encode_op.
    by rewrite <- !app_assoc.
Qed.

Ltac stream_rw :=
  repeat first
    [ rewrite bindR_eq | rewrite stream_retR | rewrite stream_base
    | rewrite stream_base_ret | rewrite stream_modify_resources
    | rewrite stream_modify_cache | rewrite stream_paint_setAntiAlias
    | rewrite stream_addInt | rewrite stream_addFloat
    | rewrite stream_addPoint | rewrite stream_addBounds
    | rewrite stream_addSize | rewrite stream_addInts
    | rewrite stream_addUInts | rewrite stream_addFloats
    | rewrite stream_addText | rewrite stream_addDisplayList
    | rewrite stream_addMatrix | rewrite stream_addBitmap
    | rewrite stream_addColorFilter | rewrite stream_addPath
    | rewrite stream_addPaint | rewrite stream_addShader
    | rewrite stream_addOp ].

Ltac stream_plain :=
  stream_rw; rewrite <- ?app_assoc; reflexivity.

Ltac stream_culled :=
  rewrite ?bindR_eq; cbn [fst snd quickReject query get paint_of retR];
  erewrite stream_addSkip; [ | stream_rw; rewrite <- ?app_assoc; reflexivity ];
  reflexivity.

Lemma stream_restoreToCount saveCount w :
  stream (snd (restoreToCount saveCount w)) = stream w ++ flushT_cells w.
Proof.
  unfold restoreToCount. rewrite !bindR_eq, stream_base,
    stream_insertTranlate. reflexivity.
Qed.

Lemma stream_restore w :
  stream (snd (restore w)) = stream w ++ flushT_cells w.
Proof.
  unfold restore. rewrite bindR_eq. cbn [fst snd get]. case_decide.
  - rewrite bindR_eq. cbn [fst snd getSaveCount query get].
    apply stream_restoreToCount.
  - rewrite !bindR_eq, stream_base, stream_insertTranlate. reflexivity.
Qed.

Lemma stream_translate dx dy w :
  stream (snd (translate dx dy w)) = stream w ++ flushR_cells w.
Proof.
  unfold translate. rewrite !bindR_eq, stream_base,
    stream_insertRestoreToCount. reflexivity.
Qed.

(** What recording an operation appends to the stream: the flush of what
    was pending, then the operation, encoded. *)
Lemma record_stream c w :
  stream (snd (record c w)) = stream w ++ cells_of c w.
Proof.
  destruct c; unfold record, cells_of, recorded, encode, discard;
    cbn [op_of_call operands tagged].
  all: try (unfold callDrawGLFunction, save, saveLayer, saveLayerAlpha,
            rotate, scale, skew, setMatrix, concatMatrix, clipRect,
            drawLayer, drawColor, drawCircle, drawOval, drawArc, drawLines,
            drawPoints, resetShader, setupShader, resetColorFilter,
            setupColorFilter, resetShadow, setupShadow, resetPaintFilter,
            setupPaintFilter; stream_plain).
  all: try (unfold drawDisplayList, drawBitmap, drawBitmapRect, drawPatch;
            stream_culled).
  - apply stream_restore.
  - apply stream_restoreToCount.
  - apply stream_translate.
  - unfold drawBitmapMatrix. destruct (mapRect _ _) as [[[l t] r] b].
    stream_culled.
  - unfold drawBitmapMesh. destruct colors; stream_plain.
  - unfold drawRect. rewrite bindR_eq. cbn [fst snd paint_of].
    destruct (getStyle _); stream_culled.
  - unfold drawRoundRect. rewrite bindR_eq. cbn [fst snd paint_of].
    destruct (getStyle _); stream_culled.
  - unfold drawPath. rewrite bindR_eq. cbn [fst snd paint_of].
    destruct (computePathBounds _ _) as [[[[l t] o] wd] ht]. stream_culled.
  - unfold drawText. destruct text as [text|]; [|by rewrite app_nil_r].
    case_decide; [by rewrite app_nil_r|].
    rewrite !bindR_eq. cbn [fst snd paint_of paint_setAntiAlias heap paintAt].
    rewrite decide_True by reflexivity.
    destruct (getTextAlign _).
    + destruct (getFontMetrics _) as [fTop fBottom].
      cbn [op_of_call operands]. stream_culled.
    + cbn [op_of_call operands]. stream_culled.
    + cbn [op_of_call operands]. stream_culled.
  - unfold drawTextOnPath. destruct text as [text|]; [|by rewrite app_nil_r].
    case_decide; [by rewrite app_nil_r|].
    cbn [op_of_call operands]. stream_plain.
  - unfold drawPosText. destruct text as [text|]; [|by rewrite app_nil_r].
    case_decide; [by rewrite app_nil_r|].
    cbn [op_of_call operands]. stream_plain.
Qed.

End Streams.

(** ** What [replay] reads back from an encoded operation *)

Section Decoding.
Import Reader Replay Layout Recorder.

Lemma op_of_code_code op : op_of_code (op_code op) = Some op.
Proof. destruct op; reflexivity. Qed.

Lemma s32_code op : s32 (u32 (op_code op)) = op_code op.
Proof. destruct op; reflexivity. Qed.

Lemma code_untagged op :
  Z.land (op_code op) OP_MAY_BE_SKIPPED_MASK = 0.
Proof. destruct op; reflexivity. Qed.

Lemma code_tagged op :
  Z.land (s32 (u32 (Z.lor OP_MAY_BE_SKIPPED_MASK (op_code op))))
    OP_MAY_BE_SKIPPED_MASK <> 0.
Proof. destruct op; vm_compute; discriminate. Qed.

Lemma code_untag op :
  Z.land (s32 (u32 (Z.lor OP_MAY_BE_SKIPPED_MASK (op_code op))))
    (Z.lxor 0xFFFFFFFF OP_MAY_BE_SKIPPED_MASK)
  = op_code op.
Proof. destruct op; reflexivity. Qed.

Lemma getInt_cons v r : int32 v -> getInt (u32 v :: r) = Some (v, r).
Proof. intros H. unfold getInt, readInt. by rewrite s32_u32, s32_int32. Qed.

Lemma getUInt_cons v r : uint32 v -> getUInt (u32 v :: r) = Some (v, r).
Proof.
  intros H. rewrite (u32_uint32 v H). unfold getUInt, bindD, readInt, retD.
  by rewrite u32_s32, u32_uint32.
Qed.

Lemma getFloat_cons f r : getFloat (f :: r) = Some (f, r).
Proof. reflexivity. Qed.

Lemma skip_cells (cells rest : list Z) (size : Z) :
  size = 4 * Z.of_nat (length cells) ->
  skip size (cells ++ rest) = Some (cells, rest).
Proof. intros ->. apply skip_app. Qed.

Lemma take_all {A} (l : list A) (n : Z) :
  Z.of_nat (length l) = n -> take (Z.to_nat n) l = l.
Proof. intros <-. rewrite Nat2Z.id. apply firstn_all. Qed.

Lemma getFloats_cells values count r :
  int32 count -> array_ok values count ->
  getFloats (array_cells values count ++ r) = Some ((values, count), r).
Proof.
  intros Hc [H0 Hl]. unfold getFloats, array_cells, bindD.
  rewrite <- app_comm_cons, getInt_cons by assumption. rewrite (take_all _ _ Hl).
  rewrite (skip_cells values r) by lia. reflexivity.
Qed.

Lemma map_s32_u32 values :
  Forall int32 values -> map s32 (map u32 values) = values.
Proof.
  induction 1 as [|v values Hv _ IH]; simpl; [done|].
  by rewrite s32_u32, s32_int32, IH.
Qed.

Lemma getInts_cells values count r :
  uint32 count -> array_ok values count -> Forall int32 values ->
  getInts (array_cells (map u32 values) count ++ r)
  = Some ((values, count), r).
Proof.
  intros Hc [H0 Hl] Hv. unfold getInts, array_cells, bindD.
  rewrite <- app_comm_cons, getUInt_cons by assumption.
  rewrite take_all by (rewrite length_map; exact Hl).
  rewrite (skip_cells (map u32 values) r) by (rewrite length_map; lia).
  unfold retD. by rewrite map_s32_u32.
Qed.

Lemma getUInts_cells values count r :
  count < 128 -> array_ok values count ->
  getUInts (array_cells values count ++ r) = Some ((values, count), r).
Proof.
  intros Hc [H0 Hl]. unfold getUInts, array_cells, bindD, getInt, readInt.
  rewrite <- app_comm_cons. rewrite s8_small by lia. rewrite (take_all _ _ Hl).
  rewrite (skip_cells values r) by lia. reflexivity.
Qed.

Lemma skip_cells_up (cells rest : list Z) (size : Z) :
  0 <= size -> Z.to_nat ((size + 3) / 4) = length cells ->
  skip size (cells ++ rest) = Some (cells, rest).
Proof.
  intros H0 Hl. unfold skip. rewrite decide_True by assumption.
  rewrite Hl, decide_True by (rewrite length_app; lia).
  by rewrite take_app_length, drop_app_length.
Qed.

Lemma list_ind4 {A} (P : list A -> Prop) :
  P [] -> (forall a, P [a]) -> (forall a b, P [a; b]) ->
  (forall a b c, P [a; b; c]) ->
  (forall a b c d l, P l -> P (a :: b :: c :: d :: l)) ->
  forall l, P l.
Proof.
  intros H0 H1 H2 H3 H4.
  fix IH 1. intros [|a [|b [|c [|d l]]]];
    [apply H0 | apply H1 | apply H2 | apply H3 | apply H4, IH].
Qed.

Lemma pack_bytes_length (bytes : list Z) :
  Z.of_nat (length (pack_bytes bytes))
  = (Z.of_nat (length bytes) + 3) / 4.
Proof.
  induction bytes as [|a|a b|a b c|a b c d l IH] using list_ind4;
    try reflexivity.
  cbn [pack_bytes length]. rewrite !Nat2Z.inj_succ, IH.
  replace (Z.succ (Z.succ (Z.succ (Z.succ (Z.of_nat (length l))))) + 3)
    with ((Z.of_nat (length l) + 3) + 1 * 4) by lia.
  rewrite Z.div_add by lia. lia.
Qed.

Lemma bytes_of_cell_4 a b c d :
  byte a -> byte b -> byte c -> byte d ->
  bytes_of_cell (a + 256 * b + 65536 * c + 16777216 * d) = [a; b; c; d].
Proof.
  unfold byte, bytes_of_cell. intros Ha Hb Hc Hd.
  repeat f_equal; Z.div_mod_to_equations; lia.
Qed.

Lemma unpack_pack (bytes : list Z) :
  Forall byte bytes ->
  take (length bytes) (flat_map bytes_of_cell (pack_bytes bytes)) = bytes.
Proof.
  induction bytes as [|a|a b|a b c|a b c d l IH] using list_ind4;
    intros H.
  - reflexivity.
  - inversion_clear H as [|? ? Ha _].
    pose proof (bytes_of_cell_4 a 0 0 0 Ha) as E.
    cbn [pack_bytes flat_map app]. replace (a + 256 * 0 + 65536 * 0
      + 16777216 * 0) with a in E by lia.
    rewrite E by (unfold byte; lia). reflexivity.
  - inversion_clear H as [|? ? Ha H']. inversion_clear H' as [|? ? Hb _].
    pose proof (bytes_of_cell_4 a b 0 0 Ha Hb) as E.
    cbn [pack_bytes flat_map app]. replace (a + 256 * b + 65536 * 0
      + 16777216 * 0) with (a + 256 * b) in E by lia.
    rewrite E by (unfold byte; lia). reflexivity.
  - inversion_clear H as [|? ? Ha H']. inversion_clear H' as [|? ? Hb H].
    inversion_clear H as [|? ? Hc _].
    pose proof (bytes_of_cell_4 a b c 0 Ha Hb Hc) as E.
    cbn [pack_bytes flat_map app]. replace (a + 256 * b + 65536 * c
      + 16777216 * 0) with (a + 256 * b + 65536 * c) in E by lia.
    rewrite E by (unfold byte; lia). reflexivity.
  - inversion_clear H as [|? ? Ha H']. inversion_clear H' as [|? ? Hb H].
    inversion_clear H as [|? ? Hc H']. inversion_clear H' as [|? ? Hd H].
    cbn [pack_bytes flat_map]. rewrite bytes_of_cell_4 by assumption.
    cbn [app length take]. by rewrite IH.
Qed.

Lemma getText_cells text bytesCount r :
  text_ok (Some text) bytesCount ->
  getText (text_cells (Some text) bytesCount ++ r)
  = Some ((text, bytesCount), r).
Proof.
  intros (Hc & Hl & Hb). unfold getText, text_cells, bindD.
  rewrite <- app_comm_cons, getInt_cons by assumption.
  change (default [] (Some text)) with text. rewrite (take_all _ _ Hl).
  rewrite (skip_cells_up (pack_bytes text) r).
  - unfold retD. rewrite <- Hl, Nat2Z.id, unpack_pack by assumption.
    reflexivity.
  - lia.
  - rewrite <- Hl, <- pack_bytes_length. apply Nat2Z.id.
Qed.

Lemma replay_iteration_encode_op flags level saveCount tag op cells rest :
  (tag = true -> Z.land flags kReplayFlag_ClipChildren = 0) ->
  replay_iteration flags level saveCount (encode_op tag op cells ++ rest)
  = replay_case level saveCount (op_code op) (cells ++ rest).
Proof.
  intros Hclip. unfold encode_op, replay_iteration, bindD, readInt.
  destruct tag; rewrite <- !app_comm_cons; cbv beta iota.
  - rewrite decide_True by apply code_tagged.
    rewrite decide_False by (intros H; apply H, Hclip; reflexivity).
    by rewrite code_untag.
  - rewrite s32_code.
    rewrite decide_False by (intros H; apply H, code_untagged).
    reflexivity.
Qed.

Lemma uint32_s32 v : 0 <= s32 v -> uint32 (s32 v).
Proof.
  intros H. pose proof (s32_range v) as [_ H']. unfold uint32.
  change (2 ^ 31) with 2147483648 in H'. change (2 ^ 32) with 4294967296.
  lia.
Qed.

Lemma int32_small v : -128 <= v < 128 -> int32 v.
Proof. unfold int32. change (2 ^ 31) with 2147483648. lia. Qed.

Ltac dec_side :=
  first [ assumption | apply s32_range | apply int32_small; lia ].

Ltac dec_step :=
  first
    [ rewrite getInt_cons by dec_side
    | rewrite getUInt_cons by assumption
    | rewrite getFloat_cons
    | rewrite getFloats_cells by dec_side
    | rewrite getInts_cells by assumption
    | rewrite getUInts_cells by assumption
    | rewrite getText_cells
        by (unfold text_ok; split; [assumption | split; assumption]) ];
  cbv beta iota; rewrite <- ?app_assoc; cbn [app].

Ltac dec_run :=
  unfold getPaint, getPath, getMatrix, getBitmap, getShader,
    getColorFilter, getDisplayList, bindD, retD;
  rewrite <- ?app_assoc; cbn [app]; repeat dec_step;
  rewrite ?s32_u32, ?s32_int32 by assumption; try reflexivity.

(** Decoding an encoded operation yields the call it encodes and leaves
    the cursor behind its operands. *)
Lemma replay_case_operands level saveCount c rest :
  wf_call c -> has_text c ->
  replay_case level saveCount (op_code (op_of_call c)) (operands c ++ rest)
  = Some ([replayed saveCount level c], rest).
Proof.
  intros Hwf Ht. unfold replay_case. rewrite op_of_code_code.
  destruct c; cbn [op_of_call operands replayed wf_call has_text] in *;
    destruct_and?;
    try match type of Ht with
        | match ?t with Some _ => _ | None => _ end =>
            destruct t as [?|]; [|contradiction]; cbn [text_ok] in *;
            destruct_and?
        end;
    try dec_run.
  - destruct colors as [colors|]; destruct_and?; dec_run.
    + rewrite decide_False by discriminate.
      rewrite getInts_cells; [|apply uint32_s32, H4|assumption..].
      dec_run.
    + rewrite decide_True by reflexivity. dec_run.
  - destruct useCenter; dec_run.
Qed.

End Decoding.

(** ** Replaying a recording *)

Section Roundtrip.
Import Reader Replay Layout Recorder Session.
Context {S : Type} `{GL : OpenGLRenderer S} `{SK : Skia}.
Variable renderer_returns : Call -> bool.
Variables flags level saveCount : Z.
Hypothesis culling_off : Z.land flags kReplayFlag_ClipChildren = 0.
Implicit Types w : World S.

Local Abbreviation decodes :=
  (decodes renderer_returns flags level saveCount).

Lemma decodes_nil : decodes [] [].
Proof. intros rest. by rewrite prepend_nil. Qed.

Lemma decodes_app cells1 calls1 cells2 calls2 :
  decodes cells1 calls1 -> decodes cells2 calls2 ->
  decodes (cells1 ++ cells2) (calls1 ++ calls2).
Proof.
  intros H1 H2 rest. by rewrite <- app_assoc, H1, H2, prepend_app.
Qed.

Lemma decodes_iteration cells calls :
  (forall rest,
     replay_iteration flags level saveCount (cells ++ rest)
     = Some (calls, rest)) ->
  decodes cells calls.
Proof. intros H rest. apply replay_loop_step, H. Qed.

Lemma decodes_encode tag c :
  wf_call c -> has_text c ->
  decodes (encode tag c) [replayed saveCount level c].
Proof.
  intros Hwf Ht. apply decodes_iteration. intros rest. unfold encode.
  rewrite replay_iteration_encode_op by (intros _; exact culling_off).
  by apply replay_case_operands.
Qed.

Lemma Some_eq {A} (a b : A) : Some a = Some b -> a = b.
Proof. intros H. exact (f_equal (fun o => default a o) H). Qed.

Lemma recorded_wf c c' w :
  recorded c w = Some c' -> wf_call c -> wf_call c' /\ has_text c'.
Proof.
  intros H Hwf. destruct c; cbn [recorded] in H; cbn [wf_call] in Hwf;
    try discriminate H;
    try (apply Some_eq in H; subst c'; cbn [wf_call has_text]; split;
         [exact Hwf|exact I]).
  all: destruct text as [text|]; [|discriminate H].
  all: destruct (decide (count <= 0)); [discriminate H|].
  all: apply Some_eq in H; subst c'; cbn [wf_call has_text]; split;
    [exact Hwf|exact I].
Qed.

End Roundtrip.


(** ** The skip length of a culled operation *)

Section Skip_length.
Import Reader Replay Layout Recorder Session.
Context {S : Type} `{GL : OpenGLRenderer S} `{SK : Skia}.
Implicit Types w : World S.

Lemma cells_of_recorded c c' w :
  recorded c w = Some c' ->
  cells_of c w
  = flushR_cells w ++ flushT_cells w ++ encode (tagged c w) c'.
Proof.
  intros H. unfold cells_of.
  destruct c; try (rewrite H; reflexivity); discriminate H.
Qed.

(** C6, as the code has it.  For an operation recorded with the
    skippable tag, the cell after the opcode holds the number of 32-bit
    cells that the operands occupy, a quarter of their length in bytes;
    [replay] multiplies it by 4, and with culling on its jump lands on
    the cell after the operands. *)
Theorem skip_length_counts_operand_cells
    (c c' : Call) w (flags level saveCount : Z) (rest : list Z) :
  recorded c w = Some c' ->
  tagged c w = true ->
  4 * Z.of_nat (length (operands c')) < 2 ^ 31 ->
  Z.land flags kReplayFlag_ClipChildren <> 0 ->
  let opcode := u32 (Z.lor OP_MAY_BE_SKIPPED_MASK (op_code (op_of_call c'))) in
  let field := u32 (Z.of_nat (length (operands c'))) in
  stream (snd (record c w))
  = stream w ++ flushR_cells w ++ flushT_cells w
    ++ opcode :: field :: operands c'
  /\ 4 * field = writer_size (operands c')
  /\ replay_iteration flags level saveCount
       (opcode :: field :: operands c' ++ rest)
     = Some ([], rest).
Proof.
  intros Hrec Htag Hsmall Hclip opcode field.
  assert (field = Z.of_nat (length (operands c'))) as Hfield.
  { apply u32_uint32. unfold uint32. change (2 ^ 31) with 2147483648 in *.
    change (2 ^ 32) with 4294967296. lia. }
  split; [|split].
  - rewrite record_stream, (cells_of_recorded c c' w Hrec), Htag.
    reflexivity.
  - rewrite Hfield. reflexivity.
  - apply replay_iteration_skip.
    + apply code_tagged.
    + exact Hclip.
    + rewrite Hfield. apply s32_int32. unfold int32.
      change (2 ^ 31) with 2147483648 in *. lia.
    + exact Hsmall.
Qed.

End Skip_length.

(** C6 fails as stated: the rectangle of scenario 2 is recorded with the
    tag; its five operand cells take 20 bytes, and the skip length is 5.
    With 5 in the slot the jump of [replay] lands on the opcode that
    follows; with the byte count 20 in its place [replay] would jump 80
    bytes and miss it. *)
Lemma skip_length_is_not_a_byte_count :
  let SK := example_skia 0 0 (0, 0, 0, 0, 0) in
  let F := float_of_int in
  let w :=
    snd (Recorder.drawRect (F 1000) (F 1000) (F 1010) (F 1010) 77
           (example_world 100 100)) in
  let opcode := Z.lor OP_MAY_BE_SKIPPED_MASK (op_code DrawRect) in
  let operand_cells := [F 1000; F 1000; F 1010; F 1010; 77] in
  let next := [op_code Save; 3] in
  Session.stream w = opcode :: 5 :: operand_cells
  /\ writer_size operand_cells = 20
  /\ 5 <> writer_size operand_cells
  /\ Replay.replay_iteration kReplayFlag_ClipChildren 0 0
       (opcode :: 5 :: operand_cells ++ next)
     = Some ([], next)
  /\ Replay.replay_iteration kReplayFlag_ClipChildren 0 0
       (opcode :: 20 :: operand_cells ++ next)
     <> Some ([], next).
Proof. vm_compute. repeat split; discriminate. Qed.

Lemma skip_length_counts_operand_cells_witness :
  let SK := example_skia 0 0 (0, 0, 0, 0, 0) in
  let F := float_of_int in
  let c := renderer_drawRect (F 1000) (F 1000) (F 1010) (F 1010) 77 in
  let w := example_world 100 100 in
  Session.stream (snd (Session.record c w))
  = Session.stream w ++ Layout.flushR_cells w ++ Layout.flushT_cells w
    ++ u32 (Z.lor OP_MAY_BE_SKIPPED_MASK (op_code DrawRect))
       :: u32 5 :: Layout.operands c
  /\ 4 * u32 5 = writer_size (Layout.operands c)
  /\ Replay.replay_iteration 1 0 0
       (u32 (Z.lor OP_MAY_BE_SKIPPED_MASK (op_code DrawRect))
        :: u32 5 :: Layout.operands c ++ [1])
     = Some ([], [1]).
Proof.
  intros SK F c w.
  apply (skip_length_counts_operand_cells c c w 1 0 0 [1]).
  - reflexivity.
  - vm_compute. reflexivity.
  - vm_compute. reflexivity.
  - vm_compute. discriminate.
Defined.

(** ** Buffers put end to end *)

Section Locality.
Import Reader Replay Output Frame.

Lemma local_retD {A} (a : A) : local (retD a).
Proof. intros r a' r' rest [= <- <-]. reflexivity. Qed.

Lemma local_bindD {A B} (m : Dec A) (k : A -> Dec B) :
  local m -> (forall a, local (k a)) -> local (bindD m k).
Proof.
  intros Hm Hk r b r' rest. unfold bindD.
  destruct (m r) as [[a r1]|] eqn:E; [|discriminate].
  intros H. rewrite (Hm _ _ _ rest E). by apply Hk.
Qed.

Lemma local_readInt : local readInt.
Proof. intros [|w r] a r' rest; [discriminate|]. by intros [= <- <-]. Qed.

Lemma local_readScalar : local readScalar.
Proof. intros [|w r] a r' rest; [discriminate|]. by intros [= <- <-]. Qed.

Lemma local_skip size : local (skip size).
Proof.
  intros r a r' rest. unfold skip.
  destruct (decide (0 <= size)); [|discriminate].
  destruct (decide (_ <= length r)%nat) as [Hn|]; [|discriminate].
  intros [= <- <-].
  rewrite decide_True by (rewrite length_app; lia).
  by rewrite take_app_le, drop_app_le by exact Hn.
Qed.

Ltac local_step :=
  first
    [ apply local_retD
    | apply local_skip
    | apply local_readInt
    | apply local_readScalar
    | apply local_bindD; [ | intros ? ]
    | match goal with
      | |- local (match ?x with (_, _) => _ end) => destruct x
      | |- local (if ?d then _ else _) => destruct d
      end ].

Ltac local_tac := unfold getInt, getUInt, getFloat, getFloats, getInts,
    getUInts, getText, getPaint, getPath, getMatrix, getBitmap, getShader,
    getColorFilter, getDisplayList; repeat local_step.

Lemma local_replay_case level saveCount op :
  local (replay_case level saveCount op).
Proof.
  unfold replay_case. destruct (op_of_code op) as [[]|]; local_tac.
Qed.

Lemma local_replay_iteration flags level saveCount :
  local (replay_iteration flags level saveCount).
Proof.
  unfold replay_iteration. apply local_bindD; [apply local_readInt|].
  intros op. repeat local_step; apply local_replay_case.
Qed.

Lemma local_output_case level saveCount op :
  local (output_case level saveCount op).
Proof.
  unfold output_case, output_ResetShader.
  destruct (op_of_code op) as [[]|]; [local_tac..|].
  intros r a r' rest H. discriminate H.
Qed.

Lemma local_output_iteration level saveCount :
  local (output_iteration level saveCount).
Proof.
  unfold output_iteration. apply local_bindD; [apply local_readInt|].
  intros op. repeat local_step; apply local_output_case.
Qed.

Lemma replay_loop_app renderer_returns flags level saveCount n :
  forall a b calls needsInvalidate,
    (length a <= n)%nat ->
    replay_loop renderer_returns flags level saveCount a
    = Some (calls, needsInvalidate) ->
    replay_loop renderer_returns flags level saveCount (a ++ b)
    = prepend renderer_returns calls
        (replay_loop renderer_returns flags level saveCount b).
Proof.
  induction n as [|n IH]; intros a b calls ni Hn Ha.
  - destruct a; [|simpl in Hn; lia].
    rewrite replay_loop_equation_1 in Ha. injection Ha as <- <-.
    simpl. by rewrite prepend_nil.
  - destruct a as [|w a].
    + rewrite replay_loop_equation_1 in Ha. injection Ha as <- <-.
      simpl. by rewrite prepend_nil.
    + destruct (replay_iteration flags level saveCount (w :: a))
        as [[calls1 r']|] eqn:E.
      * rewrite (replay_loop_step _ _ _ _ _ _ _ E) in Ha.
        destruct (replay_loop renderer_returns flags level saveCount r')
          as [[calls2 ni2]|] eqn:E2; [|discriminate].
        simpl in Ha. injection Ha as <- <-.
        pose proof (shrinks_replay_iteration _ _ _ _ _ _ E) as Hlt.
        simpl in Hn, Hlt.
        apply (local_replay_iteration _ _ _ _ _ _ b) in E.
        rewrite (replay_loop_step _ _ _ _ _ _ _ E).
        rewrite (IH r' b calls2 ni2) by (lia || exact E2).
        by rewrite prepend_app.
      * rewrite replay_loop_stuck in Ha by done. discriminate.
Qed.

Lemma replay_loop_redraw renderer_returns flags level saveCount n :
  forall r calls needsInvalidate,
    (length r <= n)%nat ->
    replay_loop renderer_returns flags level saveCount r
    = Some (calls, needsInvalidate) ->
    needsInvalidate = existsb (needsInvalidate_of renderer_returns) calls.
Proof.
  induction n as [|n IH]; intros r calls ni Hn Hr.
  - destruct r; [|simpl in Hn; lia].
    rewrite replay_loop_equation_1 in Hr. by injection Hr as <- <-.
  - destruct r as [|w r].
    + rewrite replay_loop_equation_1 in Hr. by injection Hr as <- <-.
    + destruct (replay_iteration flags level saveCount (w :: r))
        as [[calls1 r']|] eqn:E.
      * rewrite (replay_loop_step _ _ _ _ _ _ _ E) in Hr.
        destruct (replay_loop renderer_returns flags level saveCount r')
          as [[calls2 ni2]|] eqn:E2; [|discriminate].
        simpl in Hr. injection Hr as <- <-.
        pose proof (shrinks_replay_iteration _ _ _ _ _ _ E) as Hlt.
        simpl in Hn, Hlt.
        rewrite (IH r' calls2 ni2) by (lia || exact E2).
        by rewrite existsb_app.
      * rewrite replay_loop_stuck in Hr by done. discriminate.
Qed.

(** X1.  Two buffers put end to end replay as the first and then the
    second: when the replay of [a] runs to its end, the replay of
    [a ++ b] makes the calls of [a], then goes on with [b] as if it had
    started there, and asks for a redraw when either part does. *)
Theorem replay_of_concatenation
    renderer_returns (a b : list Z) getSaveCount flags level calls_a redraw_a :
  Replay.replay renderer_returns a getSaveCount flags level
  = Some (calls_a, redraw_a) ->
  Replay.replay renderer_returns (a ++ b) getSaveCount flags level
  = match Replay.replay renderer_returns b getSaveCount flags level with
    | Some (calls_b, redraw_b) =>
        Some (calls_a ++ calls_b, redraw_a || redraw_b)
    | None => None
    end.
Proof.
  unfold Replay.replay. intros Ha.
  rewrite (replay_loop_app _ _ _ _ (length a) a b calls_a redraw_a) by done.
  unfold prepend.
  destruct (replay_loop _ _ _ _ b) as [[calls_b redraw_b]|]; [|done].
  by rewrite (replay_loop_redraw _ _ _ _ (length a) a calls_a redraw_a
               (le_n _) Ha).
Qed.

(** X2.  A replay asks for a redraw exactly when one of the calls whose
    answer it collects, [callDrawGLFunction] or [drawDisplayList], asked
    for one; no other operation can set the flag. *)
Theorem replay_redraw_comes_from_a_call
    renderer_returns (base : list Z) getSaveCount flags level calls redraw :
  Replay.replay renderer_returns base getSaveCount flags level
  = Some (calls, redraw) ->
  (redraw = true <->
   exists c, c ∈ calls /\ renderer_returns c = true
             /\ (Layout.op_of_call c = DrawGLFunction
                 \/ Layout.op_of_call c = DrawDisplayList)).
Proof.
  unfold Replay.replay. intros H.
  rewrite (replay_loop_redraw _ _ _ _ (length base) base calls redraw
             (le_n _) H).
  rewrite existsb_exists. split.
  - intros (c & Hin & Hc). exists c. rewrite list_elem_of_In.
    split; [exact Hin|].
    destruct c; try discriminate Hc; simpl in Hc; auto.
  - intros (c & Hin & Hc & Hop). exists c. rewrite <- list_elem_of_In.
    split; [exact Hin|].
    destruct c; destruct Hop as [Hop|Hop]; try discriminate Hop; exact Hc.
Qed.

End Locality.

Lemma replay_of_concatenation_witness :
  Replay.replay (fun _ => false)
    ([op_code Save; 3] ++ [op_code Restore]) 1 0 0
  = Some ([renderer_save 3] ++ [renderer_restore], false || false).
Proof.
  apply (replay_of_concatenation (fun _ => false) [op_code Save; 3]
           [op_code Restore] 1 0 0 [renderer_save 3] false).
  reflexivity.
Defined.

Lemma replay_redraw_comes_from_a_call_witness :
  true = true <->
  exists c, c ∈ [renderer_save 3; renderer_callDrawGLFunction 5]
            /\ true = true
            /\ (Layout.op_of_call c = DrawGLFunction
                \/ Layout.op_of_call c = DrawDisplayList).
Proof.
  apply (replay_redraw_comes_from_a_call (fun _ => true)
           [op_code Save; 3; op_code DrawGLFunction; 5] 1 0 0).
  reflexivity.
Defined.

(** ** Runs of restores *)

Section Restore_run.
Import Layout Recorder Session.
Context {S : Type} `{GL : OpenGLRenderer S} `{SK : Skia}.
Implicit Types w : World S.

Lemma restore_pending w :
  let n := mRestoreSaveCount (recorder w) in
  let count := gl_getSaveCount (gl (recorder w)) in
  let r' := recorder (snd (restore w)) in
  mHasTranslate r' = false
  /\ mRestoreSaveCount r'
     = (if decide (n < 0) then s32 (count - 1) else s32 (n - 1)).
Proof.
  unfold restore, restoreToCount, insertTranlate. rewrite !bindR_eq.
  cbn [fst snd get]. case_decide.
  - rewrite !bindR_eq.
    cbn [fst snd get getSaveCount query modify recorder
         set_mRestoreSaveCount mHasTranslate gl].
    destruct (mHasTranslate (recorder w)) eqn:E; rewrite ?bindR_eq; cbn;
      rewrite ?E; split; reflexivity.
  - rewrite !bindR_eq.
    cbn [fst snd get modify recorder set_mRestoreSaveCount mHasTranslate].
    destruct (mHasTranslate (recorder w)) eqn:E; rewrite ?bindR_eq; cbn;
      rewrite ?E; split; reflexivity.
Qed.

Lemma restores_pending (k : nat) : forall w,
  let n := mRestoreSaveCount (recorder w) in
  int32 n -> Z.of_nat k <= n + 1 ->
  mHasTranslate (recorder w) = false ->
  let w' := record_all (replicate k renderer_restore) w in
  stream w' = stream w
  /\ mHasTranslate (recorder w') = false
  /\ mRestoreSaveCount (recorder w') = n - Z.of_nat k.
Proof.
  induction k as [|k IH]; intros w n Hn Hk Hh w'.
  - unfold w', n. cbn. repeat split; [assumption|lia].
  - unfold w'. cbn [replicate record_all fold_left record].
    destruct (restore_pending w) as [H1 H2].
    cbn zeta in H2. rewrite decide_False in H2 by (fold n; lia).
    fold n in H2. unfold int32 in Hn. change (2 ^ 31) with 2147483648 in Hn.
    rewrite s32_int32 in H2
      by (unfold int32; change (2 ^ 31) with 2147483648; lia).
    destruct (IH (snd (restore w))) as (I1 & I2 & I3).
    + rewrite H2. unfold int32. change (2 ^ 31) with 2147483648. lia.
    + rewrite H2. lia.
    + exact H1.
    + unfold record_all in *. cbn zeta in *. rewrite I1, I2, I3, H2.
      rewrite stream_restore. unfold flushT_cells. rewrite Hh, app_nil_r.
      repeat split. lia.
Qed.

Lemma restore_run_pending (k : nat) w :
  let count := gl_getSaveCount (gl (recorder w)) in
  mRestoreSaveCount (recorder w) < 0 ->
  int32 (count - 1) ->
  (1 <= k)%nat -> Z.of_nat k <= count + 1 ->
  let w' := record_all (replicate k renderer_restore) w in
  stream w' = stream w ++ flushT_cells w
  /\ mHasTranslate (recorder w') = false
  /\ mRestoreSaveCount (recorder w') = count - Z.of_nat k.
Proof.
  intros count Hn Hc Hk1 Hk w'. destruct k as [|k]; [lia|].
  unfold w'. cbn [replicate record_all fold_left record].
  destruct (restore_pending w) as [H1 H2]. cbn zeta in H2.
  rewrite decide_True in H2 by exact Hn. fold count in H2.
  rewrite s32_int32 in H2 by exact Hc.
  destruct (restores_pending k (snd (restore w))) as (I1 & I2 & I3).
  - by rewrite H2.
  - rewrite H2. lia.
  - exact H1.
  - unfold record_all in *. cbn zeta in *. rewrite I1, I2, I3, H2.
    rewrite stream_restore. repeat split. lia.
Qed.

(** X5.  A run of [k] calls of [restore] that starts with no restore
    pending, on a recorder whose save count is [count], leaves one
    restore pending, to the count [count - k]: [finish], or the next
    operation that is recorded, writes for the whole run one
    [RestoreToCount] with that operand, after the translation that was
    pending when the run began.  When the run is one longer than the save
    count the pending count falls to -1, which stands for nothing
    pending, and no [RestoreToCount] is written at all. *)
Theorem restore_run_is_one_RestoreToCount (k : nat) w :
  let count := gl_getSaveCount (gl (recorder w)) in
  mRestoreSaveCount (recorder w) < 0 ->
  int32 (count - 1) ->
  (1 <= k)%nat -> Z.of_nat k <= count + 1 ->
  let w' := record_all (replicate k renderer_restore) w in
  let run :=
    if decide (Z.of_nat k <= count)
    then [u32 (op_code RestoreToCount); u32 (count - Z.of_nat k)]
    else [] in
  stream (snd (finish w')) = stream w ++ flushT_cells w ++ run
  /\ (forall c c',
        recorded c w' = Some c' ->
        stream (snd (record c w'))
        = stream w ++ flushT_cells w ++ run ++ encode (tagged c w') c').
Proof.
  intros count Hn Hc Hk1 Hk w' run.
  destruct (restore_run_pending k w Hn Hc Hk1 Hk) as (H1 & H2 & H3).
  fold w' in H1, H2, H3. fold count in H3.
  assert (flushR_cells w' = run) as HR.
  { unfold flushR_cells, run. rewrite H3.
    destruct (decide (Z.of_nat k <= count)).
    - by rewrite decide_True by lia.
    - by rewrite decide_False by lia. }
  assert (flushT_cells w' = []) as HT.
  { unfold flushT_cells. by rewrite H2. }
  split.
  - by rewrite stream_finish, H1, HR, HT, app_nil_r, <- app_assoc.
  - intros c c' Hrec.
    rewrite record_stream, (cells_of_recorded c c' w' Hrec).
    rewrite H1, HR, HT. cbn [app]. by rewrite <- app_assoc.
Qed.

End Restore_run.

Lemma restore_run_is_one_RestoreToCount_witness :
  let SK := example_skia 0 0 (0, 0, 0, 0, 0) in
  let saves := [renderer_save 3; renderer_save 3] in
  let w := Session.record_all saves (example_world 100 100) in
  Session.stream
    (snd (Recorder.finish
            (Session.record_all (replicate 2 renderer_restore) w)))
  = Session.stream w ++ [op_code RestoreToCount; 1]
  /\ Session.stream
       (snd (Recorder.finish
               (Session.record_all (replicate 4 renderer_restore) w)))
     = Session.stream w.
Proof.
  intros SK saves w. split.
  - destruct (restore_run_is_one_RestoreToCount 2 w) as [H _];
      [vm_compute; reflexivity
      | vm_compute; split; [discriminate | reflexivity]
      | lia | vm_compute; discriminate | exact H].
  - destruct (restore_run_is_one_RestoreToCount 4 w) as [H _];
      [vm_compute; reflexivity
      | vm_compute; split; [discriminate | reflexivity]
      | lia | vm_compute; discriminate | ].
    rewrite H. vm_compute. reflexivity.
Defined.

(** ** What a display list frees, and what a recorder gives back *)

Section Ownership.
Import ResourceCache DisplayListImpl.



(** X7.  Re-initialising a list from a recording that is not empty: the
    list first lets go of what it held and then takes over the buffer and
    the tables of the recorder, so that afterwards it holds the
    resources of the new recording and no other.  The count of every
    shared resource falls by the entries the list had for it and rises by
    the entries the recorder has; the old paints, paths and matrices are
    deleted. *)
Theorem reinit_replaces_the_resources
    {S} (r : DisplayListRenderer S) (dl : DisplayList) (p : Process)
    (R : Z) :
  mWriter r <> [] ->
  let dl' := fst (initFromDisplayListRenderer r true dl p) in
  let p' := snd (initFromDisplayListRenderer r true dl p) in
  mReader dl' = mWriter r
  /\ mSize dl' = writer_size (mWriter r)
  /\ dl_mBitmapResources dl' = mBitmapResources (resources r)
  /\ dl_mFilterResources dl' = mFilterResources (resources r)
  /\ dl_mShaders dl' = mShaders (resources r)
  /\ dl_mPaints dl' = mPaints (resources r)
  /\ dl_mPaths dl' = mPaths (resources r)
  /\ dl_mMatrices dl' = mMatrices (resources r)
  /\ refcount_in R p'
     = (refcount_in R p - list_entries R dl + recorder_entries R r)%nat
  /\ deleted (snd p')
     = deleted (snd p) ++ dl_mPaints dl ++ dl_mPaths dl ++ dl_mMatrices dl.
Proof.
  intros Hw dl' p'. unfold dl', p', initFromDisplayListRenderer.
  rewrite decide_False
    by (unfold writer_size; destruct (mWriter r); [congruence|simpl; lia]).
  destruct p as [c h]. cbn [clearResources init].
  cbn [fst snd mReader mSize dl_mBitmapResources dl_mFilterResources
       dl_mShaders dl_mPaints dl_mPaths dl_mMatrices app].
  repeat (split; [reflexivity|]). split.
  - unfold refcount_in, recorder_entries, list_entries, shared_entries.
    cbn [fst resourceCache].
    rewrite !refcount_retain_all, refcount_release_destroy_all,
      !refcount_release_all.
    cbn [init dl_mBitmapResources dl_mFilterResources dl_mShaders]. lia.
  - cbn [delete_all deleted]. by rewrite <- !app_assoc.
Qed.

End Ownership.

Lemma reinit_replaces_the_resources_witness :
  let SK := example_skia 10 10 (0, 0, 0, 0, 0) in
  let old :=
    recorder (snd (Recorder.drawBitmap 7 0 0 77 (example_world 100 100))) in
  let new :=
    recorder (snd (Recorder.drawBitmap 8 0 0 78 (example_world 100 100))) in
  let p0 := (example_caches, example_heap) in
  let first := DisplayListImpl.new old p0 in
  let second :=
    DisplayListImpl.initFromDisplayListRenderer new true (fst first)
      (snd first) in
  dl_mBitmapResources (fst second) = [8]
  /\ dl_mPaints (fst second) = [78]
  /\ DisplayListImpl.refcount_in 7 (snd second) = 0%nat
  /\ DisplayListImpl.refcount_in 8 (snd second) = 1%nat.
Proof.
  intros SK old new p0 first second.
  assert (mWriter new <> []) as Hw by (vm_compute; discriminate).
  destruct (reinit_replaces_the_resources new (fst first) (snd first) 7 Hw)
    as (_ & _ & H1 & _ & _ & H2 & _ & _ & H3 & _).
  destruct (reinit_replaces_the_resources new (fst first) (snd first) 8 Hw)
    as (_ & _ & _ & _ & _ & _ & _ & _ & H4 & _).
  split; [|split; [|split]].
  - etransitivity; [exact H1|reflexivity].
  - etransitivity; [exact H2|reflexivity].
  - etransitivity; [exact H3|reflexivity].
  - etransitivity; [exact H4|reflexivity].
Defined.

(** ** What recording leaves as it is *)

Section Frames.
Import Layout Recorder Session Effects.
Context {S : Type} `{GL : OpenGLRenderer S} `{SK : Skia}.
Implicit Types w : World S.

Lemma keeps_bindR {A B C} (f : World S -> A) (m : Rec S B)
    (k : B -> Rec S C) :
  keeps f m -> (forall b, keeps f (k b)) -> keeps f (bindR m k).
Proof.
  intros Hm Hk w. rewrite bindR_eq. by rewrite Hk, Hm.
Qed.

Ltac keeps_leaf :=
  first
    [ (intros ?; reflexivity)
    | (intros ?; unfold base_ret;
       match goal with
       | |- context [let '(_, _) := ?x in _] => destruct x
       end; reflexivity) ].

Ltac keeps_step :=
  lazymatch goal with
  | |- keeps _ (bindR _ _) => apply keeps_bindR; [ | intros ? ]
  | |- keeps _ (match ?x with _ => _ end) => destruct x
  | |- keeps _ _ => keeps_leaf
  end.

Ltac unfold_methods :=
  unfold record, discard, callDrawGLFunction, save, saveLayer,
    saveLayerAlpha, rotate, scale, skew, setMatrix, concatMatrix, clipRect,
    drawDisplayList, drawLayer, drawBitmap, drawBitmapMatrix,
    drawBitmapRect, drawBitmapMesh, drawPatch, drawColor, drawRect,
    drawRoundRect, drawCircle, drawOval, drawArc, drawPath, drawLines,
    drawPoints, drawText, drawTextOnPath, drawPosText, resetShader,
    setupShader, resetColorFilter, setupColorFilter, resetShadow,
    setupShadow, resetPaintFilter, setupPaintFilter, restore,
    restoreToCount, translate.

Ltac unfold_helpers :=
  unfold addOp, addOp_reject, addSkip, insertRestoreToCount, insertTranlate,
    addInt, addFloat, addPoint, addBounds, addSize, addInts, addUInts,
    addFloats, addText, addDisplayList, addMatrix, addPath, addPaint,
    addBitmap, addShader, addColorFilter, quickReject, getSaveCount.

Lemma record_keeps_state c :
  changes_state c = false -> keeps (fun w => gl (recorder w)) (record c).
Proof.
  intros Hc. destruct c; try discriminate Hc; unfold_methods;
    unfold_helpers; repeat keeps_step.
Qed.

Lemma record_keeps_deleted c :
  keeps (fun w => deleted (heap w)) (record c).
Proof.
  destruct c; unfold_methods; unfold_helpers; repeat keeps_step.
Qed.

(** X8.  Recording a drawing operation, or an operation that sets up or
    resets a shader, a color filter, a shadow or a paint filter, leaves
    the state of the base class (save stack, transform, clip) as it was:
    only the calls that [OpenGLRenderer] itself acts on move it.  And no
    method of the recorder deletes an object. *)
Theorem recording_leaves_the_renderer_state c w :
  (changes_state c = false ->
   gl (recorder (snd (record c w))) = gl (recorder w))
  /\ deleted (heap (snd (record c w))) = deleted (heap w).
Proof.
  split.
  - intros Hc. by apply (record_keeps_state c Hc w).
  - apply (record_keeps_deleted c w).
Qed.

Lemma entries_snoc R table x :
  DisplayListImpl.entries R (table ++ [x])
  = (DisplayListImpl.entries R table + if decide (x = R) then 1 else 0)%nat.
Proof.
  unfold DisplayListImpl.entries. rewrite count_occ_app. simpl.
  destruct (Z.eq_dec x R), (decide (x = R)); congruence || lia.
Qed.

Lemma refcount_increment r R c :
  ResourceCache.refcount R (ResourceCache.incrementRefcount r c)
  = (ResourceCache.refcount R c + if decide (r = R) then 1 else 0)%nat.
Proof.
  destruct (decide (r = R)) as [->|Hne].
  - rewrite refcount_increment_eq. lia.
  - rewrite refcount_increment_ne by assumption. lia.
Qed.

Lemma addBitmap_keeps_held R bitmap :
  keeps (@held_elsewhere S R) (addBitmap bitmap).
Proof.
  intros w. unfold addBitmap. rewrite !bindR_eq. cbn [fst snd get].
  case_decide; [reflexivity|]. rewrite bindR_eq.
  unfold held_elsewhere, DisplayListImpl.recorder_entries,
    DisplayListImpl.shared_entries.
  cbn [fst snd modify_resources modify modify_cache recorder caches
       resources set_resources resourceCache mBitmapResources
       mFilterResources mShaders addInt writeInt set_mWriter].
  rewrite entries_snoc, refcount_increment. case_decide; lia.
Qed.

Lemma addColorFilter_keeps_held R colorFilter :
  keeps (@held_elsewhere S R) (addColorFilter colorFilter).
Proof.
  intros w. unfold addColorFilter. rewrite !bindR_eq. cbn [fst snd get].
  case_decide; [reflexivity|]. rewrite bindR_eq.
  unfold held_elsewhere, DisplayListImpl.recorder_entries,
    DisplayListImpl.shared_entries.
  cbn [fst snd modify_resources modify modify_cache recorder caches
       resources set_resources resourceCache mBitmapResources
       mFilterResources mShaders addInt writeInt set_mWriter].
  rewrite entries_snoc, refcount_increment. case_decide; lia.
Qed.

Lemma addShader_keeps_held R shader :
  keeps (@held_elsewhere S R) (addShader shader).
Proof.
  intros w. unfold addShader. case_decide; [reflexivity|].
  rewrite !bindR_eq. cbn [fst snd get].
  destruct (mShaderMap (resources (recorder w)) !! shader); [reflexivity|].
  rewrite bindR_eq.
  unfold held_elsewhere, DisplayListImpl.recorder_entries,
    DisplayListImpl.shared_entries.
  cbn [fst snd modify_resources modify modify_cache recorder caches
       resources set_resources resourceCache mBitmapResources
       mFilterResources mShaders addInt writeInt set_mWriter].
  rewrite entries_snoc, refcount_increment. case_decide; lia.
Qed.

Ltac held_step :=
  lazymatch goal with
  | |- keeps _ (addBitmap _) => apply addBitmap_keeps_held
  | |- keeps _ (addColorFilter _) => apply addColorFilter_keeps_held
  | |- keeps _ (addShader _) => apply addShader_keeps_held
  | |- keeps _ _ => keeps_step
  end.

Ltac unfold_plain_helpers :=
  unfold addOp, addOp_reject, addSkip, insertRestoreToCount, insertTranlate,
    addInt, addFloat, addPoint, addBounds, addSize, addInts, addUInts,
    addFloats, addText, addDisplayList, addMatrix, addPath, addPaint,
    quickReject, getSaveCount.

Lemma record_keeps_held R c : keeps (@held_elsewhere S R) (record c).
Proof.
  destruct c; unfold_methods; unfold_plain_helpers; repeat held_step.
Qed.

Lemma record_all_keeps_held R cs w :
  held_elsewhere R (record_all cs w) = held_elsewhere R w.
Proof.
  revert w. induction cs as [|c cs IH]; intros w; [reflexivity|].
  cbn [record_all fold_left]. unfold record_all in IH.
  by rewrite IH, (record_keeps_held R c w).
Qed.

Lemma finish_keeps_held R : keeps (@held_elsewhere S R) finish.
Proof. unfold finish. unfold_plain_helpers. repeat keeps_step. Qed.

(** X9.  Throughout a recording the recorder holds one reference for
    every entry of its bitmap, color filter and shader tables: whatever
    is recorded, the count of a resource in the cache moves by as much as
    the number of its entries in the recorder does. *)
Theorem recorder_holds_a_reference_per_entry (R : Z) cs w :
  let w' := snd (finish (record_all cs w)) in
  (ResourceCache.refcount R (resourceCache (caches w'))
   + DisplayListImpl.recorder_entries R (recorder w))%nat
  = (ResourceCache.refcount R (resourceCache (caches w))
     + DisplayListImpl.recorder_entries R (recorder w'))%nat.
Proof.
  intros w'.
  pose proof (finish_keeps_held R (record_all cs w)) as H1.
  pose proof (record_all_keeps_held R cs w) as H2.
  fold w' in H1. unfold held_elsewhere in *. lia.
Qed.

End Frames.

Lemma recording_leaves_the_renderer_state_witness :
  let SK := example_skia 0 0 (0, 0, 0, 0, 0) in
  let w := example_world 100 100 in
  gl (recorder (snd (Session.record
                       (renderer_drawRect 0 0 0 0 77) w)))
  = gl (recorder w).
Proof.
  intros SK w.
  apply (proj1 (recording_leaves_the_renderer_state
                  (renderer_drawRect 0 0 0 0 77) w)).
  reflexivity.
Defined.

(** ** The references of a session, from recording to destruction *)

Section Lifecycle.
Import ResourceCache DisplayListImpl Layout Recorder Session Effects.
Context {S : Type} `{GL : OpenGLRenderer S} `{SK : Skia}.
Implicit Types w : World S.

Lemma reset_effect w R :
  let w' := snd (reset w) in
  stream w' = []
  /\ recorder_entries R (recorder w') = 0%nat
  /\ refcount R (resourceCache (caches w'))
     = (refcount R (resourceCache (caches w))
        - recorder_entries R (recorder w))%nat
  /\ mHasDrawOps (recorder w') = false.
Proof.
  unfold reset. rewrite !bindR_eq.
  cbn [fst snd get modify modify_cache modify_resources recorder caches
       resourceCache set_mWriter set_resources set_mHasDrawOps resources
       mWriter mHasDrawOps stream].
  split; [reflexivity|]. split; [reflexivity|]. split; [|reflexivity].
  unfold recorder_entries, shared_entries.
  rewrite !refcount_release_all. lia.
Qed.

Lemma new_effect (r : DisplayListRenderer S) (p : Process) R :
  let taken := if decide (mWriter r = []) then 0%nat
               else recorder_entries R r in
  list_entries R (fst (DisplayListImpl.new r p)) = taken
  /\ refcount_in R (snd (DisplayListImpl.new r p)) = (refcount_in R p + taken)%nat.
Proof.
  intros taken. unfold taken. case_decide as Hw.
  - unfold DisplayListImpl.new, initFromDisplayListRenderer. rewrite Hw.
    rewrite decide_True by reflexivity. cbn [fst snd]. split; [reflexivity|lia].
  - destruct (new_entries r p R Hw) as (H1 & H2 & _). by split.
Qed.


(** X11.  The references of a session come back.  Record any
    operations on a recorder whose tables hold no entry for [R], finish,
    take a new display list, reset the recorder: the count of [R] then
    stands above its value before the session by the entries that the
    list holds for it.  Destroy the list: the count is what it was before
    the session. *)
Theorem session_returns_its_references cs w R :
  recorder_entries R (recorder w) = 0%nat ->
  let w1 := snd (finish (record_all cs w)) in
  let dl := fst (getDisplayList None w1) in
  let w2 := snd (reset (snd (getDisplayList None w1))) in
  refcount R (resourceCache (caches w2))
  = (refcount R (resourceCache (caches w)) + list_entries R dl)%nat
  /\ refcount_in R (destroy dl (caches w2, heap w2))
     = refcount R (resourceCache (caches w)).
Proof.
  intros H0 w1 dl w2.
  assert ((refcount R (resourceCache (caches w1)) + 0)%nat
          = (refcount R (resourceCache (caches w))
             + recorder_entries R (recorder w1))%nat) as Hb.
  { pose proof (finish_keeps_held R (record_all cs w)) as Hf.
    pose proof (record_all_keeps_held R cs w) as Hr.
    fold w1 in Hf. unfold held_elsewhere in Hf, Hr. lia. }
  destruct (new_effect (recorder w1) (caches w1, heap w1) R) as [Hl Hc].
  set (taken := if decide (mWriter (recorder w1) = []) then 0%nat
                else recorder_entries R (recorder w1)) in *.
  assert (taken <= recorder_entries R (recorder w1))%nat as Hle
    by (unfold taken; case_decide; lia).
  unfold getDisplayList in dl, w2.
  destruct (DisplayListImpl.new (recorder w1) (caches w1, heap w1)) as [dl0 [c h]] eqn:En.
  cbn [fst snd] in Hl, Hc. unfold refcount_in in Hc. cbn [fst] in Hc.
  assert (list_entries R dl = taken) as Hdl by exact Hl.
  destruct (reset_effect
              {| recorder := recorder w1; caches := c; heap := h |} R)
    as (_ & _ & Hr & _).
  cbn [fst snd] in w2. fold w2 in Hr. cbn [caches recorder] in Hr.
  assert (refcount R (resourceCache (caches w2))
          = (refcount R (resourceCache (caches w)) + list_entries R dl)%nat)
    as Hfirst by (cbn zeta in Hb; rewrite Hdl; clearbody taken; lia).
  split; [exact Hfirst|].
  rewrite (proj1 (destroy_entries dl (caches w2, heap w2) R)).
  unfold refcount_in. cbn [fst]. rewrite Hfirst. lia.
Qed.

End Lifecycle.

(** ** The mesh buffers of [Caches] *)

Section Mesh_buffers.
Import MeshCaches.
Variable REGION_MESH_QUAD_COUNT : nat.

Lemma last_cons_default (z : Z) (l : list Z) (d d' : Z) :
  List.last (z :: l) d = List.last (z :: l) d'.
Proof.
  revert z. induction l as [|y l IH]; intros z; [reflexivity|].
  change (List.last (z :: y :: l) d) with (List.last (y :: l) d).
  change (List.last (z :: y :: l) d') with (List.last (y :: l) d').
  apply IH.
Qed.

Lemma last_app_default (l1 l2 : list Z) (d : Z) :
  List.last (l1 ++ l2) d = List.last l2 (List.last l1 d).
Proof.
  induction l1 as [|x l1 IH]; [reflexivity|].
  destruct l1 as [|y l1].
  - destruct l2 as [|z l2]; [reflexivity|].
    change ([x] ++ z :: l2) with (x :: z :: l2).
    change (List.last (x :: z :: l2) d) with (List.last (z :: l2) d).
    apply last_cons_default.
  - change (List.last ((x :: y :: l1) ++ l2) d)
      with (List.last ((y :: l1) ++ l2) d).
    rewrite IH. reflexivity.
Qed.

Lemma changes_app (x : Z) (l1 l2 : list Z) :
  changes (x :: l1) -> changes (List.last l1 x :: l2) ->
  changes (x :: l1 ++ l2).
Proof.
  revert x. induction l1 as [|y l1 IH]; intros x H1 H2; [exact H2|].
  destruct H1 as [Hne H1]. split; [exact Hne|].
  apply IH; [exact H1|].
  destruct l1 as [|z l1]; [exact H2|].
  rewrite (last_cons_default z l1 y x). exact H2.
Qed.

Lemma serve_binds (c : Caches) (q : Request) :
  exists g,
    gl_calls (serve REGION_MESH_QUAD_COUNT c q) = gl_calls c ++ g
    /\ array_buffer_binding (mCurrentBuffer c) g
       = mCurrentBuffer (serve REGION_MESH_QUAD_COUNT c q)
    /\ changes (mCurrentBuffer c :: array_binds g).
Proof.
  destruct q as [buffer| | |array fresh name]; cbn [serve].
  - unfold bindMeshBuffer_buffer. case_decide.
    + eexists. split; [reflexivity|]. split; [reflexivity|].
      split; [assumption|exact I].
    + exists []. rewrite app_nil_r. repeat split.
  - unfold bindMeshBuffer, bindMeshBuffer_buffer. case_decide.
    + eexists. split; [reflexivity|]. split; [reflexivity|].
      split; [assumption|exact I].
    + exists []. rewrite app_nil_r. repeat split.
  - unfold unbindMeshBuffer. case_decide.
    + eexists. split; [reflexivity|]. split; [reflexivity|].
      split; [assumption|exact I].
    + exists []. rewrite app_nil_r. repeat split.
  - unfold getRegionMesh. destruct (mRegionMesh c).
    + eexists. split; [reflexivity|]. repeat split.
    + eexists. split; [reflexivity|]. repeat split.
Qed.

Lemma serve_all_binds (qs : list Request) (c : Caches) :
  let c' := serve_all REGION_MESH_QUAD_COUNT qs c in
  exists g,
    gl_calls c' = gl_calls c ++ g
    /\ array_buffer_binding (mCurrentBuffer c) g = mCurrentBuffer c'
    /\ changes (mCurrentBuffer c :: array_binds g).
Proof.
  revert c. induction qs as [|q qs IH]; intros c.
  - exists []. cbn. rewrite app_nil_r. repeat split.
  - cbn [serve_all fold_left].
    destruct (serve_binds c q) as (g1 & Hg1 & Hb1 & Hc1).
    destruct (IH (serve REGION_MESH_QUAD_COUNT c q)) as (g2 & Hg2 & Hb2 & Hc2).
    exists (g1 ++ g2). unfold serve_all in *. cbn zeta in *.
    unfold array_buffer_binding, array_binds in *.
    split; [|split].
    + by rewrite Hg2, Hg1, <- app_assoc.
    + by rewrite omap_app, last_app_default, Hb1, Hb2.
    + rewrite omap_app. apply changes_app; [exact Hc1|].
      by rewrite Hb1.
Qed.

(** X12.  From the construction of the caches on, however the mesh
    buffer is bound and unbound and whenever the region mesh is fetched
    in between, [mCurrentBuffer] is the buffer that the calls made so far
    have bound to [GL_ARRAY_BUFFER], and no call binds the buffer that is
    bound already: every [glBindBuffer] on that target names another
    buffer than the one before it. *)
Theorem mesh_buffer_binding_is_tracked
    (REQUIRED_TEXTURE_UNITS_COUNT sizeof_gMeshVertices : Z)
    (gMeshVertices : list Z)
    (maxTextureUnits name maxTextureSize_ indeterminate : Z)
    (qs : list Request) :
  let c := serve_all REGION_MESH_QUAD_COUNT qs
             (new REQUIRED_TEXTURE_UNITS_COUNT sizeof_gMeshVertices
                gMeshVertices maxTextureUnits name maxTextureSize_
                indeterminate) in
  array_buffer_binding 0 (gl_calls c) = mCurrentBuffer c
  /\ changes (array_binds (gl_calls c)).
Proof.
  intros c.
  destruct (serve_all_binds qs
              (new REQUIRED_TEXTURE_UNITS_COUNT sizeof_gMeshVertices
                 gMeshVertices maxTextureUnits name maxTextureSize_
                 indeterminate)) as (g & Hg & Hb & Hc).
  fold c in Hg, Hb. cbn [new mCurrentBuffer gl_calls] in Hg, Hb, Hc.
  unfold array_buffer_binding, array_binds in *.
  rewrite Hg, omap_app. cbn [omap]. split.
  - by rewrite last_app_default.
  - exact Hc.
Qed.

Lemma set_quad_length (a : list Z) (i : nat) :
  length (set_quad a i) = length a.
Proof. unfold set_quad. by rewrite !length_insert. Qed.

Lemma set_quad_other (a : list Z) (i j : nat) :
  (j < i * 6 \/ i * 6 + 6 <= j)%nat -> set_quad a i !! j = a !! j.
Proof.
  intros H. unfold set_quad. by rewrite !list_lookup_insert_ne by lia.
Qed.

Lemma set_quad_own (a : list Z) (i t : nat) :
  (t < 6)%nat -> (i * 6 + 6 <= length a)%nat ->
  set_quad a i !! (i * 6 + t)%nat
  = Some (u16 (u16 (Z.of_nat i * 4) + corner t)).
Proof.
  intros Ht Hl. unfold set_quad.
  destruct t as [|[|[|[|[|[|t]]]]]]; [..|lia]; cbn [corner].
  - rewrite !list_lookup_insert_ne by lia.
    replace (i * 6 + 0)%nat with (i * 6)%nat by lia.
    rewrite list_lookup_insert_eq by lia.
    unfold u16. by rewrite Z.add_0_r, Z.mod_mod.
  - rewrite !list_lookup_insert_ne by lia.
    by rewrite list_lookup_insert_eq by (rewrite ?length_insert; lia).
  - rewrite !list_lookup_insert_ne by lia.
    by rewrite list_lookup_insert_eq by (rewrite ?length_insert; lia).
  - rewrite !list_lookup_insert_ne by lia.
    by rewrite list_lookup_insert_eq by (rewrite ?length_insert; lia).
  - rewrite !list_lookup_insert_ne by lia.
    by rewrite list_lookup_insert_eq by (rewrite ?length_insert; lia).
  - by rewrite list_lookup_insert_eq by (rewrite ?length_insert; lia).
Qed.

Lemma regionIndices_loop (k : nat) (a : list Z) :
  (k * 6 <= length a)%nat ->
  let indices := fold_left set_quad (seq 0 k) a in
  length indices = length a
  /\ forall i t, (i < k)%nat -> (t < 6)%nat ->
       indices !! (i * 6 + t)%nat
       = Some (u16 (u16 (Z.of_nat i * 4) + corner t)).
Proof.
  induction k as [|k IH]; intros Hl.
  - split; [reflexivity|]. intros i t Hi. lia.
  - rewrite seq_S, fold_left_app. cbn [fold_left Nat.add].
    destruct IH as [IH1 IH2]; [lia|]. cbn zeta in IH1, IH2. split.
    + by rewrite set_quad_length.
    + intros i t Hi Ht. destruct (decide (i = k)) as [->|Hne].
      * apply set_quad_own; [exact Ht|]. rewrite IH1. lia.
      * rewrite set_quad_other by lia. apply IH2; [lia|exact Ht].
Qed.

(** X13.  The index buffer of the region mesh, as the loop of
    [getRegionMesh] fills it for a mesh of up to 16384 quads: whatever the
    array held when it was allocated, the six indices of the quad [i]
    name the corners 0, 1, 2 and 2, 1, 3 of that quad, that is the
    vertices [4 * i + corner] of the mesh, all of them inside the mesh,
    and none is cut short by the 16 bits of an index. *)
Theorem region_mesh_indices (fresh : list Z) (i t : nat) :
  length fresh = (REGION_MESH_QUAD_COUNT * 6)%nat ->
  (i < REGION_MESH_QUAD_COUNT)%nat -> (t < 6)%nat ->
  4 * Z.of_nat REGION_MESH_QUAD_COUNT <= 65536 ->
  let indices := regionIndices REGION_MESH_QUAD_COUNT fresh in
  length indices = (REGION_MESH_QUAD_COUNT * 6)%nat
  /\ indices !! (i * 6 + t)%nat = Some (4 * Z.of_nat i + corner t)
  /\ 0 <= 4 * Z.of_nat i + corner t < 4 * Z.of_nat REGION_MESH_QUAD_COUNT.
Proof.
  intros Hl Hi Ht Hn indices.
  destruct (regionIndices_loop REGION_MESH_QUAD_COUNT fresh) as [H1 H2];
    [lia|]. fold (regionIndices REGION_MESH_QUAD_COUNT fresh) in H1, H2.
  fold indices in H1, H2.
  assert (0 <= corner t <= 3) as Hc
    by (destruct t as [|[|[|[|[|t]]]]]; cbn [corner]; lia).
  split; [by rewrite H1|]. split; [|lia].
  rewrite (H2 i t Hi Ht). unfold u16. f_equal.
  rewrite (Z.mod_small (Z.of_nat i * 4)) by lia.
  rewrite Z.mod_small by lia. lia.
Qed.

Lemma serve_keeps_region_mesh (c : Caches) (q : Request) (mesh : Z) :
  mRegionMesh c = Some mesh ->
  let c' := serve REGION_MESH_QUAD_COUNT c q in
  mRegionMesh c' = Some mesh
  /\ mRegionMeshIndices c' = mRegionMeshIndices c
  /\ exists g,
       gl_calls c' = gl_calls c ++ g
       /\ Forall (fun x => exists target buffer,
                             x = glBindBuffer target buffer) g.
Proof.
  intros Hm. destruct q as [buffer| | |array fresh name]; cbn [serve].
  - unfold bindMeshBuffer_buffer. case_decide.
    + repeat split; [exact Hm|]. eexists. split; [reflexivity|].
      repeat constructor. by eexists _, _.
    + repeat split; [exact Hm|]. exists []. by rewrite app_nil_r.
  - unfold bindMeshBuffer, bindMeshBuffer_buffer. case_decide.
    + repeat split; [exact Hm|]. eexists. split; [reflexivity|].
      repeat constructor. by eexists _, _.
    + repeat split; [exact Hm|]. exists []. by rewrite app_nil_r.
  - unfold unbindMeshBuffer. case_decide.
    + repeat split; [exact Hm|]. eexists. split; [reflexivity|].
      repeat constructor. by eexists _, _.
    + repeat split; [exact Hm|]. exists []. by rewrite app_nil_r.
  - unfold getRegionMesh. rewrite Hm. cbn [snd].
    repeat split; [exact Hm|]. eexists. split; [reflexivity|].
    repeat constructor. by eexists _, _.
Qed.

(** X14.  The region mesh is built once.  From the moment it exists,
    whatever is asked of the caches, the mesh and its index buffer stay
    the same, [getRegionMesh] returns that mesh, and the only calls made
    on the GL are binds: no buffer is generated and no data is uploaded
    again. *)
Theorem region_mesh_is_built_once
    (qs : list Request) (c : Caches) (mesh : Z) :
  mRegionMesh c = Some mesh ->
  let c' := serve_all REGION_MESH_QUAD_COUNT qs c in
  mRegionMesh c' = Some mesh
  /\ mRegionMeshIndices c' = mRegionMeshIndices c
  /\ (forall array fresh name,
        fst (getRegionMesh REGION_MESH_QUAD_COUNT array fresh name c')
        = mesh)
  /\ exists g,
       gl_calls c' = gl_calls c ++ g
       /\ Forall (fun x => exists target buffer,
                             x = glBindBuffer target buffer) g.
Proof.
  revert c. induction qs as [|q qs IH]; intros c Hm.
  - cbn. repeat split; [exact Hm| |].
    + intros array fresh name. unfold getRegionMesh. by rewrite Hm.
    + exists []. by rewrite app_nil_r.
  - cbn [serve_all fold_left].
    destruct (serve_keeps_region_mesh c q mesh Hm)
      as (H1 & H2 & g1 & Hg1 & Hf1).
    destruct (IH _ H1) as (I1 & I2 & I3 & g2 & Hg2 & Hf2).
    unfold serve_all in *. cbn zeta in *.
    split; [exact I1|]. split; [by rewrite I2|]. split; [exact I3|].
    exists (g1 ++ g2). split.
    + by rewrite Hg2, Hg1, <- app_assoc.
    + by apply Forall_app.
Qed.

End Mesh_buffers.

Lemma region_mesh_indices_witness :
  let indices := MeshCaches.regionIndices 2 (replicate 12 7) in
  length indices = 12%nat
  /\ indices !! 11%nat = Some 7
  /\ 0 <= 7 < 8.
Proof.
  apply (region_mesh_indices 2 (replicate 12 7) 1 5);
    [reflexivity | lia | lia | vm_compute; discriminate].
Defined.

Lemma region_mesh_is_built_once_witness :
  let c := snd (MeshCaches.getRegionMesh 2 1000 (replicate 12 0) 5
                  (MeshCaches.new 2 64 [] 8 4 2048 0)) in
  let c' := MeshCaches.serve_all 2
              [MeshCaches.request_unbindMeshBuffer;
               MeshCaches.request_getRegionMesh 2000 [] 6] c in
  MeshCaches.mRegionMesh c' = Some 1000
  /\ MeshCaches.gl_calls c'
     = MeshCaches.gl_calls c
       ++ [MeshCaches.glBindBuffer MeshCaches.GL_ARRAY_BUFFER 0;
           MeshCaches.glBindBuffer MeshCaches.GL_ELEMENT_ARRAY_BUFFER 5].
Proof.
  intros c c'.
  destruct (region_mesh_is_built_once 2
              [MeshCaches.request_unbindMeshBuffer;
               MeshCaches.request_getRegionMesh 2000 [] 6] c 1000 eq_refl)
    as (H & _).
  split; [exact H|reflexivity].
Defined.

(** ** How many calls a replay makes *)

Section Call_count.
Import Reader Replay.






End Call_count.


Lemma session_returns_its_references_witness :
  let SK := example_skia 10 10 (0, 0, 0, 0, 0) in
  let w := example_world 100 100 in
  let cs := [renderer_drawBitmap 7 0 0 77; renderer_drawBitmap 7 0 0 77] in
  let w1 := snd (Recorder.finish (Session.record_all cs w)) in
  let dl := fst (Recorder.getDisplayList None w1) in
  let w2 := snd (Recorder.reset (snd (Recorder.getDisplayList None w1))) in
  ResourceCache.refcount 7 (resourceCache (caches w2)) = 1%nat
  /\ DisplayListImpl.refcount_in 7
       (DisplayListImpl.destroy dl (caches w2, heap w2)) = 0%nat.
Proof.
  intros SK w cs w1 dl w2.
  destruct (session_returns_its_references cs w 7 eq_refl) as [H1 H2].
  split.
  - etransitivity; [exact H1|reflexivity].
  - etransitivity; [exact H2|reflexivity].
Defined.

(** ** The recorder against what is expected of it *)

Section Simulation.
Import Reader Replay Layout Recorder Session Effects Expected.
Context {S : Type} `{GL : OpenGLRenderer S} `{SK : Skia}.
Implicit Types w : World S.

Ltac fields_leaf :=
  first
    [ (intros ?; reflexivity)
    | (intros ?; unfold base_ret;
       match goal with
       | |- context [let '(_, _) := ?x in _] => destruct x
       end; reflexivity) ].

Ltac fields_step :=
  lazymatch goal with
  | |- keeps _ (bindR _ _) => apply keeps_bindR; [ | intros ? ]
  | |- keeps _ (match ?x with _ => _ end) => destruct x
  | |- keeps _ _ => fields_leaf
  end.

Ltac fields_kept :=
  intros; match goal with
          | |- pending_fields (snd (?m ?w)) = pending_fields ?w =>
              revert w; change (keeps pending_fields m)
          end;
  unfold addSkip, addInt, addFloat, addPoint, addBounds, addSize, addInts,
    addUInts, addFloats, addText, addDisplayList, addMatrix, addPath,
    addPaint, addBitmap, addShader, addColorFilter;
  repeat fields_step.

Lemma fields_addInt v w :
  pending_fields (snd (addInt v w)) = pending_fields w.
Proof. fields_kept. Qed.

Lemma fields_addFloat f w :
  pending_fields (snd (addFloat f w)) = pending_fields w.
Proof. fields_kept. Qed.

Lemma fields_addPoint x y w :
  pending_fields (snd (addPoint x y w)) = pending_fields w.
Proof. fields_kept. Qed.

Lemma fields_addBounds l t r b w :
  pending_fields (snd (addBounds l t r b w)) = pending_fields w.
Proof. fields_kept. Qed.

Lemma fields_addSize a b w :
  pending_fields (snd (addSize a b w)) = pending_fields w.
Proof. fields_kept. Qed.

Lemma fields_addInts values count w :
  pending_fields (snd (addInts values count w)) = pending_fields w.
Proof. fields_kept. Qed.

Lemma fields_addUInts values count w :
  pending_fields (snd (addUInts values count w)) = pending_fields w.
Proof. fields_kept. Qed.

Lemma fields_addFloats values count w :
  pending_fields (snd (addFloats values count w)) = pending_fields w.
Proof. fields_kept. Qed.

Lemma fields_addText text byteLength w :
  pending_fields (snd (addText text byteLength w)) = pending_fields w.
Proof. fields_kept. Qed.

Lemma fields_addDisplayList dl w :
  pending_fields (snd (addDisplayList dl w)) = pending_fields w.
Proof. fields_kept. Qed.

Lemma fields_addMatrix m w :
  pending_fields (snd (addMatrix m w)) = pending_fields w.
Proof. fields_kept. Qed.

Lemma fields_addPath p w :
  pending_fields (snd (addPath p w)) = pending_fields w.
Proof. fields_kept. Qed.

Lemma fields_addPaint p w :
  pending_fields (snd (addPaint p w)) = pending_fields w.
Proof. fields_kept. Qed.

Lemma fields_addBitmap b w :
  pending_fields (snd (addBitmap b w)) = pending_fields w.
Proof. fields_kept. Qed.

Lemma fields_addShader p w :
  pending_fields (snd (addShader p w)) = pending_fields w.
Proof. fields_kept. Qed.

Lemma fields_addColorFilter f w :
  pending_fields (snd (addColorFilter f w)) = pending_fields w.
Proof. fields_kept. Qed.

Lemma fields_addSkip location w :
  pending_fields (snd (addSkip location w)) = pending_fields w.
Proof. fields_kept. Qed.

Lemma fields_reset w : pending_fields (snd (reset w)) = pending_fields w.
Proof. unfold reset. rewrite !bindR_eq. reflexivity. Qed.

Lemma fields_base (f : S -> S) w :
  pending_fields (snd (base f w))
  = let '(g, pa, has, x, y, n) := pending_fields w in (f g, pa, has, x, y, n).
Proof. reflexivity. Qed.

Lemma fields_base_ret {A} (f : S -> A * S) w :
  pending_fields (snd (base_ret f w))
  = let '(g, pa, has, x, y, n) := pending_fields w in
    (snd (f g), pa, has, x, y, n).
Proof.
  unfold base_ret, pending_fields. destruct (f (gl (recorder w))).
  reflexivity.
Qed.

Lemma fields_paint_setAntiAlias paint w :
  pending_fields (snd (paint_setAntiAlias paint true w))
  = let '(g, pa, has, x, y, n) := pending_fields w in
    (g, antialiased paint pa, has, x, y, n).
Proof. reflexivity. Qed.

(** Flushing: what [insertRestoreToCount] and [insertTranlate] leave. *)
Lemma fields_flush w :
  pending_fields (snd (insertTranlate (snd (insertRestoreToCount w))))
  = let '(g, pa, has, x, y, n) := pending_fields w in
    (g, pa, false, (if has then fzero else x), (if has then fzero else y),
     (if decide (0 <= n) then -1 else n)).
Proof.
  destruct w as [[wr tx ty has hd n res g] c h].
  unfold insertRestoreToCount, insertTranlate, pending_fields, bindR, get.
  cbn [fst snd recorder heap mRestoreSaveCount mHasTranslate mTranslateX
       mTranslateY gl paintAt].
  destruct (decide (0 <= n)); destruct has; reflexivity.
Qed.

Lemma fields_finish w :
  pending_fields (snd (finish w))
  = let '(g, pa, has, x, y, n) := pending_fields w in
    (g, pa, false, (if has then fzero else x), (if has then fzero else y),
     (if decide (0 <= n) then -1 else n)).
Proof. unfold finish. rewrite bindR_eq. apply fields_flush. Qed.

Lemma fields_addOp op w :
  pending_fields (snd (addOp op w))
  = let '(g, pa, has, x, y, n) := pending_fields w in
    (g, pa, false, (if has then fzero else x), (if has then fzero else y),
     (if decide (0 <= n) then -1 else n)).
Proof.
  unfold addOp. rewrite !bindR_eq. rewrite <- fields_flush. reflexivity.
Qed.

Lemma fields_addOp_reject op reject w :
  pending_fields (snd (addOp_reject op reject w))
  = let '(g, pa, has, x, y, n) := pending_fields w in
    (g, pa, false, (if has then fzero else x), (if has then fzero else y),
     (if decide (0 <= n) then -1 else n)).
Proof.
  unfold addOp_reject. rewrite !bindR_eq. rewrite <- fields_flush.
  destruct reject; rewrite !bindR_eq; reflexivity.
Qed.

Ltac fields_rw :=
  repeat first
    [ rewrite bindR_eq | rewrite fields_addSkip | rewrite fields_addInt
    | rewrite fields_addFloat | rewrite fields_addPoint
    | rewrite fields_addBounds | rewrite fields_addSize
    | rewrite fields_addInts | rewrite fields_addUInts
    | rewrite fields_addFloats | rewrite fields_addText
    | rewrite fields_addDisplayList | rewrite fields_addMatrix
    | rewrite fields_addPath | rewrite fields_addPaint
    | rewrite fields_addBitmap | rewrite fields_addShader
    | rewrite fields_addColorFilter | rewrite fields_base
    | rewrite fields_base_ret | rewrite fields_paint_setAntiAlias
    | rewrite fields_addOp | rewrite fields_addOp_reject
    | progress cbn [retR query get quickReject getSaveCount paint_of fst
                    snd] ].

Ltac fields_done :=
  fields_rw; unfold pending_fields, pending_of, forward, paints_after;
  cbn [fst snd state paints quickReject query get paint_of retR recorder
       heap paintAt paint_setAntiAlias];
  reflexivity.

(** The fields after an operation that is written to the stream. *)
Lemma record_fields c c' w :
  operation c (pending_of w) = Some c' ->
  pending_fields (snd (record c w))
  = let '(g, pa, has, x, y, n) := pending_fields w in
    (forward c (pending_of w), paints_after c (pending_of w), false,
     (if has then fzero else x), (if has then fzero else y),
     (if decide (0 <= n) then -1 else n)).
Proof.
  intros H. destruct c; cbn [operation] in H; try discriminate H;
    unfold record, discard.
  all: try (unfold callDrawGLFunction, save, saveLayer, saveLayerAlpha,
            rotate, scale, skew, setMatrix, concatMatrix, clipRect,
            drawDisplayList, drawLayer, drawBitmap, drawBitmapRect,
            drawPatch, drawColor, drawCircle, drawOval, drawArc, drawLines,
            drawPoints, resetShader, setupShader, resetColorFilter,
            setupColorFilter, resetShadow, setupShadow, resetPaintFilter,
            setupPaintFilter; fields_done).
  - unfold drawBitmapMatrix. destruct (mapRect _ _) as [[[l t] r] b].
    fields_done.
  - unfold drawBitmapMesh. destruct colors; fields_done.
  - unfold drawRect. rewrite bindR_eq. cbn [fst snd paint_of].
    destruct (getStyle _); fields_done.
  - unfold drawRoundRect. rewrite bindR_eq. cbn [fst snd paint_of].
    destruct (getStyle _); fields_done.
  - unfold drawPath. rewrite bindR_eq. cbn [fst snd paint_of].
    destruct (computePathBounds _ _) as [[[[l t] o] wd] ht]. fields_done.
  - unfold drawText. destruct text as [text|]; [|discriminate H].
    case_decide; [discriminate H|].
    rewrite !bindR_eq. cbn [fst snd paint_of].
    destruct (getTextAlign _); [destruct (getFontMetrics _)|..];
      fields_done.
  - unfold drawTextOnPath. destruct text as [text|]; [|discriminate H].
    case_decide; [discriminate H|]. fields_done.
  - unfold drawPosText. destruct text as [text|]; [|discriminate H].
    case_decide; [discriminate H|]. fields_done.
Qed.


(** What the flushed fields say about the pending state. *)
Lemma flushed_pending w w' g pa :
  consistent w ->
  pending_fields w'
  = (g, pa, false,
     (if mHasTranslate (recorder w) then fzero else mTranslateX (recorder w)),
     (if mHasTranslate (recorder w) then fzero else mTranslateY (recorder w)),
     (if decide (0 <= mRestoreSaveCount (recorder w)) then -1
      else mRestoreSaveCount (recorder w))) ->
  pending_of w' = start g pa /\ consistent w'
  /\ mHasTranslate (recorder w') = false
  /\ mTranslateX (recorder w') = fzero /\ mTranslateY (recorder w') = fzero.
Proof.
  intros [Ht Hn] H. unfold pending_fields in H.
  injection H as Hg Hpa Hhas Hx Hy Hn'.
  assert (mTranslateX (recorder w') = fzero
          /\ mTranslateY (recorder w') = fzero) as [Hx' Hy'].
  { rewrite Hx, Hy. destruct (mHasTranslate (recorder w)); [by split|].
    by apply Ht. }
  assert (mRestoreSaveCount (recorder w') < 0) as Hneg.
  { rewrite Hn'. case_decide; lia. }
  split; [|split; [split|split; [|split]]]; try assumption.
  - unfold pending_of, start, pend. rewrite Hg, Hpa, Hhas.
    by rewrite decide_False by lia.
  - intros _. by split.
  - rewrite Hn'. case_decide; [|exact Hn].
    unfold int32. change (2 ^ 31) with 2147483648. lia.
Qed.

Lemma translate_fields dx dy w :
  pending_fields (snd (translate dx dy w))
  = (gl_translate dx dy (gl (recorder w)), paintAt (heap w), true,
     fadd (mTranslateX (recorder w)) dx, fadd (mTranslateY (recorder w)) dy,
     (if decide (0 <= mRestoreSaveCount (recorder w)) then -1
      else mRestoreSaveCount (recorder w))).
Proof.
  destruct w as [[wr tx ty has hd n res g] c h].
  unfold translate, insertRestoreToCount, pending_fields, bindR, get.
  cbn [fst snd recorder heap mRestoreSaveCount mHasTranslate mTranslateX
       mTranslateY gl paintAt modify set_translate].
  destruct (decide (0 <= n)); reflexivity.
Qed.

Lemma restoreToCount_fields saveCount w :
  pending_fields (snd (restoreToCount saveCount w))
  = (gl_restoreToCount saveCount (gl (recorder w)), paintAt (heap w), false,
     (if mHasTranslate (recorder w) then fzero else mTranslateX (recorder w)),
     (if mHasTranslate (recorder w) then fzero else mTranslateY (recorder w)),
     saveCount).
Proof.
  destruct w as [[wr tx ty has hd n res g] c h].
  unfold restoreToCount, insertTranlate, pending_fields, bindR, get.
  cbn [fst snd recorder heap mRestoreSaveCount mHasTranslate mTranslateX
       mTranslateY gl paintAt modify set_mRestoreSaveCount].
  destruct has; reflexivity.
Qed.

Lemma restore_fields w :
  pending_fields (snd (restore w))
  = ((if decide (mRestoreSaveCount (recorder w) < 0)
      then gl_restoreToCount (s32 (gl_getSaveCount (gl (recorder w)) - 1))
             (gl (recorder w))
      else gl_restore (gl (recorder w))),
     paintAt (heap w), false,
     (if mHasTranslate (recorder w) then fzero else mTranslateX (recorder w)),
     (if mHasTranslate (recorder w) then fzero else mTranslateY (recorder w)),
     (if decide (mRestoreSaveCount (recorder w) < 0)
      then s32 (gl_getSaveCount (gl (recorder w)) - 1)
      else s32 (mRestoreSaveCount (recorder w) - 1))).
Proof.
  unfold restore. rewrite bindR_eq. cbn [fst snd get].
  destruct (decide (mRestoreSaveCount (recorder w) < 0)) as [Hlt|Hge].
  - rewrite bindR_eq. cbn [fst snd getSaveCount query].
    apply restoreToCount_fields.
  - clear Hge. destruct w as [[wr tx ty has hd n res g] c h].
    unfold insertTranlate, pending_fields, bindR, get.
    cbn [fst snd recorder heap mRestoreSaveCount mHasTranslate mTranslateX
         mTranslateY gl paintAt modify set_mRestoreSaveCount].
    destruct has; reflexivity.
Qed.

Lemma operation_recorded c w : operation c (pending_of w) = recorded c w.
Proof. destruct c; reflexivity. Qed.

Lemma rejected_tagged c w : rejected c (pending_of w) = tagged c w.
Proof. destruct c; reflexivity. Qed.

(** A call that is neither written nor kept pending leaves the world
    as it was. *)
Lemma record_dropped c w :
  deferred c = false ->
  operation c (pending_of w) = None -> record c w = (tt, w).
Proof.
  intros Hc H. destruct c; cbn [operation] in H; try discriminate H;
    try discriminate Hc; unfold record.
  - unfold drawText. destruct text as [text|]; [|reflexivity].
    case_decide; [reflexivity|discriminate H].
  - unfold drawTextOnPath. destruct text as [text|]; [|reflexivity].
    case_decide; [reflexivity|discriminate H].
  - unfold drawPosText. destruct text as [text|]; [|reflexivity].
    case_decide; [reflexivity|discriminate H].
Qed.

(** Each method of the recorder leaves the pending state that is
    expected of it. *)
Lemma record_pending cull saveCount level c w :
  wf_call c -> consistent w ->
  pending_of (snd (record c w))
  = snd (deliver cull saveCount level c (pending_of w))
  /\ consistent (snd (record c w)).
Proof.
  intros Hwf Hw.
  assert (forall c',
    operation c (pending_of w) = Some c' ->
    pending_of (snd (record c w))
    = start (forward c (pending_of w)) (paints_after c (pending_of w))
    /\ consistent (snd (record c w))) as Hop.
  { intros c' Hc'.
    destruct (flushed_pending w (snd (record c w))
                (forward c (pending_of w)) (paints_after c (pending_of w))
                Hw (record_fields c c' w Hc')) as (H1 & H2 & _).
    by split. }
  assert (operation c (pending_of w) = None -> deferred c = false ->
          pending_of (snd (record c w)) = pending_of w
          /\ consistent (snd (record c w))) as Hdrop.
  { intros Hnone Hc. by rewrite (record_dropped c w Hc Hnone). }
  destruct Hw as [Ht Hn].
  destruct c; cbn [deliver];
    try (destruct (operation _ (pending_of w)) as [c'|] eqn:E;
         [exact (Hop c' eq_refl) | exact (Hdrop eq_refl eq_refl)]).
  - (* restore *)
    pose proof (restore_fields w) as H.
    unfold pending_fields in H. injection H as Hg Hpa Hhas Hx Hy Hn'.
    split.
    + unfold pending_of at 1. cbn [record]. rewrite Hg, Hpa, Hhas, Hn'.
      unfold pending_of, forward, pend.
      cbn [state paints translation restore_to snd].
      destruct (decide (mRestoreSaveCount (recorder w) < 0)) as [Hlt|Hge].
      * rewrite (decide_False (P := 0 <= mRestoreSaveCount (recorder w)))
          by lia.
        reflexivity.
      * rewrite (decide_True (P := 0 <= mRestoreSaveCount (recorder w)))
          by lia.
        rewrite (s32_int32 (mRestoreSaveCount (recorder w) - 1));
          [reflexivity|].
        unfold int32 in *. change (2 ^ 31) with 2147483648 in *. lia.
    + split; cbn [record].
      * intros _. rewrite Hx, Hy.
        destruct (mHasTranslate (recorder w)); [by split|by apply Ht].
      * rewrite Hn'. case_decide; apply s32_range.
  - (* restoreToCount *)
    pose proof (restoreToCount_fields saveCount0 w) as H.
    unfold pending_fields in H. injection H as Hg Hpa Hhas Hx Hy Hn'.
    split.
    + unfold pending_of at 1. cbn [record]. rewrite Hg, Hpa, Hhas, Hn'.
      reflexivity.
    + split; cbn [record].
      * intros _. rewrite Hx, Hy.
        destruct (mHasTranslate (recorder w)); [by split|by apply Ht].
      * rewrite Hn'. exact Hwf.
  - (* translate *)
    pose proof (translate_fields f1 f2 w) as H.
    unfold pending_fields in H. injection H as Hg Hpa Hhas Hx Hy Hn'.
    assert (pend (mRestoreSaveCount (recorder (snd (translate f1 f2 w))))
            = None) as Hp.
    { rewrite Hn'. unfold pend. repeat case_decide; try reflexivity; lia. }
    split.
    + unfold pending_of at 1. cbn [record].
      rewrite Hp, Hg, Hpa, Hhas, Hx, Hy.
      unfold pending_of, forward.
      cbn [state paints translation restore_to snd].
      destruct (mHasTranslate (recorder w)) eqn:Eh; cbn [default].
      * reflexivity.
      * destruct (Ht eq_refl) as [-> ->]. reflexivity.
    + split; cbn [record].
      * rewrite Hhas. discriminate.
      * rewrite Hn'. case_decide; [|exact Hn].
        unfold int32. change (2 ^ 31) with 2147483648. lia.
Qed.

(** *** What the cells of each call decode to *)

Section Decoded.
Variable renderer_returns : Call -> bool.
Variables flags level saveCount : Z.
Variable cull : bool.
Hypothesis culling :
  if cull then Z.land flags kReplayFlag_ClipChildren <> 0
  else Z.land flags kReplayFlag_ClipChildren = 0.

Local Abbreviation decodes :=
  (decodes renderer_returns flags level saveCount).

Lemma decodes_untagged c :
  wf_call c -> has_text c ->
  decodes (encode false c) [replayed saveCount level c].
Proof.
  intros Hwf Ht. apply decodes_iteration. intros rest. unfold encode.
  rewrite replay_iteration_encode_op by discriminate.
  by apply replay_case_operands.
Qed.

Lemma decodes_tagged c :
  Z.land flags kReplayFlag_ClipChildren <> 0 ->
  small_call c -> decodes (encode true c) [].
Proof.
  intros culling_on Hsmall. apply decodes_iteration. intros rest.
  unfold encode, encode_op. rewrite <- !app_comm_cons.
  apply replay_iteration_skip.
  - apply code_tagged.
  - exact culling_on.
  - unfold small_call in Hsmall.
    change (2 ^ 31) with 2147483648 in Hsmall.
    rewrite s32_u32. apply s32_int32. unfold int32.
    change (2 ^ 31) with 2147483648. lia.
  - exact Hsmall.
Qed.

Lemma decodes_encoded tag c :
  wf_call c -> has_text c -> (cull = true -> small_call c) ->
  decodes (encode tag c)
    (if cull && tag then [] else [replayed saveCount level c]).
Proof.
  intros Hwf Ht Hsmall. destruct cull.
  - destruct tag; cbn [andb].
    + apply decodes_tagged; [exact culling|by apply Hsmall].
    + by apply decodes_untagged.
  - cbn [andb]. by apply decodes_encode.
Qed.

Lemma decodes_due_restore w :
  consistent w ->
  decodes (flushR_cells w) (due_restore saveCount (pending_of w)).
Proof.
  intros [_ Hn]. unfold flushR_cells, due_restore, pending_of, pend.
  cbn [restore_to]. case_decide; [|apply decodes_nil].
  apply decodes_iteration. intros rest.
  rewrite (replay_iteration_encode_op _ _ _ false RestoreToCount
             [u32 (mRestoreSaveCount (recorder w))]) by discriminate.
  unfold replay_case, bindD, getInt, readInt, retD. simpl.
  by rewrite s32_u32, (s32_int32 _ Hn).
Qed.

Lemma decodes_due_translate w :
  decodes (flushT_cells w) (due_translate (pending_of w)).
Proof.
  unfold flushT_cells, due_translate, pending_of. cbn [translation].
  destruct (mHasTranslate (recorder w)); [|apply decodes_nil].
  apply (decodes_untagged (renderer_translate _ _)); exact I.
Qed.

Lemma recorded_operands c c' w :
  recorded c w = Some c' -> length (operands c') = length (operands c).
Proof.
  intros H. destruct c; cbn [recorded] in H; try discriminate H;
    try (apply Some_eq in H; subst c'; reflexivity).
  all: destruct text as [text|]; [|discriminate H].
  all: destruct (decide (count <= 0)); [discriminate H|].
  all: apply Some_eq in H; subst c'; cbn [operands]; by rewrite !length_app.
Qed.

(** The cells that a call appends to the stream decode to what is
    expected of the call. *)
Lemma decodes_deliver c w :
  wf_call c -> (cull = true -> small_call c) -> consistent w ->
  decodes (cells_of c w)
    (fst (deliver cull saveCount level c (pending_of w))).
Proof.
  intros Hwf Hsmall Hw.
  assert (forall c',
    recorded c w = Some c' ->
    decodes (flushR_cells w ++ flushT_cells w ++ encode (tagged c w) c')
      (due_restore saveCount (pending_of w) ++ due_translate (pending_of w)
       ++ (if cull && tagged c w then []
           else [replayed saveCount level c']))) as Hrec.
  { intros c' Hc'. destruct (recorded_wf c c' w Hc' Hwf) as [Hwf' Ht'].
    apply decodes_app; [by apply decodes_due_restore|].
    apply decodes_app; [apply decodes_due_translate|].
    apply decodes_encoded; [exact Hwf'|exact Ht'|].
    intros Hc. unfold small_call in *.
    rewrite (recorded_operands c c' w Hc'). by apply Hsmall. }
  unfold cells_of.
  destruct c; cbn [deliver];
    try (rewrite operation_recorded, rejected_tagged;
         destruct (recorded _ w) as [c'|] eqn:E;
         [by apply Hrec | apply decodes_nil]).
  - apply decodes_due_translate.
  - apply decodes_due_translate.
  - destruct (default _ _) as [x y]. by apply decodes_due_restore.
Qed.

(** A session: the stream that the calls [cs] and then [finish] leave
    decodes to what is expected of [cs]. *)
Lemma decodes_run cs w :
  Forall wf_call cs -> (cull = true -> Forall small_call cs) ->
  consistent w ->
  exists cells,
    stream (snd (finish (record_all cs w))) = stream w ++ cells
    /\ decodes cells (run cull saveCount level cs (pending_of w)).
Proof.
  intros Hwf. revert w. induction Hwf as [|c cs Hc _ IH]; intros w Hsmall Hw.
  - exists (flushR_cells w ++ flushT_cells w). split.
    + apply stream_finish.
    + cbn [run]. apply decodes_app;
        [by apply decodes_due_restore|apply decodes_due_translate].
  - destruct (record_pending cull saveCount level c w Hc Hw) as [Hp Hw'].
    destruct (IH (snd (record c w))) as (cells & Hst & Hd).
    { intros Hcull. pose proof (Hsmall Hcull) as Hs. by inversion_clear Hs. }
    { exact Hw'. }
    exists (cells_of c w ++ cells). split.
    + cbn [record_all fold_left] in *. unfold record_all in Hst.
      rewrite Hst, record_stream. by rewrite <- app_assoc.
    + cbn [run]. rewrite <- Hp. apply decodes_app; [|exact Hd].
      apply decodes_deliver; [exact Hc| |exact Hw].
      intros Hcull. pose proof (Hsmall Hcull) as Hs. by inversion_clear Hs.
Qed.

(** The replay of a session that started on an empty stream. *)
Lemma replay_run cs w getSaveCount :
  saveCount = s32 (getSaveCount - 1) ->
  Forall wf_call cs -> (cull = true -> Forall small_call cs) ->
  consistent w -> stream w = [] ->
  replay renderer_returns (stream (snd (finish (record_all cs w))))
    getSaveCount flags level
  = Some (run cull saveCount level cs (pending_of w),
          existsb (needsInvalidate_of renderer_returns)
            (run cull saveCount level cs (pending_of w))).
Proof.
  intros Hsc Hwf Hsmall Hw Hs.
  destruct (decodes_run cs w Hwf Hsmall Hw) as (cells & Hst & Hd).
  unfold replay. rewrite <- Hsc, Hst, Hs. cbn [app].
  rewrite <- (app_nil_r cells), Hd, replay_loop_equation_1.
  unfold prepend. by rewrite app_nil_r, orb_false_r.
Qed.

End Decoded.

(** The list that [getDisplayList] hands out reads the stream of the
    recorder, unless a list is reused for an empty stream. *)
Lemma getDisplayList_reader displayList w :
  displayList = None \/ stream w <> [] ->
  mReader (fst (getDisplayList displayList w)) = stream w.
Proof.
  intros H. unfold getDisplayList, stream.
  assert (forall reusing dl p,
    (reusing = false /\ dl = DisplayListImpl.blank)
    \/ mWriter (recorder w) <> [] ->
    mReader (fst (DisplayListImpl.initFromDisplayListRenderer (recorder w)
                    reusing dl p))
    = mWriter (recorder w)) as Hinit.
  { intros reusing dl p Hd.
    unfold DisplayListImpl.initFromDisplayListRenderer. cbv zeta.
    case_decide as Hz.
    - assert (mWriter (recorder w) = []) as Hnil.
      { unfold writer_size in Hz.
        destruct (mWriter (recorder w)); [reflexivity|].
        cbn [length] in Hz. lia. }
      destruct Hd as [[_ ->]|Hd]; [|contradiction].
      by rewrite Hnil.
    - destruct (if reusing then _ else _) as [dl' [c h]]. reflexivity. }
  destruct displayList as [dl|].
  - destruct H as [H|H]; [discriminate|].
    specialize (Hinit true dl (caches w, heap w) (or_intror H)).
    destruct (DisplayListImpl.initFromDisplayListRenderer _ _ _ _)
      as [dl' [c h]]. exact Hinit.
  - unfold DisplayListImpl.new.
    specialize (Hinit false DisplayListImpl.blank (caches w, heap w)
                  (or_introl (conj eq_refl eq_refl))).
    destruct (DisplayListImpl.initFromDisplayListRenderer _ _ _ _)
      as [dl' [c h]]. exact Hinit.
Qed.

(** *** The worlds that the code reaches *)

Lemma getDisplayList_recorder displayList w :
  recorder (snd (getDisplayList displayList w)) = recorder w.
Proof.
  unfold getDisplayList. destruct displayList as [dl|].
  - destruct (DisplayListImpl.initFromDisplayListRenderer _ _ _ _)
      as [dl' [c h]]. reflexivity.
  - destruct (DisplayListImpl.new _ _) as [dl' [c h]]. reflexivity.
Qed.


Lemma reachable_consistent w : reachable w -> consistent w.
Proof.
  induction 1 as [gl0 n c h Hn|c w Hwf _ IH|w _ IH|w _ IH|width height w _ IH
                 |l t r b opaque w _ IH|displayList w _ IH].
  - split; [by split|exact Hn].
  - by destruct (record_pending false 0 0 c w Hwf IH).
  - pose proof (fields_finish w) as H.
    by destruct (flushed_pending w (snd (finish w)) _ _ IH H) as (_ & ? & _).
  - exact IH.
  - exact IH.
  - destruct IH as [Ht _]. split; [exact Ht|].
    unfold prepareDirty. rewrite bindR_eq. cbn.
    unfold int32. change (2 ^ 31) with 2147483648. lia.
  - unfold consistent. rewrite getDisplayList_recorder. exact IH.
Qed.

(** In a settled world no translation is pending and the sums stand at
    zero. *)
Lemma settled_cleared w :
  settled w ->
  mHasTranslate (recorder w) = false
  /\ mTranslateX (recorder w) = fzero /\ mTranslateY (recorder w) = fzero.
Proof.
  induction 1 as [gl0 n c h|w Hw|c w Hw Hq|w _ IH|width height w _ IH
                 |l t r b opaque w _ IH|displayList w _ IH].
  - by repeat split.
  - pose proof (fields_finish w) as H.
    by destruct (flushed_pending w (snd (finish w)) _ _
                   (reachable_consistent w Hw) H) as (_ & _ & ?).
  - pose proof (reachable_consistent w Hw) as Hc.
    assert (forall w',
      pending_fields w'
      = (gl (recorder w'), paintAt (heap w'), false,
         (if mHasTranslate (recorder w) then fzero
          else mTranslateX (recorder w)),
         (if mHasTranslate (recorder w) then fzero
          else mTranslateY (recorder w)),
         mRestoreSaveCount (recorder w')) ->
      mHasTranslate (recorder w') = false
      /\ mTranslateX (recorder w') = fzero
      /\ mTranslateY (recorder w') = fzero) as Hflush.
    { intros w' H. unfold pending_fields in H.
      injection H as Hhas Hx Hy. rewrite Hhas, Hx, Hy.
      destruct Hc as [Ht _].
      destruct (mHasTranslate (recorder w)); [by repeat split|].
      destruct (Ht eq_refl) as [-> ->]. by repeat split. }
    destruct (deferred c) eqn:Ed.
    + destruct c; try discriminate Ed; try discriminate Hq; cbn [record];
        apply Hflush.
      * pose proof (restore_fields w) as H. unfold pending_fields in H |- *.
        injection H as _ _ Hhas Hx Hy _. by rewrite Hhas, Hx, Hy.
      * pose proof (restoreToCount_fields saveCount w) as H.
        unfold pending_fields in H |- *.
        injection H as _ _ Hhas Hx Hy _. by rewrite Hhas, Hx, Hy.
    + destruct (operation c (pending_of w)) as [c'|] eqn:Eo.
      * by destruct (flushed_pending w (snd (record c w)) _ _ Hc
                       (record_fields c c' w Eo)) as (_ & _ & ?).
      * exfalso. destruct c; cbn [operation] in Eo; try discriminate Eo;
          try discriminate Ed; cbn [quiet] in Hq;
          destruct text as [text|]; try discriminate Hq;
          case_decide; try discriminate Eo;
          by rewrite bool_decide_eq_true_2 in Hq.
  - exact IH.
  - exact IH.
  - exact IH.
  - rewrite getDisplayList_recorder. exact IH.
Qed.

End Simulation.

(** ** Recording, then replaying *)

(** C1, as the code has it.  A recorder that its methods have brought to
    [w], with an empty stream, records the calls [cs], is finished, and
    hands out its display list.  Replaying that list with culling off
    makes, in the order of recording and with the recorded operands, the
    call of every recorded operation except that: a run of [translate]
    calls is delivered as one [translate] of the summed offsets and a
    pending [restore] as one [restoreToCount], each at the next operation
    that flushes it or at [finish]; a text operation without text or
    glyphs delivers nothing; [drawText] delivers the length it measured;
    a nested list is entered one level deeper.  The calls expected are
    computed from [cs] and from what was pending in [w] alone. *)
Theorem replay_of_recording
    {S : Type} `{GL : OpenGLRenderer S} `{SK : Skia}
    (renderer_returns : Call -> bool) (cs : list Call) (w : World S)
    (displayList : option DisplayList) (getSaveCount flags level : Z) :
  Expected.reachable w ->
  Session.stream w = [] ->
  Forall Layout.wf_call cs ->
  Z.land flags kReplayFlag_ClipChildren = 0 ->
  let w' := snd (Recorder.finish (Session.record_all cs w)) in
  displayList = None \/ Session.stream w' <> [] ->
  let recording := mReader (fst (Recorder.getDisplayList displayList w')) in
  let calls :=
    Expected.run false (s32 (getSaveCount - 1)) level cs
      (Expected.pending_of w) in
  Replay.replay renderer_returns recording getSaveCount flags level
  = Some (calls, existsb (Replay.needsInvalidate_of renderer_returns) calls).
Proof.
  intros Hw Hs Hwf Hclip w' Hdl recording calls.
  unfold recording. rewrite (getDisplayList_reader displayList w' Hdl).
  apply (replay_run renderer_returns flags level (s32 (getSaveCount - 1))
           false Hclip cs w getSaveCount eq_refl Hwf).
  - discriminate.
  - by apply reachable_consistent.
  - exact Hs.
Qed.

Lemma replay_of_recording_witness :
  let SK := example_skia 0 0 (0, 0, 0, 0, 0) in
  let F := float_of_int in
  let scenario :=
    [renderer_save 3; renderer_translate (F 10) (F 20);
     renderer_drawRect (F 0) (F 0) (F 5) (F 5) 77; renderer_restore] in
  let w := example_world 100 100 in
  let w' := snd (Recorder.finish (Session.record_all scenario w)) in
  let calls :=
    Expected.run false (s32 (1 - 1)) 0 scenario (Expected.pending_of w) in
  calls = [renderer_save 3; renderer_translate (F 10) (F 20);
           renderer_drawRect (F 0) (F 0) (F 5) (F 5) 77;
           renderer_restoreToCount 1]
  /\ Replay.replay (fun _ => false)
       (mReader (fst (Recorder.getDisplayList None w'))) 1 0 0
     = Some (calls, existsb (Replay.needsInvalidate_of (fun _ => false)) calls).
Proof.
  intros SK F scenario w w' calls. split; [vm_compute; reflexivity|].
  apply (replay_of_recording (fun _ => false) scenario w None 1 0 0).
  - unfold w, example_world.
    apply Expected.reach_prepareDirty, Expected.reach_setViewport,
      Expected.reach_new.
    vm_compute. split; [discriminate|reflexivity].
  - reflexivity.
  - unfold scenario.
    repeat (apply Forall_cons;
            [cbn [Layout.wf_call]; unfold Layout.int32; try lia|]).
    apply Forall_nil.
  - reflexivity.
  - left. reflexivity.
Defined.

(** C1 fails as stated: what the scenario replays as is a
    [restoreToCount], not a [restore] (the recorder defers a restore and
    writes it as [RestoreToCount]); and two [translate] calls in a row
    replay as one. *)
Lemma scenario_replays_restoreToCount :
  let SK := example_skia 0 0 (0, 0, 0, 0, 0) in
  let F := float_of_int in
  let record cs :=
    Session.stream
      (snd (Recorder.finish (Session.record_all cs (example_world 100 100))))
  in
  let scenario :=
    [renderer_save 3; renderer_translate (F 10) (F 20);
     renderer_drawRect (F 0) (F 0) (F 5) (F 5) 77; renderer_restore] in
  let two_translations :=
    [renderer_translate (F 1) (F 1); renderer_translate (F 2) (F 2)] in
  Replay.replay (fun _ => false) (record scenario) 1 0 0
  = Some ([renderer_save 3; renderer_translate (F 10) (F 20);
           renderer_drawRect (F 0) (F 0) (F 5) (F 5) 77;
           renderer_restoreToCount 1], false)
  /\ Replay.replay (fun _ => false) (record scenario) 1 0 0
     <> Some (scenario, false)
  /\ Replay.replay (fun _ => false) (record two_translations) 1 0 0
     = Some ([renderer_translate (F 3) (F 3)], false).
Proof. vm_compute. repeat split. discriminate. Qed.

(** ** Replaying with culling on *)

Section Culled.
Import Layout Expected.
Context {S : Type} `{GL : OpenGLRenderer S} `{SK : Skia}.

Lemma deliver_culled saveCount level c (p : Pending S) :
  snd (deliver true saveCount level c p)
  = snd (deliver false saveCount level c p)
  /\ fst (deliver true saveCount level c p)
     `sublist_of` fst (deliver false saveCount level c p).
Proof.
  destruct c; cbn [deliver];
    try (destruct (operation _ p); cbn [fst snd andb];
         (split; [reflexivity|]);
         [ repeat apply sublist_app; try reflexivity;
           try (destruct (rejected _ p); [apply sublist_nil_l|reflexivity])
         | reflexivity ]).
  - by split.
  - by split.
  - destruct (default _ _) as [x y]. by split.
Qed.

Lemma run_culled saveCount level cs (p : Pending S) :
  run true saveCount level cs p `sublist_of` run false saveCount level cs p.
Proof.
  revert p. induction cs as [|c cs IH]; intros p; [reflexivity|].
  cbn [run]. destruct (deliver_culled saveCount level c p) as [Hs Hf].
  rewrite Hs. by apply sublist_app.
Qed.

End Culled.

(** X4.  Replaying the display list of a finished recording with culling
    on: every operation that the recorder tagged is passed over and every
    other one is delivered as without culling, in the order of recording.
    What was pending when a tagged operation was recorded (a restore, a
    translation) is written ahead of it without a tag and is still
    delivered.  The calls made are a subsequence of those that a replay
    of the same list makes with culling off. *)
Theorem culled_replay_of_recording
    {S : Type} `{GL : OpenGLRenderer S} `{SK : Skia}
    (renderer_returns : Call -> bool) (cs : list Call) (w : World S)
    (displayList : option DisplayList)
    (getSaveCount flags flags_off level : Z) :
  Expected.reachable w ->
  Session.stream w = [] ->
  Forall Layout.wf_call cs ->
  Forall Expected.small_call cs ->
  Z.land flags kReplayFlag_ClipChildren <> 0 ->
  Z.land flags_off kReplayFlag_ClipChildren = 0 ->
  let w' := snd (Recorder.finish (Session.record_all cs w)) in
  displayList = None \/ Session.stream w' <> [] ->
  let recording := mReader (fst (Recorder.getDisplayList displayList w')) in
  let calls :=
    Expected.run true (s32 (getSaveCount - 1)) level cs
      (Expected.pending_of w) in
  Replay.replay renderer_returns recording getSaveCount flags level
  = Some (calls, existsb (Replay.needsInvalidate_of renderer_returns) calls)
  /\ exists calls_off,
       Replay.replay renderer_returns recording getSaveCount flags_off level
       = Some (calls_off,
               existsb (Replay.needsInvalidate_of renderer_returns) calls_off)
       /\ calls `sublist_of` calls_off.
Proof.
  intros Hw Hs Hwf Hsmall Hclip Hoff w' Hdl recording calls.
  unfold recording. rewrite (getDisplayList_reader displayList w' Hdl).
  pose proof (reachable_consistent w Hw) as Hc.
  split.
  - by apply (replay_run renderer_returns flags level
                (s32 (getSaveCount - 1)) true Hclip cs w getSaveCount
                eq_refl Hwf).
  - eexists. split.
    + apply (replay_run renderer_returns flags_off level
               (s32 (getSaveCount - 1)) false Hoff cs w getSaveCount
               eq_refl Hwf); [discriminate|exact Hc|exact Hs].
    + apply run_culled.
Qed.

Lemma culled_replay_of_recording_witness :
  let SK := example_skia 0 0 (0, 0, 0, 0, 0) in
  let F := float_of_int in
  let cs := [renderer_translate (F 1) (F 1);
             renderer_drawRect (F 1000) (F 1000) (F 1010) (F 1010) 77;
             renderer_drawRect (F 0) (F 0) (F 5) (F 5) 77] in
  let w := example_world 100 100 in
  let w' := snd (Recorder.finish (Session.record_all cs w)) in
  let calls :=
    Expected.run true (s32 (1 - 1)) 0 cs (Expected.pending_of w) in
  calls = [renderer_translate (F 1) (F 1);
           renderer_drawRect (F 0) (F 0) (F 5) (F 5) 77]
  /\ Replay.replay (fun _ => false)
       (mReader (fst (Recorder.getDisplayList None w')))
       1 kReplayFlag_ClipChildren 0
     = Some (calls, existsb (Replay.needsInvalidate_of (fun _ => false)) calls).
Proof.
  intros SK F cs w w' calls. split; [vm_compute; reflexivity|].
  destruct (culled_replay_of_recording (fun _ => false) cs w None 1
              kReplayFlag_ClipChildren 0 0) as [H _].
  - unfold w, example_world.
    apply Expected.reach_prepareDirty, Expected.reach_setViewport,
      Expected.reach_new.
    vm_compute. split; [discriminate|reflexivity].
  - reflexivity.
  - unfold cs.
    repeat (apply Forall_cons;
            [cbn [Layout.wf_call]; unfold Layout.int32; try lia|]).
    apply Forall_nil.
  - unfold cs.
    repeat (apply Forall_cons; [vm_compute; reflexivity|]).
    apply Forall_nil.
  - vm_compute. discriminate.
  - reflexivity.
  - left. reflexivity.
  - exact H.
Defined.

(** ** Runs of translations, from a settled recorder *)

Section Translate_run.
Import Layout Recorder Session Expected.
Context {S : Type} `{GL : OpenGLRenderer S} `{SK : Skia}.
Implicit Types w : World S.

Lemma translate_pending dx dy w :
  let r' := recorder (snd (translate dx dy w)) in
  mHasTranslate r' = true
  /\ mTranslateX r' = fadd (mTranslateX (recorder w)) dx
  /\ mTranslateY r' = fadd (mTranslateY (recorder w)) dy
  /\ (mRestoreSaveCount (recorder w) < 0 ->
      mRestoreSaveCount r' = mRestoreSaveCount (recorder w))
  /\ mRestoreSaveCount r' < 0.
Proof.
  unfold translate, insertRestoreToCount. rewrite !bindR_eq.
  cbn [fst snd get modify recorder set_translate mRestoreSaveCount].
  case_decide.
  - rewrite !bindR_eq. cbn. repeat split; lia.
  - cbn. repeat split; lia.
Qed.

(** A quiet call is a [translate], or leaves the world as it was. *)
Lemma quiet_cases c :
  quiet c = true ->
  (exists dx dy, c = renderer_translate dx dy)
  \/ (offsets [c] = [] /\ forall w, record c w = (tt, w)).
Proof.
  intros H. destruct c; try discriminate H.
  - left. by eexists _, _.
  - right. split; [reflexivity|]. intros w. unfold record, drawText.
    destruct text as [text|]; [|reflexivity].
    apply bool_decide_eq_true in H. by rewrite decide_True.
  - right. split; [reflexivity|]. intros w. unfold record, drawTextOnPath.
    destruct text as [text|]; [|reflexivity].
    apply bool_decide_eq_true in H. by rewrite decide_True.
  - right. split; [reflexivity|]. intros w. unfold record, drawPosText.
    destruct text as [text|]; [|reflexivity].
    apply bool_decide_eq_true in H. by rewrite decide_True.
Qed.

Lemma quiet_run_pending cs w :
  Forall (fun c => quiet c = true) cs ->
  mRestoreSaveCount (recorder w) < 0 ->
  mHasTranslate (recorder w) = true ->
  let r' := recorder (record_all cs w) in
  stream (record_all cs w) = stream w
  /\ mHasTranslate r' = true
  /\ mTranslateX r'
     = fold_left fadd (map fst (offsets cs)) (mTranslateX (recorder w))
  /\ mTranslateY r'
     = fold_left fadd (map snd (offsets cs)) (mTranslateY (recorder w))
  /\ mRestoreSaveCount r' < 0.
Proof.
  intros Hq. revert w. induction Hq as [|c cs Hc _ IH]; intros w Hn Hh.
  - cbn. repeat split; assumption.
  - destruct (quiet_cases c Hc) as [(dx & dy & ->)|[Ho Hw]].
    + cbn [offsets omap map record_all fold_left fst snd record].
      destruct (translate_pending dx dy w) as (H1 & H2 & H3 & H4 & H5).
      destruct (IH (snd (translate dx dy w)) H5 H1)
        as (I1 & I2 & I3 & I4 & I5).
      unfold record_all, offsets in *. cbn zeta in *.
      rewrite I1, I3, I4, H2, H3.
      rewrite stream_translate. unfold flushR_cells.
      rewrite decide_False by lia. rewrite app_nil_r.
      repeat split; assumption.
    + change (c :: cs) with ([c] ++ cs). unfold offsets in *.
      rewrite omap_app, Ho. cbn [app record_all fold_left].
      rewrite Hw. cbn [snd]. by apply IH.
Qed.

Lemma quiet_run cs w :
  Forall (fun c => quiet c = true) cs ->
  offsets cs <> [] ->
  mHasTranslate (recorder w) = false ->
  mTranslateX (recorder w) = fzero ->
  mTranslateY (recorder w) = fzero ->
  let w' := record_all cs w in
  stream w' = stream w ++ flushR_cells w
  /\ flushR_cells w' = []
  /\ flushT_cells w'
     = [u32 (op_code Translate); sum_floats (map fst (offsets cs));
        sum_floats (map snd (offsets cs))].
Proof.
  intros Hq. revert w. induction Hq as [|c cs Hc Hcs IH];
    intros w Hds Hh Hx Hy; [by destruct Hds|].
  destruct (quiet_cases c Hc) as [(dx & dy & ->)|[Ho Hw]].
  - cbn [offsets omap map record_all fold_left fst snd record].
    destruct (translate_pending dx dy w) as (H1 & H2 & H3 & _ & H5).
    destruct (quiet_run_pending cs (snd (translate dx dy w)) Hcs H5 H1)
      as (I1 & I2 & I3 & I4 & I5).
    unfold record_all, offsets in *. cbn zeta in *.
    split; [|split].
    + rewrite I1. apply stream_translate.
    + unfold flushR_cells. by rewrite decide_False by lia.
    + unfold flushT_cells, sum_floats. rewrite I2, I3, I4, H2, H3, Hx, Hy.
      reflexivity.
  - change (c :: cs) with ([c] ++ cs) in Hds |- *. unfold offsets in *.
    rewrite omap_app, Ho in Hds |- *. cbn [app record_all fold_left] in *.
    rewrite Hw. cbn [snd]. by apply IH.
Qed.

(** C8, as the code has it.  The recorder is settled: no [translate]
    has been called on it since it was made, or since its last [finish],
    [restore], [restoreToCount] or operation that was written to the
    stream.  A run follows: one or more [translate] calls, and among
    them any number of text operations that are handed no text or no
    glyph.
    After the run, [finish], [restore], [restoreToCount] and every
    operation that is recorded put into the stream, after the restore
    that was pending when the run began, one [Translate] whose operands
    are the sums of the offsets, and after it the operation itself;
    nothing else. *)
Theorem translate_run_is_one_Translate w (cs : list Call) :
  settled w ->
  Forall (fun c => quiet c = true) cs ->
  offsets cs <> [] ->
  let w' := record_all cs w in
  let run :=
    [u32 (op_code Translate); sum_floats (map fst (offsets cs));
     sum_floats (map snd (offsets cs))] in
  stream (snd (finish w')) = stream w ++ flushR_cells w ++ run
  /\ stream (snd (restore w')) = stream w ++ flushR_cells w ++ run
  /\ (forall n,
        stream (snd (restoreToCount n w'))
        = stream w ++ flushR_cells w ++ run)
  /\ (forall c c',
        recorded c w' = Some c' ->
        stream (snd (record c w'))
        = stream w ++ flushR_cells w ++ run ++ encode (tagged c w') c').
Proof.
  intros Hw Hq Hds w' run.
  destruct (settled_cleared w Hw) as (Hh & Hx & Hy).
  destruct (quiet_run cs w Hq Hds Hh Hx Hy) as (H1 & H2 & H3).
  fold w' in H1, H2, H3. fold run in H3.
  split; [|split; [|split]].
  - by rewrite stream_finish, H1, H2, H3, <- app_assoc.
  - by rewrite stream_restore, H1, H3, <- app_assoc.
  - intros n. by rewrite stream_restoreToCount, H1, H3, <- app_assoc.
  - intros c c' Hc. rewrite record_stream, (cells_of_recorded c c' w' Hc).
    by rewrite H1, H2, H3, <- app_assoc.
Qed.

End Translate_run.

Lemma translate_run_is_one_Translate_witness :
  let SK := example_skia 0 0 (0, 0, 0, 0, 0) in
  let F := float_of_int in
  let w :=
    snd (Recorder.drawRect (F 0) (F 0) (F 5) (F 5) 77
           (example_world 100 100)) in
  let cs := [renderer_translate (F 1) (F 1);
             renderer_drawText None 0 0 (F 0) (F 0) 77 (F 0);
             renderer_translate (F 2) (F 2)] in
  let w' := Session.record_all cs w in
  Session.stream (snd (Recorder.finish w'))
  = Session.stream w ++ Layout.flushR_cells w
    ++ [u32 (op_code Translate);
        Layout.sum_floats (map fst (Expected.offsets cs));
        Layout.sum_floats (map snd (Expected.offsets cs))].
Proof.
  intros SK F w cs w'.
  destruct (translate_run_is_one_Translate w cs) as [H _].
  - unfold w, example_world.
    apply (Expected.settled_record
             (renderer_drawRect (F 0) (F 0) (F 5) (F 5) 77));
      [|reflexivity].
    apply Expected.reach_prepareDirty, Expected.reach_setViewport,
      Expected.reach_new.
    vm_compute. split; [discriminate|reflexivity].
  - unfold cs. repeat (apply Forall_cons; [reflexivity|]). apply Forall_nil.
  - discriminate.
  - exact H.
Defined.

(** C8 fails as stated: a [drawText] without text is a non-translate
    operation, and after it the translation by (1, 1) is still pending,
    the stream still empty; the next run adds to it, and the rectangle
    that follows is preceded by one [Translate] of (3, 3). *)
Lemma null_text_does_not_flush_translation :
  let SK := example_skia 0 0 (0, 0, 0, 0, 0) in
  let F := float_of_int in
  let w1 := snd (Recorder.translate (F 1) (F 1) (example_world 100 100)) in
  let w2 := snd (Recorder.drawText None 0 0 (F 0) (F 0) 77 (F 0) w1) in
  let w3 := snd (Recorder.translate (F 2) (F 2) w2) in
  let w4 := snd (Recorder.drawRect (F 0) (F 0) (F 5) (F 5) 77 w3) in
  Session.stream w2 = []
  /\ Session.stream w4
     = [op_code Translate; F 3; F 3;
        op_code DrawRect; F 0; F 0; F 5; F 5; 77].
Proof. vm_compute. split; reflexivity. Qed.

(** ** [output] keeps step with [replay] *)

Section In_step.
Import Reader Replay Output Frame.

Ltac in_step :=
  repeat first
    [ reflexivity
    | match goal with
      | |- context [match ?x with Some _ => _ | None => _ end] =>
          lazymatch x with
          | context [match _ with Some _ => _ | None => _ end] => fail
          | _ => destruct x as [[? ?]|]
          end
      | |- context [if decide ?P then _ else _] => destruct (decide P)
      end; cbv beta iota ].

Lemma cursor_output_case level saveCount op r :
  is_Some (op_of_code op) ->
  cursor_after (output_case level saveCount op) r
  = cursor_after (replay_case level saveCount op) r.
Proof.
  intros [o Ho]. revert Ho.
  unfold cursor_after, output_case, replay_case, output_ResetShader.
  destruct (op_of_code op) as [[]|]; [intros _..|discriminate];
    unfold getInt, getUInt, getFloat, getFloats, getInts, getUInts, getText,
      getPaint, getPath, getMatrix, getBitmap, getShader, getColorFilter,
      getDisplayList, bindD, retD; in_step.
Qed.

Lemma unknown_output_case level saveCount op r :
  op_of_code op = None -> output_case level saveCount op r = None.
Proof. intros H. unfold output_case. by rewrite H. Qed.

Lemma unknown_replay_case level saveCount op r :
  op_of_code op = None -> replay_case level saveCount op r = Some ([], r).
Proof. intros H. unfold replay_case. by rewrite H. Qed.

Lemma known_replay_case level saveCount op r calls r' :
  replay_case level saveCount op r = Some (calls, r') -> calls <> [] ->
  is_Some (op_of_code op).
Proof.
  intros H Hc. destruct (op_of_code op) as [o|] eqn:E; [by eexists|].
  rewrite (unknown_replay_case _ _ _ _ E) in H.
  apply Some_eq in H. by injection H as <- _.
Qed.

Lemma known_output_case level saveCount op r lines r' :
  output_case level saveCount op r = Some (lines, r') ->
  is_Some (op_of_code op).
Proof.
  intros H. destruct (op_of_code op) as [o|] eqn:E; [by eexists|].
  by rewrite (unknown_output_case _ _ _ _ E) in H.
Qed.

Lemma cursor_some {A B} (m : Dec A) (m' : Dec B) r a r' :
  cursor_after m r = cursor_after m' r ->
  m r = Some (a, r') -> exists b, m' r = Some (b, r').
Proof.
  unfold cursor_after. intros H Hm. rewrite Hm in H. cbn in H.
  destruct (m' r) as [[b r'']|]; [|discriminate H].
  cbn in H. apply Some_eq in H. subst r''. by exists b.
Qed.

(** X3.  One iteration of [output] against one iteration of a [replay]
    that culls nothing, at any cursor.  Where [output] logs an operation,
    [replay] decodes one and both leave the cursor at the same cell; that
    includes a tagged opcode, whose skip length both read, and
    [DrawPosText], whose run into [case ResetShader] reads nothing.
    Where [replay] makes a call, [output] logs it and leaves the cursor
    where [replay] does.  On an opcode that is in no [case], [replay]
    goes on to the next cell, while [output] reads [OP_NAMES] outside its
    entries. *)
Theorem output_keeps_step_with_replay flags level saveCount (r : SkReader32) :
  Z.land flags kReplayFlag_ClipChildren = 0 ->
  (forall lines r',
     output_iteration level saveCount r = Some (lines, r') ->
     exists calls, replay_iteration flags level saveCount r = Some (calls, r'))
  /\ (forall calls r',
        replay_iteration flags level saveCount r = Some (calls, r') ->
        calls <> [] ->
        exists lines, output_iteration level saveCount r = Some (lines, r'))
  /\ (forall w rest,
        r = w :: rest ->
        Z.land (s32 w) OP_MAY_BE_SKIPPED_MASK = 0 ->
        op_of_code (s32 w) = None ->
        replay_iteration flags level saveCount r = Some ([], rest)
        /\ output_iteration level saveCount r = None).
Proof.
  intros Hclip. split; [|split].
  - intros lines r' H. revert H.
    unfold output_iteration, replay_iteration, bindD.
    destruct (readInt r) as [[op r1]|]; [|discriminate].
    destruct (decide (Z.land op OP_MAY_BE_SKIPPED_MASK <> 0)).
    + destruct (readInt r1) as [[skip r2]|]; [|discriminate].
      rewrite decide_False by (intros H; apply H, Hclip).
      destruct (output_case _ _ _ r2) as [[lines' r3]|] eqn:E;
        [|discriminate].
      unfold retD. intros H. apply Some_eq in H.
      assert (r3 = r') as -> by congruence.
      exact (cursor_some _ _ _ _ _
               (cursor_output_case _ _ _ _ (known_output_case _ _ _ _ _ _ E))
               E).
    + intros H.
      exact (cursor_some _ _ _ _ _
               (cursor_output_case _ _ _ _ (known_output_case _ _ _ _ _ _ H))
               H).
  - intros calls r' H Hc. revert H.
    unfold output_iteration, replay_iteration, bindD.
    destruct (readInt r) as [[op r1]|]; [|discriminate].
    destruct (decide (Z.land op OP_MAY_BE_SKIPPED_MASK <> 0)).
    + destruct (readInt r1) as [[skip r2]|]; [|discriminate].
      rewrite decide_False by (intros H; apply H, Hclip).
      intros H.
      destruct (cursor_some _ _ _ _ _
                  (eq_sym (cursor_output_case level saveCount _ r2
                             (known_replay_case _ _ _ _ _ _ H Hc))) H)
        as [lines Hl].
      rewrite Hl. unfold retD. by eexists.
    + intros H.
      exact (cursor_some _ _ _ _ _
               (eq_sym (cursor_output_case level saveCount _ r1
                          (known_replay_case _ _ _ _ _ _ H Hc))) H).
  - intros w rest -> Htag Hop.
    unfold output_iteration, replay_iteration, bindD, readInt.
    cbv beta iota. rewrite !decide_False by (intros H; by apply H).
    split; [by apply unknown_replay_case|by apply unknown_output_case].
Qed.

End In_step.

Lemma output_keeps_step_with_replay_witness :
  let buffer := [op_code DrawPosText; 1; 65; 1; 2; 0; 0; 77; op_code Save; 3]
  in
  exists calls,
    Replay.replay_iteration 0 0 0 buffer = Some (calls, [op_code Save; 3]).
Proof.
  intros buffer.
  destruct (output_keeps_step_with_replay 0 0 0 buffer eq_refl) as [H _].
  apply (H [LogOp (op_code DrawPosText)
              [ArgText [65]; ArgInt 1; ArgInt 1; ArgPtr 77];
            LogOp (op_code DrawPosText) []]).
  reflexivity.
Defined.
